(** * Software-Shop: license registry, key release gate and ledger contract

    A shallow embedding of the licensing core of the repository:
    - the server actions of [src/lib/auth.ts] that read and write the
      [licenses] collection ([bindDeviceToLicense], [getDecryptionKey],
      [revokeLicense], [reactivateLicense], [sendViolationEmail]) and the
      buyer's soft-delete route ([/api/license/delete-by-buyer]);
    - the other server actions of [src/lib/auth.ts] that write or list
      licenses, and the routes in front of the server actions;
    - the token contract [SoftwareLicense.sol], in its two copies
      ([contracts/] and [workspace/my-smart-contract/contracts/]), with
      [keccak256] and the address test of ethers that the two sides rely
      on.

    The MongoDB collections are finite maps from document id to record, a
    server action is a function from the stored state to the new state and
    the reply, and everything outside the process (the RPC node, the
    database connection, the clock, the environment variables) is read from
    an explicit environment. *)

From Stdlib Require Import String Ascii ZArith NArith List Bool Lia.
From stdpp Require Import base option gmap strings pretty sorting.

Local Open Scope string_scope.

(** ** JavaScript strings *)

Module Js.

(** [!s] is false exactly for the non-empty strings. *)
Definition truthy (s : string) : bool := negb (String.eqb s "").

(** The strings of ASCII characters (code points below 128). *)
Definition is_ascii (s : string) : bool :=
  forallb (fun c => (nat_of_ascii c <? 128)%nat) (list_ascii_of_string s).

Definition lower_ascii (c : ascii) : ascii :=
  let n := nat_of_ascii c in
  if (65 <=? n)%nat && (n <=? 90)%nat then ascii_of_nat (n + 32) else c.

Definition upper_ascii (c : ascii) : ascii :=
  let n := nat_of_ascii c in
  if (97 <=? n)%nat && (n <=? 122)%nat then ascii_of_nat (n - 32) else c.

(** [String.prototype.toLowerCase] on a string of ASCII characters
    ([is_ascii]), where it turns the letters A to Z into a to z and keeps
    every other character. Outside ASCII the JavaScript function folds
    other letters too (the Kelvin sign becomes [k]), which this one does
    not: what is proved of a call that lower-cases an argument nobody has
    checked is proved for the ASCII arguments. The holder that ethers
    returns and an address that [isAddress] accepts are ASCII. *)
Fixpoint toLowerCase (s : string) : string :=
  match s with
  | EmptyString => EmptyString
  | String c r => String (lower_ascii c) (toLowerCase r)
  end.

(** [String.prototype.toUpperCase], on ASCII as well. *)
Fixpoint toUpperCase (s : string) : string :=
  match s with
  | EmptyString => EmptyString
  | String c r => String (upper_ascii c) (toUpperCase r)
  end.

Fixpoint startsWith (s needle : string) : bool :=
  match needle, s with
  | EmptyString, _ => true
  | String _ _, EmptyString => false
  | String a n', String b s' => Ascii.eqb a b && startsWith s' n'
  end.

(** [String.prototype.includes]. *)
Fixpoint includes (s needle : string) : bool :=
  startsWith s needle ||
  match s with
  | EmptyString => false
  | String _ s' => includes s' needle
  end.

(** A thrown value, as far as the handlers look at it: [error.reason] (set
    by ethers on a revert with a reason string) and [error.message]. *)
Record Error := mkError { reason : option string; message : string }.

(** [error.reason || error.message] *)
Definition reason_or_message (e : Error) : string :=
  match reason e with
  | Some r => if truthy r then r else message e
  | None => message e
  end.

Definition dquote : string := String (ascii_of_nat 34) EmptyString.

End Js.

(** The letters of the alphabet, capital and small, in the same order. *)
Definition capitals : string := "ABCDEFGHIJKLMNOPQRSTUVWXYZ".
Definition smalls : string := "abcdefghijklmnopqrstuvwxyz".

(** Each capital letter with its small form. *)
Definition letters : list (ascii * ascii) :=
  combine (list_ascii_of_string capitals) (list_ascii_of_string smalls).

(** Two characters that are the same, or the capital and the small form
    of one letter. *)
Definition same_letter (a b : ascii) : Prop :=
  a = b \/ In (a, b) letters \/ In (b, a) letters.

(** Two strings that differ at most in the case of their letters: what
    "case-insensitively equal" says, stated on the alphabet and not
    through the functions the code calls. *)
Inductive eq_ignore_case : string -> string -> Prop :=
| eic_nil : eq_ignore_case "" ""
| eic_cons a b s t :
    same_letter a b ->
    eq_ignore_case s t ->
    eq_ignore_case (String a s) (String b t).

(** The decision of [same_letter], by looking the characters up. *)
Definition same_letterb (a b : ascii) : bool :=
  Ascii.eqb a b
  || existsb (fun p => Ascii.eqb p.1 a && Ascii.eqb p.2 b) letters
  || existsb (fun p => Ascii.eqb p.1 b && Ascii.eqb p.2 a) letters.

(** The 256 characters. *)
Definition all_ascii : list ascii := map ascii_of_nat (seq 0 256).

(** ** Documents of the store *)

(** [status: 'active' | 'revoked' | 'blocked' | 'deleted_by_user'] *)
Inductive Status := active | revoked | blocked | deleted_by_user.

#[global] Instance Status_eq_dec : EqDecision Status.
Proof. solve_decision. Defined.

Definition status_string (s : Status) : string :=
  match s with
  | active => "active"
  | revoked => "revoked"
  | blocked => "blocked"
  | deleted_by_user => "deleted_by_user"
  end.

(** [interface LicensingRules] *)
Record LicensingRules := mkRules { ipLock : bool; fingerprintLock : bool }.

(** A document of the [licenses] collection: the fields written by
    [recordLicensePurchase], and [reason] and [lastViolationDate], which
    are absent ([None]) until an update sets them. *)
Module License.
Record t := mk {
  softwareId : N;
  softwareTitle : string;
  buyerAddress : string;
  tokenId : N;
  transactionHash : string;
  mintDate : Z;
  buyerIp : string;
  deviceId : string;
  status : Status;
  reason : option string;
  lastViolationDate : option Z
}.

Definition set_deviceId (d : string) (l : t) : t :=
  mk (softwareId l) (softwareTitle l) (buyerAddress l) (tokenId l)
     (transactionHash l) (mintDate l) (buyerIp l) d
     (status l) (reason l) (lastViolationDate l).

Definition set_status (s : Status) (l : t) : t :=
  mk (softwareId l) (softwareTitle l) (buyerAddress l) (tokenId l)
     (transactionHash l) (mintDate l) (buyerIp l) (deviceId l)
     s (reason l) (lastViolationDate l).

Definition set_reason (r : option string) (l : t) : t :=
  mk (softwareId l) (softwareTitle l) (buyerAddress l) (tokenId l)
     (transactionHash l) (mintDate l) (buyerIp l) (deviceId l)
     (status l) r (lastViolationDate l).

Definition set_lastViolationDate (d : option Z) (l : t) : t :=
  mk (softwareId l) (softwareTitle l) (buyerAddress l) (tokenId l)
     (transactionHash l) (mintDate l) (buyerIp l) (deviceId l)
     (status l) (reason l) d.

Definition set_buyerIp (ip : string) (l : t) : t :=
  mk (softwareId l) (softwareTitle l) (buyerAddress l) (tokenId l)
     (transactionHash l) (mintDate l) ip (deviceId l)
     (status l) (reason l) (lastViolationDate l).

#[global] Instance eq_dec : EqDecision t.
Proof. solve_decision. Defined.
End License.

(** A document of the [software] collection, as [uploadSoftware] inserts it
    (the fields the licensing core reads). *)
Module Software.
Record t := mk {
  sellerId : N;
  title : string;
  licensingRules : LicensingRules;
  decryptionKey : string;
  fileUrl : string
}.

Definition set_ipLock (b : bool) (s : t) : t :=
  mk (sellerId s) (title s)
     (mkRules b (fingerprintLock (licensingRules s)))
     (decryptionKey s) (fileUrl s).
End Software.

Module User.
Record t := mk { username : string; email : string }.
End User.

(** The message handed to [transporter.sendMail]; the HTML body is kept as
    the values interpolated into it. *)
Record Mail := mkMail {
  mail_to : string;
  mail_subject : string;
  mail_software : string;
  mail_tokenId : N;
  mail_reason : string;
  mail_buyer : string
}.

(** The stored state: the three collections, and the mail handed to the
    SMTP transport so far. *)
Record World := mkWorld {
  licenses : gmap N License.t;
  software : gmap N Software.t;
  users : gmap N User.t;
  outbox : list Mail
}.

Definition with_licenses (ls : gmap N License.t) (w : World) : World :=
  mkWorld ls (software w) (users w) (outbox w).

(** ** The environment of a call *)

(** [await contract.ownerOf(tokenId)]: the holder, or a thrown error. *)
Inductive OwnerRead :=
| Holder (address : string)
| OwnerThrew (e : Js.Error).

(** [contract.revokeLicense(tokenId)] followed by [tx.wait()]. *)
Inductive TxOutcome :=
| TxConfirmed
| TxSendThrew (e : Js.Error)
| TxWaitThrew (e : Js.Error).

Record Env := mkEnv {
  (** [process.env.NEXT_PUBLIC_AMOY_RPC_URL] is set *)
  AMOY_RPC_URL : bool;
  (** [process.env.NEXT_PUBLIC_SELLER_PRIVATE_KEY] is set *)
  SELLER_PRIVATE_KEY : bool;
  (** [EMAIL_SERVER_USER] and [EMAIL_SERVER_PASSWORD] are set *)
  EMAIL_SERVER : bool;
  (** [ObjectId.isValid(s)] holds when this is [Some], and then
      [new ObjectId(s)] is its value (bson, not part of the repository) *)
  ObjectId : string -> option N;
  (** [ethers.isAddress] *)
  isAddress : string -> bool;
  (** [Some e]: [await clientPromise] and the reads of the store reject *)
  db_read_fault : option Js.Error;
  (** [Some e]: [updateOne] rejects *)
  db_write_fault : option Js.Error;
  (** [Some e]: [transporter.sendMail] rejects *)
  smtp_fault : option Js.Error;
  chain_ownerOf : N -> OwnerRead;
  chain_revokeLicense : N -> TxOutcome;
  (** [new Date()] *)
  now : Z
}.

(** ** Replies *)

(** [{ success, message, key?, fileUrl? }] *)
Record Result := mkResult {
  success : bool;
  message : string;
  key : option string;
  fileUrl : option string
}.

Definition reply (ok : bool) (msg : string) : Result := mkResult ok msg None None.

(** The outcome of a [try] block: a returned value or a thrown error. *)
Definition Try (A : Type) : Type := Js.Error + A.

Definition throw {A} (e : Js.Error) : Try A := inl e.
Definition ret {A} (a : A) : Try A := inr a.

Definition try_bind {A B} (m : Try A) (k : A -> Try B) : Try B :=
  match m with
  | inl e => inl e
  | inr a => k a
  end.

Notation "'let*' x ':=' m 'in' k" := (try_bind m (fun x => k))
  (at level 10, x pattern, m at level 100, k at level 200).

Definition catch {A} (m : Try A) (handler : Js.Error -> A) : A :=
  match m with
  | inl e => handler e
  | inr a => a
  end.

(** [await clientPromise; client.db()] *)
Definition connect (env : Env) : Try unit :=
  match db_read_fault env with
  | Some e => throw e
  | None => ret tt
  end.

(** [db.collection(c).findOne({ _id })] *)
Definition findOne {A} (env : Env) (c : gmap N A) (id : N) : Try (option A) :=
  match db_read_fault env with
  | Some e => throw e
  | None => ret (c !! id)
  end.

(** [db.collection('licenses').updateOne({ _id }, update)]: the collection
    after the update and [modifiedCount]. *)
Definition updateOne (env : Env) (c : gmap N License.t) (id : N)
    (update : License.t -> License.t) : Try (gmap N License.t * nat) :=
  match db_write_fault env with
  | Some e => throw e
  | None =>
      match c !! id with
      | None => ret (c, 0%nat)
      | Some l =>
          if decide (update l = l) then ret (c, 0%nat)
          else ret (<[id := update l]> c, 1%nat)
      end
  end.

(** ** Server actions of [src/lib/auth.ts] *)

(** [sendViolationEmail(license)]: mails the seller of the license's
    software. No other function of the repository calls it. *)
Definition sendViolationEmail (env : Env) (w : World) (license : License.t) : World :=
  if negb (EMAIL_SERVER env) then w
  else
    catch
      (let* _ := connect env in
       let* sw := findOne env (software w) (License.softwareId license) in
       match sw with
       | None => ret w
       | Some sw =>
           let* seller := findOne env (users w) (Software.sellerId sw) in
           match seller with
           | None => ret w
           | Some seller =>
               if negb (Js.truthy (User.email seller)) then ret w
               else
                 match smtp_fault env with
                 | Some e => throw e
                 | None =>
                     ret (mkWorld (licenses w) (software w) (users w)
                            (outbox w ++
                             [mkMail (User.email seller)
                                ("[Security Alert] License for " +:+ Js.dquote +:+
                                 Software.title sw +:+ Js.dquote +:+ " has been blocked")
                                (Software.title sw)
                                (License.tokenId license)
                                "Device violation (attempted use on a new device)."
                                (License.buyerAddress license)]))
                 end
           end
       end)
      (fun _ => w).

(** [bindDeviceToLicense(licenseId, deviceId)] *)
Definition bindDeviceToLicense (env : Env) (w : World) (licenseId deviceId : string)
    : World * Result :=
  if negb (Js.truthy licenseId) || negb (Js.truthy deviceId) then
    (w, reply false "License ID and Device ID are required.")
  else
    catch
      (let* _ := connect env in
       match ObjectId env licenseId with
       | None => ret (w, reply false "Invalid license ID format.")
       | Some id =>
           let* license := findOne env (licenses w) id in
           match license with
           | None => ret (w, reply false "License not found.")
           | Some license =>
               let* sw := findOne env (software w) (License.softwareId license) in
               if negb (from_option (fun s => fingerprintLock (Software.licensingRules s)) false sw)
               then ret (w, reply true "Device binding is not required for this license.")
               else if Js.truthy (License.deviceId license)
                       && negb (String.eqb (License.deviceId license) deviceId)
               then ret (w, reply false "This license is already bound to another device.")
               else if negb (Js.truthy (License.deviceId license)) then
                 let* (ls, modifiedCount) :=
                   updateOne env (licenses w) id (License.set_deviceId deviceId) in
                 if (0 <? modifiedCount)%nat
                 then ret (with_licenses ls w, reply true "Device successfully bound to license.")
                 else ret (with_licenses ls w, reply true "Device is already correctly bound.")
               else ret (w, reply true "Device is already correctly bound.")
           end
       end)
      (fun _ => (w, reply false "An unexpected server error occurred during device binding.")).

(** [contractError.reason && contractError.reason.includes('invalid token ID')] *)
Definition is_invalid_token_error (contractError : Js.Error) : bool :=
  match Js.reason contractError with
  | Some r => Js.truthy r && Js.includes r "invalid token ID"
  | None => false
  end.

(** The update written when the ownership read reports a missing token. *)
Definition mark_burned (env : Env) (l : License.t) : License.t :=
  License.set_lastViolationDate (Some (now env))
    (License.set_reason (Some "Token does not exist (burned)")
       (License.set_status revoked l)).

(** The end of [getDecryptionKey], after the smart contract validation: the
    device lock and the stored key. *)
Definition device_lock_and_key (sw : Software.t) (license : License.t) (deviceId : string)
    : Result :=
  if fingerprintLock (Software.licensingRules sw)
     && (Js.truthy (License.deviceId license)
         && negb (String.eqb (License.deviceId license) deviceId))
  then reply false "Device mismatch. This license is not bound to this device."
  else if negb (Js.truthy (Software.decryptionKey sw)) || negb (Js.truthy (Software.fileUrl sw))
  then reply false "Could not find the software's decryption key or file URL."
  else mkResult true "Key retrieved successfully."
         (Some (Software.decryptionKey sw)) (Some (Software.fileUrl sw)).

Definition not_owner_reply : Result :=
  reply false "Smart contract check failed: The connected wallet is not the owner of this license NFT.".

(** [getDecryptionKey(licenseId, deviceId, walletAddress)] *)
Definition getDecryptionKey (env : Env) (w : World)
    (licenseId deviceId walletAddress : string) : World * Result :=
  if negb (Js.truthy licenseId) || negb (Js.truthy deviceId) || negb (Js.truthy walletAddress)
  then (w, reply false "License ID, Device ID, and Wallet Address are required.")
  else if negb (AMOY_RPC_URL env)
  then (w, reply false "The server is not configured to communicate with the blockchain.")
  else
    catch
      (let* _ := connect env in
       match ObjectId env licenseId with
       | None => ret (w, reply false "Invalid license ID format.")
       | Some id =>
           let* license := findOne env (licenses w) id in
           match license with
           | None => ret (w, reply false "License not found in the database.")
           | Some license =>
               if negb (bool_decide (License.status license = active)) then
                 ret (w, reply false
                           ("License is not active. Current status: " +:+
                            status_string (License.status license) +:+
                            ". Contact the seller for assistance."))
               else
                 let* sw := findOne env (software w) (License.softwareId license) in
                 match sw with
                 | None => ret (w, reply false "Could not find the associated software.")
                 | Some sw =>
                     match chain_ownerOf env (License.tokenId license) with
                     | Holder ownerOfToken =>
                         if negb (String.eqb (Js.toLowerCase ownerOfToken)
                                             (Js.toLowerCase walletAddress))
                         then ret (w, not_owner_reply)
                         else ret (w, device_lock_and_key sw license deviceId)
                     | OwnerThrew contractError =>
                         if is_invalid_token_error contractError then
                           let* (ls, _) :=
                             updateOne env (licenses w) id (mark_burned env) in
                           ret (with_licenses ls w,
                                reply false "This license has been revoked and no longer exists on the blockchain.")
                         else
                           ret (w, reply false "Could not verify license ownership on the blockchain.")
                     end
                 end
           end
       end)
      (fun _ => (w, reply false "An unexpected server error occurred.")).

(** [revokeLicense(licenseId)] *)
Definition revokeLicense (env : Env) (w : World) (licenseId : string) : World * Result :=
  if negb (SELLER_PRIVATE_KEY env) || negb (AMOY_RPC_URL env) then
    (w, reply false "Server is not configured for blockchain transactions.")
  else
    match (if Js.truthy licenseId then ObjectId env licenseId else None) with
    | None => (w, reply false "Invalid license ID.")
    | Some id =>
        catch
          (let* _ := connect env in
           let* license := findOne env (licenses w) id in
           match license with
           | None => ret (w, reply false "License not found.")
           | Some license =>
               match chain_revokeLicense env (License.tokenId license) with
               | TxSendThrew e => throw e
               | TxWaitThrew e => throw e
               | TxConfirmed =>
                   let* (ls, _) :=
                     updateOne env (licenses w) id
                       (fun l => License.set_reason (Some "Seller revoked")
                                   (License.set_status revoked l)) in
                   ret (with_licenses ls w,
                        reply true ("License " +:+ pretty (License.tokenId license) +:+
                                    " has been permanently revoked."))
               end
           end)
          (fun error =>
             (w, reply false ("Failed to revoke license: " +:+ Js.reason_or_message error)))
    end.

(** The update of [reactivateLicense]:
    [{ $set: { status: 'active' }, $unset: { reason, lastViolationDate } }] *)
Definition reactivated (l : License.t) : License.t :=
  License.set_lastViolationDate None
    (License.set_reason None (License.set_status active l)).

(** [reactivateLicense(licenseId)] *)
Definition reactivateLicense (env : Env) (w : World) (licenseId : string) : World * Result :=
  match (if Js.truthy licenseId then ObjectId env licenseId else None) with
  | None => (w, reply false "Invalid license ID.")
  | Some id =>
      catch
        (let* _ := connect env in
         let* license := findOne env (licenses w) id in
         match license with
         | None => ret (w, reply false "License not found.")
         | Some license =>
             if bool_decide (License.status license = revoked) then
               ret (w, reply false "Cannot reactivate a revoked (burned) license.")
             else
               let* (ls, _) := updateOne env (licenses w) id reactivated in
               ret (with_licenses ls w, reply true "License has been reactivated.")
         end)
        (fun error =>
           (w, reply false ("Failed to reactivate license: " +:+ Js.message error)))
  end.

(** ** The buyer's soft delete: [POST /api/license/delete-by-buyer] *)

(** The second field of the filter
    [{ _id, buyerAddress: walletAddress.toLowerCase() }]. *)
Definition filter_buyer (found : option License.t) (walletAddress : string)
    : option License.t :=
  match found with
  | Some l =>
      if String.eqb (License.buyerAddress l) (Js.toLowerCase walletAddress)
      then Some l else None
  | None => None
  end.

(** The reply and its HTTP status. *)
Definition POST_delete_by_buyer (env : Env) (w : World) (licenseId walletAddress : string)
    : World * (Result * nat) :=
  if negb (Js.truthy licenseId) || negb (Js.truthy walletAddress) then
    (w, (reply false "Missing licenseId or walletAddress", 400%nat))
  else
    match ObjectId env licenseId with
    | None => (w, (reply false "Invalid license ID format.", 400%nat))
    | Some id =>
        if negb (isAddress env walletAddress) then
          (w, (reply false "Invalid wallet address format.", 400%nat))
        else
          catch
            (let* _ := connect env in
             let* found := findOne env (licenses w) id in
             match filter_buyer found walletAddress with
             | None =>
                 ret (w, (reply false "License not found or you do not have permission to modify it.", 404%nat))
             | Some _ =>
                 let* (ls, modifiedCount) :=
                   updateOne env (licenses w) id (License.set_status deleted_by_user) in
                 if (0 <? modifiedCount)%nat
                 then ret (with_licenses ls w, (reply true "License has been removed.", 200%nat))
                 else ret (with_licenses ls w,
                           (reply false "Failed to update the license status.", 500%nat))
             end)
            (fun _ => (w, (reply false "An unexpected server error occurred.", 500%nat)))
    end.

(** ** Keccak-256

    [keccak256] is a built-in of Solidity and the hash of the address
    checksum of ethers: the sponge of FIPS 202 with the padding of the
    original Keccak submission, a rate of 1088 bits and 24 rounds on 25
    lanes of 64 bits. *)

Module Keccak.

Definition mask64 : N := 0xFFFFFFFFFFFFFFFF.

Definition rotl64 (x n : N) : N :=
  N.land (N.lor (N.shiftl x n) (N.shiftr x (64 - n))) mask64.

Definition round_constants : list N :=
  [ 0x0000000000000001; 0x0000000000008082; 0x800000000000808A; 0x8000000080008000;
    0x000000000000808B; 0x0000000080000001; 0x8000000080008081; 0x8000000000008009;
    0x000000000000008A; 0x0000000000000088; 0x0000000080008009; 0x000000008000000A;
    0x000000008000808B; 0x800000000000008B; 0x8000000000008089; 0x8000000000008003;
    0x8000000000008002; 0x8000000000000080; 0x000000000000800A; 0x800000008000000A;
    0x8000000080008081; 0x8000000000008080; 0x0000000080000001; 0x8000000080008008 ]%N.

(** The rotation of lane [(x, y)], at index [x + 5 * y]. *)
Definition rotation_offsets : list N :=
  [  0;  1; 62; 28; 27;
    36; 44;  6; 55; 20;
     3; 10; 43; 25; 39;
    41; 45; 15; 21;  8;
    18;  2; 61; 56; 14 ]%N.

Definition lane (A : list N) (x y : nat) : N :=
  nth (x mod 5 + 5 * (y mod 5)) A 0%N.

Definition theta (A : list N) : list N :=
  let C := map (fun x => fold_left N.lxor (map (lane A x) (seq 0 5)) 0%N) (seq 0 5) in
  let D := map (fun x => N.lxor (nth ((x + 4) mod 5) C 0%N)
                                (rotl64 (nth ((x + 1) mod 5) C 0%N) 1)) (seq 0 5) in
  map (fun i => N.lxor (nth i A 0%N) (nth (i mod 5) D 0%N)) (seq 0 25).

Definition rho_pi (A : list N) : list N :=
  map (fun j => let x := (j mod 5 + 3 * (j / 5)) mod 5 in
                let y := j mod 5 in
                rotl64 (lane A x y) (nth (x + 5 * y) rotation_offsets 0%N))
      (seq 0 25).

Definition chi (B : list N) : list N :=
  map (fun i => let x := i mod 5 in
                let y := i / 5 in
                N.lxor (lane B x y)
                       (N.land (N.lxor (lane B (x + 1) y) mask64) (lane B (x + 2) y)))
      (seq 0 25).

Definition iota (rc : N) (A : list N) : list N :=
  match A with
  | a :: r => N.lxor a rc :: r
  | [] => []
  end.

Definition keccak_f (A : list N) : list N :=
  fold_left (fun A rc => iota rc (chi (rho_pi (theta A)))) round_constants A.

(** [pad10*1] with the bit rate of 1088 bits (136 bytes). *)
Definition pad (msg : list N) : list N :=
  let k := (136 - length msg mod 136)%nat in
  if (k =? 1)%nat then msg ++ [0x81%N]
  else msg ++ [1%N] ++ repeat 0%N (k - 2) ++ [0x80%N].

Definition le64 (bytes : list N) : N :=
  fold_right (fun b acc => (b + 256 * acc)%N) 0%N bytes.

Fixpoint lanes_of (n : nat) (bytes : list N) : list N :=
  match n with
  | O => []
  | S n' => le64 (firstn 8 bytes) :: lanes_of n' (skipn 8 bytes)
  end.

Fixpoint absorb (blocks : nat) (bytes : list N) (A : list N) : list N :=
  match blocks with
  | O => A
  | S b =>
      let block := lanes_of 17 (firstn 136 bytes) in
      absorb b (skipn 136 bytes)
        (keccak_f (map (fun i => N.lxor (nth i A 0%N) (nth i block 0%N)) (seq 0 25)))
  end.

Definition squeeze (A : list N) : list N :=
  flat_map (fun l => map (fun k => N.land (N.shiftr l (8 * N.of_nat k)) 255) (seq 0 8))
           (firstn 4 A).

Definition keccak256_bytes (msg : list N) : list N :=
  let p := pad msg in
  squeeze (absorb (length p / 136) p (repeat 0%N 25)).

(** [keccak256(bytes(s))], the 32 bytes read as a [uint256]. *)
Definition keccak256 (s : string) : N :=
  fold_left (fun acc b => (256 * acc + b)%N)
            (keccak256_bytes (map N_of_ascii (list_ascii_of_string s))) 0%N.

End Keccak.

(** ** What the server imports from ethers *)

Module Ethers.

Definition is_digit (c : ascii) : bool :=
  let n := nat_of_ascii c in (48 <=? n)%nat && (n <=? 57)%nat.

Definition is_hex_lower (c : ascii) : bool :=
  let n := nat_of_ascii c in (97 <=? n)%nat && (n <=? 102)%nat.

Definition is_hex_upper (c : ascii) : bool :=
  let n := nat_of_ascii c in (65 <=? n)%nat && (n <=? 70)%nat.

Definition is_alnum (c : ascii) : bool :=
  let n := nat_of_ascii c in
  is_digit c || (65 <=? n)%nat && (n <=? 90)%nat || (97 <=? n)%nat && (n <=? 122)%nat.

(** [[0-9a-fA-F]{40}] *)
Definition hex40 (s : string) : bool :=
  (String.length s =? 40)%nat &&
  forallb (fun c => is_digit c || is_hex_lower c || is_hex_upper c) (list_ascii_of_string s).

(** Hexadecimal digit [i] of a [bytes32], counted from the most
    significant one. *)
Definition nibble (h : N) (i : nat) : N :=
  N.land (N.shiftr h (4 * (63 - N.of_nat i))) 15.

(** [getChecksumAddress(address)] for [0x] and 40 hexadecimal digits: a
    letter is a capital when the digit at its place in the hash of the
    lower-case digits is 8 or more (EIP-55). *)
Definition getChecksumAddress (address : string) : string :=
  let chars := Js.toLowerCase (String.substring 2 40 address) in
  let hashed := Keccak.keccak256 chars in
  "0x" +:+ string_of_list_ascii
             (imap (fun i c => if (8 <=? nibble hashed i)%N then Js.upper_ascii c else c)
                   (list_ascii_of_string chars)).

(** [/([A-F].*[a-f])|([a-f].*[A-F])/] *)
Definition mixed_case (address : string) : bool :=
  existsb is_hex_upper (list_ascii_of_string address)
  && existsb is_hex_lower (list_ascii_of_string address).

(** [ibanLookup]: the digits stand for themselves, the letters for 10 to 35. *)
Definition ibanLookup (c : ascii) : option N :=
  let n := N_of_ascii c in
  if is_digit c then Some (n - 48)%N
  else if (65 <=? n)%N && (n <=? 90)%N then Some (n - 55)%N
  else None.

(** [ibanChecksum(address)]: 98 less the remainder modulo 97 of the
    number spelled by the rearranged address, in two digits. *)
Definition ibanChecksum (address : string) : string :=
  let address := Js.toUpperCase address in
  let address := String.substring 4 (String.length address - 4) address
                 +:+ String.substring 0 2 address +:+ "00" in
  let expanded :=
    fold_left (fun acc c =>
                 match ibanLookup c with
                 | Some v => if (v <? 10)%N then ((10 * acc + v) mod 97)%N
                             else ((100 * acc + v) mod 97)%N
                 | None => acc
                 end)
              (list_ascii_of_string address) 0%N in
  let checksum := pretty (98 - expanded)%N in
  if (String.length checksum <? 2)%nat then "0" +:+ checksum else checksum.

(** [/^XE[0-9]{2}[0-9A-Za-z]{30,31}$/] *)
Definition icap_shape (s : string) : bool :=
  ((String.length s =? 34)%nat || (String.length s =? 35)%nat)
  && Js.startsWith s "XE"
  && forallb is_digit (list_ascii_of_string (String.substring 2 2 s))
  && forallb is_alnum (list_ascii_of_string (String.substring 4 (String.length s - 4) s)).

(** [isAddress(value)]: whether [getAddress(value)] returns. That is for
    40 hexadecimal digits, with or without [0x], whose letters are all
    small, all capital, or spelled with the checksum; and for an ICAP
    address with its checksum. *)
Definition isAddress (value : string) : bool :=
  let body := if Js.startsWith value "0x"
              then String.substring 2 (String.length value - 2) value
              else value in
  if hex40 body then
    let address := "0x" +:+ body in
    negb (mixed_case address) || String.eqb (getChecksumAddress address) address
  else if icap_shape value then
    String.eqb (String.substring 2 2 value) (ibanChecksum value)
  else false.

End Ethers.

(** ** A concrete deployment, for the examples *)

Module Sample.

Definition hex_digit (c : ascii) : option N :=
  let n := N_of_ascii c in
  if (48 <=? n)%N && (n <=? 57)%N then Some (n - 48)%N
  else if (97 <=? n)%N && (n <=? 102)%N then Some (n - 87)%N
  else if (65 <=? n)%N && (n <=? 70)%N then Some (n - 55)%N
  else None.

Fixpoint parse_hex (acc : N) (s : string) : option N :=
  match s with
  | EmptyString => Some acc
  | String c r =>
      match hex_digit c with
      | Some d => parse_hex (16 * acc + d)%N r
      | None => None
      end
  end.

(** An [ObjectId] given as 24 hexadecimal digits. *)
Definition ObjectId_of_hex (s : string) : option N :=
  if (String.length s =? 24)%nat then parse_hex 0%N s else None.

Definition buyer : string := "0x52908400098527886e0f7030069857d2e4169ee7".
Definition buyer_checksummed : string := "0x52908400098527886E0F7030069857D2E4169EE7".
Definition stranger : string := "0x8617e340b3d01fa5f11f306f4090fd50e238070d".

(** A configured server with a reachable store, in front of a node that
    answers [o] to the ownership read and [t] to the revocation. *)
Definition env_with (o : OwnerRead) (t : TxOutcome) : Env := {|
  AMOY_RPC_URL := true;
  SELLER_PRIVATE_KEY := true;
  EMAIL_SERVER := true;
  ObjectId := ObjectId_of_hex;
  isAddress := Ethers.isAddress;
  db_read_fault := None;
  db_write_fault := None;
  smtp_fault := None;
  chain_ownerOf := fun _ => o;
  chain_revokeLicense := fun _ => t;
  now := 1700000000000%Z
|}.

Definition env : Env := env_with (Holder buyer_checksummed) TxConfirmed.

(** The revert of [ownerOf] on a token without holder, as ethers reports
    it: the contract reverts with the custom error
    [ERC721NonexistentToken(uint256)], which has no reason string. *)
Definition nonexistent : Js.Error :=
  Js.mkError None "execution reverted (unknown custom error)".

(** The revert that [getDecryptionKey] looks for: the reason string of
    [ownerOf] in OpenZeppelin Contracts 4, which the contract of the
    repository cannot be built on (it overrides [_update]). *)
Definition invalid_token_id : Js.Error :=
  Js.mkError (Some "ERC721: invalid token ID")
    "execution reverted: ERC721: invalid token ID".

Definition unreachable : Js.Error := Js.mkError None "could not detect network".

Definition licenseId : string := "64b7f0c2a1d3e4f5a6b7c8d9".
Definition license_oid : N := Eval vm_compute in default 0%N (ObjectId_of_hex licenseId).
Definition software_oid : N := 7.
Definition seller_oid : N := 3.

Definition editor : Software.t := {|
  Software.sellerId := seller_oid;
  Software.title := "Editor";
  Software.licensingRules := {| ipLock := true; fingerprintLock := true |};
  Software.decryptionKey := "k3y";
  Software.fileUrl := "https://ipfs.io/ipfs/Qm"
|}.

Definition license (st : Status) (dev : string) : License.t := {|
  License.softwareId := software_oid;
  License.softwareTitle := "Editor";
  License.buyerAddress := buyer;
  License.tokenId := 0;
  License.transactionHash := "0xfeed";
  License.mintDate := 1690000000000%Z;
  License.buyerIp := "203.0.113.7";
  License.deviceId := dev;
  License.status := st;
  License.reason := None;
  License.lastViolationDate := None
|}.

Definition world (st : Status) (dev : string) : World := {|
  licenses := {[ license_oid := license st dev ]};
  software := {[ software_oid := editor ]};
  users := {[ seller_oid := {| User.username := "seller"; User.email := "seller@example.org" |} ]};
  outbox := []
|}.

End Sample.

(** ** The token contract [SoftwareLicense.sol] *)

Module Ledger.

(** An [address]; [address(0)] is [0]. *)
Abbreviation address := N.

Inductive result (A : Type) : Type :=
| Ok (a : A)
| Revert (error : string).
Arguments Ok {A} a.
Arguments Revert {A} error.

Definition bind {A B} (m : result A) (k : A -> result B) : result B :=
  match m with
  | Ok a => k a
  | Revert e => Revert e
  end.

Notation "'do' x '<-' m ';' k" := (bind m (fun x => k))
  (at level 10, x pattern, m at level 100, k at level 200).

Definition require (b : bool) (error : string) : result unit :=
  if b then Ok tt else Revert error.

Inductive Event :=
| Transfer (from to : address) (tokenId : N)
| LicenseBlockedStatusChanged (tokenId : N) (isBlocked : bool)
| LicenseValidated (tokenId : N) (owner : address) (ipAddress : string) (isValid : bool).

(** The storage of the contract: the state variables it declares, those of
    the OpenZeppelin bases it inherits (ERC721, ERC721URIStorage, Ownable),
    and the event log. *)
Record State := mkState {
  _owners : gmap N N;
  _balances : gmap N N;
  _tokenApprovals : gmap N N;
  _operatorApprovals : gmap (N * N) bool;
  _tokenURIs : gmap N string;
  _owner : address;
  _nextTokenId : N;
  _licenseIpLock : gmap N string;
  _isLicenseBlocked : gmap N bool;
  log : list Event
}.

Definition uint256_max : N := 2 ^ 256 - 1.

(** *** The inherited ERC721 and Ownable functions

    OpenZeppelin Contracts is imported by the contract and is not part of
    the repository; this is its version 5 ([_update] is the single place
    where [_owners] is written), with [_exists] as in version 4. *)

Definition _ownerOf (st : State) (tokenId : N) : address :=
  default 0%N (_owners st !! tokenId).

Definition _exists (st : State) (tokenId : N) : bool :=
  negb (_ownerOf st tokenId =? 0)%N.

(** [ownerOf] reverts on a token without holder. *)
Definition ownerOf (st : State) (tokenId : N) : result address :=
  if (_ownerOf st tokenId =? 0)%N then Revert "ERC721NonexistentToken"
  else Ok (_ownerOf st tokenId).

Definition _isAuthorized (st : State) (owner spender : address) (tokenId : N) : bool :=
  negb (spender =? 0)%N &&
  ((owner =? spender)%N
   || default false (_operatorApprovals st !! (owner, spender))
   || (default 0%N (_tokenApprovals st !! tokenId) =? spender)%N).

Definition _checkAuthorized (st : State) (owner spender : address) (tokenId : N)
    : result unit :=
  if _isAuthorized st owner spender tokenId then Ok tt
  else if (owner =? 0)%N then Revert "ERC721NonexistentToken"
  else Revert "ERC721InsufficientApproval".

(** [ERC721._update], reached as [super._update]. *)
Definition ERC721_update (st : State) (to : address) (tokenId : N) (auth : address)
    : result (State * address) :=
  let from := _ownerOf st tokenId in
  do _ <- (if (auth =? 0)%N then Ok tt else _checkAuthorized st from auth tokenId);
  let approvals := if (from =? 0)%N then _tokenApprovals st
                   else delete tokenId (_tokenApprovals st) in
  let balances1 := if (from =? 0)%N then _balances st
                   else <[from := (default 0 (_balances st !! from) - 1)%N]> (_balances st) in
  let balances2 := if (to =? 0)%N then balances1
                   else <[to := (default 0 (balances1 !! to) + 1)%N]> balances1 in
  Ok (mkState (<[tokenId := to]> (_owners st)) balances2 approvals
        (_operatorApprovals st) (_tokenURIs st) (_owner st) (_nextTokenId st)
        (_licenseIpLock st) (_isLicenseBlocked st)
        (log st ++ [Transfer from to tokenId]),
      from).

Definition onlyOwner (sender : address) (st : State) : result unit :=
  require (sender =? _owner st)%N "OwnableUnauthorizedAccount".

Definition _setTokenURI (st : State) (tokenId : N) (uri : string) : State :=
  mkState (_owners st) (_balances st) (_tokenApprovals st) (_operatorApprovals st)
    (<[tokenId := uri]> (_tokenURIs st)) (_owner st) (_nextTokenId st)
    (_licenseIpLock st) (_isLicenseBlocked st) (log st).

Definition set_nextTokenId (n : N) (st : State) : State :=
  mkState (_owners st) (_balances st) (_tokenApprovals st) (_operatorApprovals st)
    (_tokenURIs st) (_owner st) n (_licenseIpLock st) (_isLicenseBlocked st) (log st).

Definition set_licenseIpLock (tokenId : N) (ip : string) (st : State) : State :=
  mkState (_owners st) (_balances st) (_tokenApprovals st) (_operatorApprovals st)
    (_tokenURIs st) (_owner st) (_nextTokenId st)
    (<[tokenId := ip]> (_licenseIpLock st)) (_isLicenseBlocked st) (log st).

Definition set_isLicenseBlocked (tokenId : N) (b : bool) (st : State) : State :=
  mkState (_owners st) (_balances st) (_tokenApprovals st) (_operatorApprovals st)
    (_tokenURIs st) (_owner st) (_nextTokenId st)
    (_licenseIpLock st) (<[tokenId := b]> (_isLicenseBlocked st))
    (log st ++ [LicenseBlockedStatusChanged tokenId b]).

Definition getLicenseIpLock (st : State) (tokenId : N) : string :=
  default "" (_licenseIpLock st !! tokenId).

Definition isLicenseBlocked (st : State) (tokenId : N) : bool :=
  default false (_isLicenseBlocked st !! tokenId).

(** What [ERC721Utils.checkOnERC721Received] finds at the receiver of a
    mint: an account without code, or a contract whose [onERC721Received]
    returns four bytes or reverts with some reason data (none: [""]). The
    hook is taken not to call back into this contract. *)
Inductive Receiver :=
| NoCode
| Returned (retval : N)
| Reverted (reason : string).

(** [IERC721Receiver.onERC721Received.selector] *)
Definition onERC721Received_selector : N := 0x150b7a02.

Definition checkOnERC721Received (receiver : Receiver) : result unit :=
  match receiver with
  | NoCode => Ok tt
  | Returned retval =>
      require (retval =? onERC721Received_selector)%N "ERC721InvalidReceiver"
  | Reverted reason =>
      if (String.length reason =? 0)%nat then Revert "ERC721InvalidReceiver"
      else Revert reason
  end.

(** The functions of ERC721 that call the virtual [_update]; the contract's
    override is the one they reach. *)
Section Virtual.
Variable _update : State -> address -> N -> address -> result (State * address).

Definition _mint (st : State) (to : address) (tokenId : N) : result State :=
  do _ <- require (negb (to =? 0)%N) "ERC721InvalidReceiver";
  do (st', previousOwner) <- _update st to tokenId 0%N;
  do _ <- require (previousOwner =? 0)%N "ERC721InvalidSender";
  Ok st'.

Definition _burn (st : State) (tokenId : N) : result State :=
  do (st', previousOwner) <- _update st 0%N tokenId 0%N;
  do _ <- require (negb (previousOwner =? 0)%N) "ERC721NonexistentToken";
  Ok st'.

Definition transferFrom (sender : address) (st : State) (from to : address) (tokenId : N)
    : result State :=
  do _ <- require (negb (to =? 0)%N) "ERC721InvalidReceiver";
  do (st', previousOwner) <- _update st to tokenId sender;
  do _ <- require (previousOwner =? from)%N "ERC721IncorrectOwner";
  Ok st'.

(** [_safeMint(to, tokenId)]: [_mint], then the check of the receiver. *)
Definition _safeMint (receiver : Receiver) (st : State) (to : address) (tokenId : N)
    : result State :=
  do st' <- _mint st to tokenId;
  do _ <- checkOnERC721Received receiver;
  Ok st'.

(** [mintLicense]; [receiver] is what the buyer's account answers to the
    check of [_safeMint] in this transaction. *)
Definition mintLicense (receiver : Receiver) (sender : address) (st : State)
    (buyer : address) (tokenURI_ ipAddress : string) : result (State * N) :=
  do _ <- onlyOwner sender st;
  let tokenId := _nextTokenId st in
  do _ <- require (tokenId <? uint256_max)%N "Panic(0x11)";
  let st := set_nextTokenId (tokenId + 1) st in
  do st <- _safeMint receiver st buyer tokenId;
  let st := _setTokenURI st tokenId tokenURI_ in
  let st := if (0 <? String.length ipAddress)%nat
            then set_licenseIpLock tokenId ipAddress st else st in
  Ok (st, tokenId).

Definition revokeLicense (sender : address) (st : State) (tokenId : N) : result State :=
  do _ <- onlyOwner sender st;
  do _ <- require (_exists st tokenId) "ERC721: token nonexistent";
  _burn st tokenId.

Definition blockLicense (sender : address) (st : State) (tokenId : N) (isBlocked : bool)
    : result State :=
  do _ <- onlyOwner sender st;
  Ok (set_isLicenseBlocked tokenId isBlocked st).

(** A transaction sent to the contract; a mint comes with the answer of
    the buyer's account to the receiver check. *)
Inductive Call :=
| CallMintLicense (buyer : address) (tokenURI_ ipAddress : string) (receiver : Receiver)
| CallRevokeLicense (tokenId : N)
| CallBlockLicense (tokenId : N) (isBlocked : bool)
| CallTransferFrom (from to : address) (tokenId : N).

Definition exec (sender : address) (st : State) (c : Call) : result State :=
  match c with
  | CallMintLicense buyer uri ip receiver =>
      do (st', _) <- mintLicense receiver sender st buyer uri ip; Ok st'
  | CallRevokeLicense tokenId => revokeLicense sender st tokenId
  | CallBlockLicense tokenId b => blockLicense sender st tokenId b
  | CallTransferFrom from to tokenId => transferFrom sender st from to tokenId
  end.
End Virtual.

(** *** [contracts/SoftwareLicense.sol] *)

Definition _update (st : State) (to : address) (tokenId : N) (auth : address)
    : result (State * address) :=
  let from := _ownerOf st tokenId in
  do _ <- (if negb (from =? 0)%N
           then require (to =? 0)%N "Tokens are non-transferable and can only be burned."
           else Ok tt);
  ERC721_update st to tokenId auth.

(** *** [workspace/my-smart-contract/contracts/SoftwareLicense.sol]

    The guard reads the holder with the public [ownerOf]. *)
Definition _update_ws (st : State) (to : address) (tokenId : N) (auth : address)
    : result (State * address) :=
  do holder <- ownerOf st tokenId;
  do _ <- (if negb (holder =? 0)%N
           then require (to =? 0)%N "SFTL: This license token is non-transferable."
           else Ok tt);
  ERC721_update st to tokenId auth.

Section Keccak.
(** [keccak256], as a function into some type of digests. *)
Context {Digest : Type} `{EqDecision Digest}.
Variable keccak256 : string -> Digest.

(** [validateLicense] of [contracts/SoftwareLicense.sol] *)
Definition validateLicense (st : State) (tokenId : N) (ipAddress : string)
    : result bool :=
  do _ <- require (_exists st tokenId) "License does not exist.";
  if isLicenseBlocked st tokenId then Ok false
  else
    let ipLock := getLicenseIpLock st tokenId in
    if (0 <? String.length ipLock)%nat
       && negb (bool_decide (keccak256 ipLock = keccak256 ipAddress))
    then Ok false
    else Ok true.

(** [validateLicense] of the workspace copy, with the event it emits. *)
Definition validateLicense_ws (st : State) (tokenId : N) (ipAddress : string)
    : result (bool * Event) :=
  do _ <- require (_exists st tokenId) "ERC721: token nonexistent";
  do owner <- ownerOf st tokenId;
  if isLicenseBlocked st tokenId
  then Ok (false, LicenseValidated tokenId owner ipAddress false)
  else
    let lockedIp := getLicenseIpLock st tokenId in
    if (0 <? String.length lockedIp)%nat
       && negb (bool_decide (keccak256 lockedIp = keccak256 ipAddress))
    then Ok (false, LicenseValidated tokenId owner ipAddress false)
    else Ok (true, LicenseValidated tokenId owner ipAddress true).
End Keccak.

(** What the specification asks of [validate], read on the storage: false
    for a token whose blocked flag is set; otherwise, with a non-empty lock
    stored, whether the locality is that very string; otherwise true. *)
Definition validate_spec (st : State) (tokenId : N) (locality : string) : bool :=
  match _isLicenseBlocked st !! tokenId with
  | Some true => false
  | _ =>
      match _licenseIpLock st !! tokenId with
      | None | Some EmptyString => true
      | Some lock => String.eqb lock locality
      end
  end.

(** An override of [_update] that lets a minted token go to the zero
    address only, and otherwise does what [ERC721._update] does. *)
Definition guarded (upd : State -> address -> N -> address -> result (State * address)) : Prop :=
  forall st to tokenId auth st' prev,
    upd st to tokenId auth = Ok (st', prev) ->
    (_ownerOf st tokenId = 0%N \/ to = 0%N) /\
    ERC721_update st to tokenId auth = Ok (st', prev).

(** A deployment for the examples: the marketplace backend (account 1)
    owns the contract; token 0 is held by account 42 and locked to
    203.0.113.7; token 1 is held by account 43, without lock, and blocked. *)
Definition sample : State := {|
  _owners := {[ 0%N := 42%N; 1%N := 43%N ]};
  _balances := {[ 42%N := 1%N; 43%N := 1%N ]};
  _tokenApprovals := ∅;
  _operatorApprovals := ∅;
  _tokenURIs := {[ 0%N := "ipfs://a"; 1%N := "ipfs://b" ]};
  _owner := 1%N;
  _nextTokenId := 2%N;
  _licenseIpLock := {[ 0%N := "203.0.113.7" ]};
  _isLicenseBlocked := {[ 1%N := true ]};
  log := []
|}.

(** The constructor: [Ownable(initialOwner)] rejects the zero address; the
    storage starts empty. *)
Definition deploy (initialOwner : address) : result State :=
  do _ <- require (negb (initialOwner =? 0)%N) "OwnableInvalidOwner";
  Ok (mkState ∅ ∅ ∅ ∅ ∅ initialOwner 0%N ∅ ∅ []).

(** A transaction from [tx.1]; one that reverts leaves the storage as it
    was. *)
Definition apply_tx (upd : State -> address -> N -> address -> result (State * address))
    (st : State) (tx : address * Call) : State :=
  match exec upd tx.1 st tx.2 with
  | Ok st' => st'
  | Revert _ => st
  end.

Definition apply_txs (upd : State -> address -> N -> address -> result (State * address))
    (st : State) (txs : list (address * Call)) : State :=
  fold_left (apply_tx upd) txs st.

(** The shape of the storage between transactions: an identifier not yet
    given out has no holder and no lock; a token without holder has no
    approved spender; the zero address has no operator. *)
Definition consistent (st : State) : Prop :=
  (forall t, (_nextTokenId st <= t)%N ->
             _ownerOf st t = 0%N /\ getLicenseIpLock st t = "") /\
  (forall t, _ownerOf st t = 0%N -> default 0%N (_tokenApprovals st !! t) = 0%N) /\
  (forall x, default false (_operatorApprovals st !! (0%N, x)) = false).

(** The sample after two more transactions of the owner: token 0 is
    burned, and token 2 is minted to account 44 (an account without code)
    with no lock. *)
Definition sample_later : State :=
  apply_txs _update sample
    [ (1%N, CallRevokeLicense 0%N);
      (1%N, CallMintLicense 44%N "ipfs://c" "" NoCode) ].

End Ledger.

(** ** The node between the server and the contract *)

Module Node.

Definition hex_char (d : N) : ascii :=
  if (d <? 10)%N then ascii_of_N (48 + d) else ascii_of_N (87 + d).

Fixpoint hex_digits (n : nat) (a : N) (acc : string) : string :=
  match n with
  | O => acc
  | S n' => hex_digits n' (a / 16)%N (String (hex_char (a mod 16)%N) acc)
  end.

(** An address as ethers returns it: [0x] and 40 digits with the checksum. *)
Definition address_string (a : Ledger.address) : string :=
  Ethers.getChecksumAddress ("0x" +:+ hex_digits 40 a "").

(** [await contract.ownerOf(tokenId)] in front of the contract in state
    [st]. The one revert of [ownerOf] is the custom error
    [ERC721NonexistentToken], for a token without holder. *)
Definition ownerOf (st : Ledger.State) (tokenId : N) : OwnerRead :=
  match Ledger.ownerOf st tokenId with
  | Ledger.Ok holder => Holder (address_string holder)
  | Ledger.Revert _ => OwnerThrew Sample.nonexistent
  end.

(** [contract.revokeLicense(tokenId)], signed with the key of the owner of
    the contract: a transaction that would revert is refused when it is
    sent, with the message of the [require] that fails. *)
Definition revokeLicense (st : Ledger.State) (tokenId : N) : TxOutcome :=
  match Ledger.revokeLicense Ledger._update (Ledger._owner st) st tokenId with
  | Ledger.Ok _ => TxConfirmed
  | Ledger.Revert error =>
      TxSendThrew (Js.mkError (Some error)
                     ("execution reverted: " +:+ Js.dquote +:+ error +:+ Js.dquote))
  end.

(** The contract of the examples: deployed by account 1, which mints token
    0 to the buyer of the sample license, and later revokes it. *)
Definition buyer_account : Ledger.address := 0x52908400098527886E0F7030069857D2E4169EE7.

Definition deployed : Ledger.State :=
  Ledger.mkState ∅ ∅ ∅ ∅ ∅ 1%N 0%N ∅ ∅ [].

Definition minted : Ledger.State :=
  Ledger.apply_txs Ledger._update deployed
    [ (1%N, Ledger.CallMintLicense buyer_account "ipfs://a" "203.0.113.7" Ledger.NoCode) ].

Definition burned : Ledger.State :=
  Ledger.apply_txs Ledger._update minted [ (1%N, Ledger.CallRevokeLicense 0%N) ].

(** The sample server in front of the contract in state [st]. *)
Definition env (st : Ledger.State) : Env := {|
  AMOY_RPC_URL := true;
  SELLER_PRIVATE_KEY := true;
  EMAIL_SERVER := true;
  ObjectId := Sample.ObjectId_of_hex;
  isAddress := Ethers.isAddress;
  db_read_fault := None;
  db_write_fault := None;
  smtp_fault := None;
  chain_ownerOf := ownerOf st;
  chain_revokeLicense := revokeLicense st;
  now := 1700000000000%Z
|}.

End Node.

(** ** Sequences of calls on the registry *)

Inductive Call :=
| GetDecryptionKey (licenseId deviceId walletAddress : string)
| BindDeviceToLicense (licenseId deviceId : string)
| RevokeLicense (licenseId : string)
| ReactivateLicense (licenseId : string)
| DeleteByBuyer (licenseId walletAddress : string).

Definition exec (env : Env) (w : World) (c : Call) : World * Result :=
  match c with
  | GetDecryptionKey l d a => getDecryptionKey env w l d a
  | BindDeviceToLicense l d => bindDeviceToLicense env w l d
  | RevokeLicense l => revokeLicense env w l
  | ReactivateLicense l => reactivateLicense env w l
  | DeleteByBuyer l a =>
      let '(w', (r, _)) := POST_delete_by_buyer env w l a in (w', r)
  end.

(** The calls of a trace, each in the environment it runs in, with the
    reply to each. *)
Fixpoint run (w : World) (trace : list (Env * Call)) : World * list (Env * Call * Result) :=
  match trace with
  | [] => (w, [])
  | (env, c) :: rest =>
      let '(w1, r) := exec env w c in
      let '(w2, replies) := run w1 rest in
      (w2, (env, c, r) :: replies)
  end.

(** The operations of the key release gate, the device binding guard and
    the revocation/reactivation manager. *)
Definition gate_or_manager (c : Call) : bool :=
  match c with
  | DeleteByBuyer _ _ => false
  | _ => true
  end.

(** The license document a call is about. *)
Definition target (env : Env) (c : Call) : option N :=
  match c with
  | GetDecryptionKey l _ _ | BindDeviceToLicense l _ | RevokeLicense l
  | ReactivateLicense l | DeleteByBuyer l _ => ObjectId env l
  end.

Definition releases_or_reactivates (c : Call) : bool :=
  match c with
  | GetDecryptionKey _ _ _ | ReactivateLicense _ => true
  | _ => false
  end.

Definition status_at (w : World) (id : N) : option Status :=
  License.status <$> licenses w !! id.

(** A request that gets as far as the ownership read: well-formed
    arguments, a configured and reachable server, an [active] license and
    its software record. *)
Record reaches_ledger (env : Env) (w : World) (licenseId deviceId walletAddress : string)
    (id : N) (l : License.t) (sw : Software.t) : Prop := {
  rl_licenseId : licenseId <> "";
  rl_deviceId : deviceId <> "";
  rl_walletAddress : walletAddress <> "";
  rl_rpc : AMOY_RPC_URL env = true;
  rl_db : db_read_fault env = None;
  rl_id : ObjectId env licenseId = Some id;
  rl_license : licenses w !! id = Some l;
  rl_active : License.status l = active;
  rl_software : software w !! License.softwareId l = Some sw
}.

(** The same store with other localities: license [id] recorded from
    [ip id], and software [id] with [ipLock] set to [lock id]. *)
Definition relocate (ip : N -> string) (lock : N -> bool) (w : World) : World :=
  mkWorld (map_imap (fun id l => Some (License.set_buyerIp (ip id) l)) (licenses w))
          (map_imap (fun id s => Some (Software.set_ipLock (lock id) s)) (software w))
          (users w) (outbox w).

(** The messages of the denials of [getDecryptionKey]. *)
Definition denial_messages : list string :=
  [ "License ID, Device ID, and Wallet Address are required.";
    "The server is not configured to communicate with the blockchain.";
    "Invalid license ID format.";
    "License not found in the database.";
    "License is not active. Current status: revoked. Contact the seller for assistance.";
    "License is not active. Current status: blocked. Contact the seller for assistance.";
    "License is not active. Current status: deleted_by_user. Contact the seller for assistance.";
    "Could not find the associated software.";
    "Smart contract check failed: The connected wallet is not the owner of this license NFT.";
    "This license has been revoked and no longer exists on the blockchain.";
    "Could not verify license ownership on the blockchain.";
    "Device mismatch. This license is not bound to this device.";
    "Could not find the software's decryption key or file URL.";
    "An unexpected server error occurred." ].

(** ** Other server actions of [src/lib/auth.ts] *)

(** [interface LicenseData]; [tokenId] is [None] when it is [undefined]. *)
Module LicenseData.
Record t := mk {
  softwareId : string;
  buyerAddress : string;
  tokenId : option N;
  transactionHash : string;
  buyerIp : string
}.
End LicenseData.

(** [new ObjectId(s)] throws on a string that is not an identifier. *)
Definition new_ObjectId (env : Env) (s : string) : Try N :=
  match ObjectId env s with
  | Some id => ret id
  | None => throw (Js.mkError None "input must be a 24 character hex string")
  end.

(** [db.collection(c).insertOne(doc)]; [_id] is the identifier the driver
    gives the document, and one that is in the collection already is a
    duplicate key error. *)
Definition insertOne {A} (env : Env) (c : gmap N A) (_id : N) (doc : A) : Try (gmap N A) :=
  match db_write_fault env with
  | Some e => throw e
  | None =>
      match c !! _id with
      | Some _ => throw (Js.mkError None "E11000 duplicate key error")
      | None => ret (<[_id := doc]> c)
      end
  end.

(** [recordLicensePurchase(licenseData)] *)
Definition recordLicensePurchase (env : Env) (w : World) (_id : N)
    (licenseData : LicenseData.t) : World * Result :=
  if negb (Js.truthy (LicenseData.softwareId licenseData))
     || negb (Js.truthy (LicenseData.buyerAddress licenseData))
     || negb (bool_decide (is_Some (LicenseData.tokenId licenseData)))
     || negb (Js.truthy (LicenseData.transactionHash licenseData))
  then (w, reply false "Missing required license data.")
  else
    catch
      (let* _ := connect env in
       let* sid := new_ObjectId env (LicenseData.softwareId licenseData) in
       let* sw := findOne env (software w) sid in
       match sw with
       | None => ret (w, reply false "The purchased software does not exist.")
       | Some sw =>
           let newLicense :=
             License.mk sid (Software.title sw)
               (Js.toLowerCase (LicenseData.buyerAddress licenseData))
               (default 0%N (LicenseData.tokenId licenseData))
               (LicenseData.transactionHash licenseData)
               (now env)
               (LicenseData.buyerIp licenseData)
               ""
               active
               None None in
           let* ls := insertOne env (licenses w) _id newLicense in
           ret (with_licenses ls w, reply true "License purchase recorded successfully.")
       end)
      (fun _ => (w, reply false "An unexpected server error occurred while recording the purchase.")).

(** [.sort({ mintDate: -1 })] *)
Definition newest_first (a b : N * License.t) : Prop :=
  (License.mintDate b.2 <= License.mintDate a.2)%Z.

#[global] Instance newest_first_dec a b : Decision (newest_first a b).
Proof. unfold newest_first. apply _. Defined.

(** [db.collection('licenses').find(filter).sort({ mintDate: -1 }).toArray()];
    the documents with their identifiers. Documents of the same date come
    in an order the store chooses (here, that of the merge sort). *)
Definition find_licenses (env : Env) (w : World) (matches : License.t -> Prop)
    `{forall l, Decision (matches l)} : Try (list (N * License.t)) :=
  match db_read_fault env with
  | Some e => throw e
  | None =>
      ret (merge_sort newest_first
             (filter (fun p => matches p.2) (map_to_list (licenses w))))
  end.

(** [getLicensesForBuyer(buyerAddress)] *)
Definition getLicensesForBuyer (env : Env) (w : World) (buyerAddress : string)
    : list (N * License.t) :=
  if negb (Js.truthy buyerAddress) then []
  else
    catch
      (let* _ := connect env in
       find_licenses env w
         (fun l => License.buyerAddress l = Js.toLowerCase buyerAddress))
      (fun _ => []).

(** [getLicensesForSoftware(softwareId)] *)
Definition getLicensesForSoftware (env : Env) (w : World) (softwareId : string)
    : list (N * License.t) :=
  match (if Js.truthy softwareId then ObjectId env softwareId else None) with
  | None => []
  | Some sid =>
      catch
        (let* _ := connect env in
         find_licenses env w (fun l => License.softwareId l = sid))
        (fun _ => [])
  end.

(** [getSoftwareFileUrl(softwareId)] *)
Definition getSoftwareFileUrl (env : Env) (w : World) (softwareId : string) : Result :=
  match (if Js.truthy softwareId then ObjectId env softwareId else None) with
  | None => reply false "Invalid software ID."
  | Some sid =>
      catch
        (let* _ := connect env in
         let* sw := findOne env (software w) sid in
         match sw with
         | None => ret (reply false "Could not find the software file URL.")
         | Some sw =>
             if negb (Js.truthy (Software.fileUrl sw))
             then ret (reply false "Could not find the software file URL.")
             else ret (mkResult true "URL retrieved." None (Some (Software.fileUrl sw)))
         end)
        (fun _ => reply false "An unexpected server error occurred.")
  end.

(** [deleteMany(filter)] on a collection. (The writes of one call see the
    same [db_write_fault]: a store that fails between two writes of a call
    is not among the environments.) *)
Definition deleteMany {A} (env : Env) (c : gmap N A) (matches : A -> Prop)
    `{forall a, Decision (matches a)} : Try (gmap N A) :=
  match db_write_fault env with
  | Some e => throw e
  | None => ret (filter (fun p => ~ matches p.2) c)
  end.

(** [deleteOne({ _id })]: the collection and [deletedCount]. *)
Definition deleteOne {A} (env : Env) (c : gmap N A) (id : N) : Try (gmap N A * nat) :=
  match db_write_fault env with
  | Some e => throw e
  | None =>
      match c !! id with
      | Some _ => ret (delete id c, 1%nat)
      | None => ret (c, 0%nat)
      end
  end.

(** [deleteSoftware(softwareId)] *)
Definition deleteSoftware (env : Env) (w : World) (softwareId : string) : World * Result :=
  match (if Js.truthy softwareId then ObjectId env softwareId else None) with
  | None => (w, reply false "Invalid software ID.")
  | Some sId =>
      catch
        (let* _ := connect env in
         let* softwareExists := findOne env (software w) sId in
         match softwareExists with
         | None => ret (w, reply false "Software not found.")
         | Some _ =>
             let* ls := deleteMany env (licenses w) (fun l => License.softwareId l = sId) in
             let* (ss, deletedCount) := deleteOne env (software w) sId in
             if (deletedCount =? 0)%nat
             then ret (mkWorld ls ss (users w) (outbox w),
                       reply false "Failed to delete the software.")
             else ret (mkWorld ls ss (users w) (outbox w),
                       reply true "Software and all associated licenses have been deleted.")
         end)
        (fun _ => (w, reply false "An unexpected server error occurred while deleting the software."))
  end.

(** [db.collection('users').findOne({ username })]: one of the documents
    with that user name ([createUser] keeps user names unique). *)
Definition findOne_username (env : Env) (c : gmap N User.t) (username : string)
    : Try (option (N * User.t)) :=
  match db_read_fault env with
  | Some e => throw e
  | None => ret (head (filter (fun p => User.username p.2 = username) (map_to_list c)))
  end.

(** [deleteUserAccount(username)] *)
Definition deleteUserAccount (env : Env) (w : World) (username : string) : World * Result :=
  if negb (Js.truthy username) then (w, reply false "Username is required.")
  else
    catch
      (let* _ := connect env in
       let* user := findOne_username env (users w) username in
       match user with
       | None => ret (w, reply false "User not found.")
       | Some (uid, _) =>
           let* ss := deleteMany env (software w) (fun s => Software.sellerId s = uid) in
           let* (us, deletedCount) := deleteOne env (users w) uid in
           if (0 <? deletedCount)%nat
           then ret (mkWorld (licenses w) ss us (outbox w),
                     reply true "Account and all associated data deleted successfully.")
           else ret (mkWorld (licenses w) ss us (outbox w),
                     reply false "Failed to delete the user account.")
       end)
      (fun _ => (w, reply false "An unexpected server error occurred during account deletion.")).

(** ** The routes in front of the server actions *)

(** [POST /api/license/get-key]: the reply and its HTTP status. *)
Definition POST_get_key (env : Env) (w : World)
    (licenseId deviceId walletAddress : string) : World * (Result * nat) :=
  if negb (Js.truthy licenseId) || negb (Js.truthy deviceId) || negb (Js.truthy walletAddress)
  then (w, (reply false "Missing required parameters.", 400%nat))
  else
    let '(w', result) := getDecryptionKey env w licenseId deviceId walletAddress in
    if success result then (w', (result, 200%nat))
    else if Js.includes (message result) "blocked"
            || Js.includes (message result) "revoked"
            || Js.includes (message result) "owner"
            || Js.includes (message result) "Wallet address"
    then (w', (result, 403%nat))
    else (w', (result, 500%nat)).

(** [POST /api/license/revoke] *)
Definition POST_revoke (env : Env) (w : World) (licenseId : string)
    : World * (Result * nat) :=
  if negb (Js.truthy licenseId) then (w, (reply false "Missing licenseId", 400%nat))
  else
    let '(w', result) := revokeLicense env w licenseId in
    if success result then (w', (result, 200%nat)) else (w', (result, 500%nat)).

(** [POST /api/license/bind-device] *)
Definition POST_bind_device (env : Env) (w : World) (licenseId deviceId : string)
    : World * (Result * nat) :=
  if negb (Js.truthy licenseId) || negb (Js.truthy deviceId)
  then (w, (reply false "Missing licenseId or deviceId", 400%nat))
  else
    let '(w', result) := bindDeviceToLicense env w licenseId deviceId in
    if success result then (w', (result, 200%nat))
    else if Js.includes (message result) "already bound" then (w', (result, 409%nat))
    else (w', (result, 500%nat)).

(** What no operation on the registry may change in a license: the
    software, the buyer, the token, the purchase record, and the device
    once one is bound. *)
Definition same_identity (l l' : License.t) : Prop :=
  License.softwareId l' = License.softwareId l /\
  License.softwareTitle l' = License.softwareTitle l /\
  License.buyerAddress l' = License.buyerAddress l /\
  License.tokenId l' = License.tokenId l /\
  License.transactionHash l' = License.transactionHash l /\
  License.mintDate l' = License.mintDate l /\
  License.buyerIp l' = License.buyerIp l /\
  (License.deviceId l <> "" -> License.deviceId l' = License.deviceId l).

(** The denials of [getDecryptionKey] that the get-key route answers with
    status 403. *)
Definition forbidden_messages : list string :=
  [ "License is not active. Current status: revoked. Contact the seller for assistance.";
    "License is not active. Current status: blocked. Contact the seller for assistance.";
    "Smart contract check failed: The connected wallet is not the owner of this license NFT.";
    "This license has been revoked and no longer exists on the blockchain.";
    "Could not verify license ownership on the blockchain." ].

(** A purchase, for the examples: token 1 of the sample software, bought
    from the address in mixed case. *)
Module Purchase.
Definition data : LicenseData.t := {|
  LicenseData.softwareId := "000000000000000000000007";
  LicenseData.buyerAddress := Sample.buyer_checksummed;
  LicenseData.tokenId := Some 1%N;
  LicenseData.transactionHash := "0xbeef";
  LicenseData.buyerIp := ""
|}.
Definition oid : N := 99.
End Purchase.

(** * Properties *)

(** ** Strings *)

Lemma truthy_true s : Js.truthy s = true <-> s <> "".
Proof.
  unfold Js.truthy. rewrite negb_true_iff.
  split; intros H.
  - intros ->. discriminate.
  - apply String.eqb_neq. exact H.
Qed.

Lemma truthy_false s : Js.truthy s = false <-> s = "".
Proof.
  unfold Js.truthy. rewrite negb_false_iff. apply String.eqb_eq.
Qed.

Lemma existsb_letters a b :
  existsb (fun p => Ascii.eqb p.1 a && Ascii.eqb p.2 b) letters = true <-> In (a, b) letters.
Proof.
  rewrite existsb_exists. split.
  - intros ([u l] & Hin & H). simpl in H.
    apply andb_true_iff in H as [Hu Hl].
    apply Ascii.eqb_eq in Hu, Hl. subst. exact Hin.
  - intros Hin. exists (a, b). simpl. rewrite !Ascii.eqb_refl. auto.
Qed.

Lemma same_letterb_spec a b : same_letterb a b = true <-> same_letter a b.
Proof.
  unfold same_letterb, same_letter.
  rewrite !orb_true_iff, !existsb_letters, Ascii.eqb_eq. tauto.
Qed.

Lemma In_all_ascii a : In a all_ascii.
Proof.
  unfold all_ascii. rewrite <- (ascii_nat_embedding a).
  apply in_map, in_seq. pose proof (nat_ascii_bounded a). lia.
Qed.

Lemma lower_ascii_table :
  forallb (fun a =>
             forallb (fun b =>
                        Bool.eqb (Ascii.eqb (Js.lower_ascii a) (Js.lower_ascii b))
                                 (same_letterb a b))
                     all_ascii)
          all_ascii = true.
Proof. vm_compute. reflexivity. Qed.

(** The lower-casing of the code folds exactly the case of the letters. *)
Lemma lower_ascii_same_letter a b :
  Js.lower_ascii a = Js.lower_ascii b <-> same_letter a b.
Proof.
  pose proof lower_ascii_table as H.
  rewrite forallb_forall in H. specialize (H a (In_all_ascii a)).
  rewrite forallb_forall in H. specialize (H b (In_all_ascii b)).
  apply Bool.eqb_prop in H.
  rewrite <- same_letterb_spec, <- H. symmetry. apply Ascii.eqb_eq.
Qed.

Lemma toLowerCase_eq_ignore_case a b :
  Js.toLowerCase a = Js.toLowerCase b <-> eq_ignore_case a b.
Proof.
  split.
  - revert b. induction a as [|c a IH]; intros [|d b] H; simpl in H;
      try discriminate; [constructor|].
    injection H as Hc Hr. constructor; [apply lower_ascii_same_letter|]; auto.
  - induction 1 as [|c d s t Hc _ IH]; simpl; [reflexivity|].
    apply lower_ascii_same_letter in Hc. rewrite Hc, IH. reflexivity.
Qed.

(** ** Addresses *)

(** [isAddress] on the test vectors of EIP-55 and on an ICAP address: the
    checksummed spelling, the spellings in one case, with or without the
    prefix, and the ICAP form are addresses; a wrong capital, a wrong ICAP
    checksum and a short string are not. *)
Example isAddress_vectors :
  map Ethers.isAddress
    [ "0x5aAeb6053F3E94C9b9A09f33669435E7Ef1BeAed";
      "0x5aaeb6053f3e94c9b9a09f33669435e7ef1beaed";
      "0x5AAEB6053F3E94C9B9A09F33669435E7EF1BEAED";
      "5aAeb6053F3E94C9b9A09f33669435E7Ef1BeAed";
      "XE65GB6LDNXYOFTX0NSV3FUWKOWIXAMJK36";
      Sample.buyer; Sample.buyer_checksummed; Sample.stranger;
      "0x5AAeb6053F3E94C9b9A09f33669435E7Ef1BeAed";
      "XE66GB6LDNXYOFTX0NSV3FUWKOWIXAMJK36";
      "0x5aAeb6053F3E94C9b9A09f33669435E7Ef1BeAe";
      "" ]
  = [ true; true; true; true; true; true; true; true; false; false; false; false ].
Proof. vm_compute. reflexivity. Qed.

Example address_string_42 :
  Node.address_string 42%N = "0x000000000000000000000000000000000000002A".
Proof. vm_compute. reflexivity. Qed.

(** ** The store *)

Lemma updateOne_lookup env c id f c' n :
  updateOne env c id f = inr (c', n) ->
  db_write_fault env = None /\ c' = alter f id c.
Proof.
  unfold updateOne. intros H.
  destruct (db_write_fault env); [discriminate|]. split; [reflexivity|].
  destruct (c !! id) as [l|] eqn:Hl.
  - destruct (decide (f l = l)) as [Hf|Hf]; injection H as <- <-.
    + apply map_eq. intros j. destruct (decide (id = j)) as [<-|Hne].
      * rewrite lookup_alter_eq, Hl. simpl. congruence.
      * rewrite lookup_alter_ne by done. reflexivity.
    + apply map_eq. intros j. destruct (decide (id = j)) as [<-|Hne].
      * rewrite lookup_alter_eq, lookup_insert_eq, Hl. reflexivity.
      * rewrite lookup_alter_ne, lookup_insert_ne by done. reflexivity.
  - injection H as <- <-.
    apply map_eq. intros j. destruct (decide (id = j)) as [<-|Hne].
    + rewrite lookup_alter_eq, Hl. reflexivity.
    + rewrite lookup_alter_ne by done. reflexivity.
Qed.

Lemma updateOne_available env c id f :
  db_write_fault env = None ->
  exists n, updateOne env c id f = inr (alter f id c, n).
Proof.
  intros Hw. destruct (updateOne env c id f) as [e|[c' n]] eqn:H.
  - unfold updateOne in H. rewrite Hw in H. repeat case_match; discriminate.
  - apply updateOne_lookup in H as [_ ->]. eauto.
Qed.

Lemma updateOne_fault env c id f e :
  db_write_fault env = Some e -> updateOne env c id f = inl e.
Proof. unfold updateOne. intros ->. reflexivity. Qed.

(** ** The key release gate *)

(** What [getDecryptionKey] does with the answer of the ownership read. *)
Lemma getDecryptionKey_at_ledger env w lid d a id l sw :
  reaches_ledger env w lid d a id l sw ->
  getDecryptionKey env w lid d a =
  match chain_ownerOf env (License.tokenId l) with
  | Holder h =>
      if String.eqb (Js.toLowerCase h) (Js.toLowerCase a)
      then (w, device_lock_and_key sw l d)
      else (w, not_owner_reply)
  | OwnerThrew e =>
      if is_invalid_token_error e then
        match db_write_fault env with
        | None =>
            (with_licenses (alter (mark_burned env) id (licenses w)) w,
             reply false "This license has been revoked and no longer exists on the blockchain.")
        | Some _ => (w, reply false "An unexpected server error occurred.")
        end
      else (w, reply false "Could not verify license ownership on the blockchain.")
  end.
Proof.
  intros [Hl Hd Ha Hrpc Hdb Hid Hlic Hact Hsw].
  apply truthy_true in Hl, Hd, Ha.
  unfold getDecryptionKey. rewrite Hl, Hd, Ha, Hrpc. simpl.
  unfold connect, findOne. rewrite Hdb, Hid. simpl.
  rewrite Hlic, Hact. simpl. rewrite Hsw.
  destruct (chain_ownerOf env (License.tokenId l)) as [h|e].
  - destruct (String.eqb _ _); reflexivity.
  - destruct (is_invalid_token_error e); [|reflexivity].
    destruct (db_write_fault env) as [f|] eqn:Hw.
    + rewrite (updateOne_fault _ _ _ _ f Hw). reflexivity.
    + destruct (updateOne_available env (licenses w) id (mark_burned env) Hw) as [n ->].
      reflexivity.
Qed.

Example includes_reason :
  Js.includes "execution reverted: ERC721: invalid token ID" "invalid token ID" = true
  /\ Js.includes "could not detect network" "invalid token ID" = false.
Proof. split; reflexivity. Qed.

Example toLowerCase_address :
  Js.toLowerCase Sample.buyer_checksummed = Sample.buyer.
Proof. reflexivity. Qed.

(** The holder is reported in mixed case and the request carries the
    lower-case address: the key is released. *)
Example release_to_holder :
  getDecryptionKey Sample.env (Sample.world active "dev1") Sample.licenseId "dev1" Sample.buyer
  = (Sample.world active "dev1",
     mkResult true "Key retrieved successfully." (Some "k3y") (Some "https://ipfs.io/ipfs/Qm")).
Proof. vm_compute. reflexivity. Qed.

Example release_unbound :
  success (getDecryptionKey Sample.env (Sample.world active "") Sample.licenseId "dev9" Sample.buyer).2
  = true.
Proof. vm_compute. reflexivity. Qed.

Example deny_stranger :
  getDecryptionKey Sample.env (Sample.world active "dev1") Sample.licenseId "dev1" Sample.stranger
  = (Sample.world active "dev1", not_owner_reply).
Proof. vm_compute. reflexivity. Qed.

Example deny_blocked :
  getDecryptionKey Sample.env (Sample.world blocked "dev1") Sample.licenseId "dev1" Sample.buyer
  = (Sample.world blocked "dev1",
     reply false "License is not active. Current status: blocked. Contact the seller for assistance.").
Proof. vm_compute. reflexivity. Qed.

Example deny_unreachable :
  getDecryptionKey (Sample.env_with (OwnerThrew Sample.unreachable) TxConfirmed)
    (Sample.world active "dev1") Sample.licenseId "dev1" Sample.buyer
  = (Sample.world active "dev1",
     reply false "Could not verify license ownership on the blockchain.").
Proof. vm_compute. reflexivity. Qed.

Lemma device_lock_and_key_mismatch sw l d :
  fingerprintLock (Software.licensingRules sw) = true ->
  License.deviceId l <> "" ->
  License.deviceId l <> d ->
  device_lock_and_key sw l d
  = reply false "Device mismatch. This license is not bound to this device.".
Proof.
  intros Hf Hne Hd. unfold device_lock_and_key.
  apply truthy_true in Hne. apply String.eqb_neq in Hd.
  rewrite Hf, Hne, Hd. reflexivity.
Qed.

(** A device mismatch is answered with the denial alone: the store, the
    license's status and reason included, and the outbox stay as they
    were. *)
Lemma getDecryptionKey_device_mismatch env w lid d a id l sw h :
  reaches_ledger env w lid d a id l sw ->
  chain_ownerOf env (License.tokenId l) = Holder h ->
  eq_ignore_case h a ->
  fingerprintLock (Software.licensingRules sw) = true ->
  License.deviceId l <> "" ->
  License.deviceId l <> d ->
  getDecryptionKey env w lid d a
  = (w, reply false "Device mismatch. This license is not bound to this device.").
Proof.
  intros Hr Hh Heq Hf Hne Hd.
  rewrite (getDecryptionKey_at_ledger _ _ _ _ _ _ _ _ Hr), Hh.
  apply toLowerCase_eq_ignore_case in Heq. rewrite Heq, String.eqb_refl.
  rewrite device_lock_and_key_mismatch by assumption. reflexivity.
Qed.

(** C1: on a license of device-locked software whose stored [deviceId]
    ("dev1") differs from the supplied one ("dev2"), [getDecryptionKey]
    denies the request, and that is all it does: afterwards the license is
    still [active], no reason is recorded, and no mail has been handed to
    the transport ([sendViolationEmail] is not called). *)
Theorem getDecryptionKey_mismatch_keeps_active :
  let '(w', r) :=
    getDecryptionKey Sample.env (Sample.world active "dev1")
      Sample.licenseId "dev2" Sample.buyer in
  fingerprintLock (Software.licensingRules Sample.editor) = true /\
  r = reply false "Device mismatch. This license is not bound to this device." /\
  status_at w' Sample.license_oid = Some active /\
  License.reason <$> licenses w' !! Sample.license_oid = Some None /\
  outbox w' = [].
Proof. vm_compute. repeat split; reflexivity. Qed.

Lemma device_lock_and_key_not_owner sw l d : device_lock_and_key sw l d <> not_owner_reply.
Proof.
  unfold device_lock_and_key, not_owner_reply, reply.
  repeat case_match; discriminate.
Qed.

(** C8: when the holder reported by the ledger is not equal to the
    requester's wallet address up to letter case, [getDecryptionKey]
    denies with the not-the-owner reply, which carries no key, and leaves
    the store alone; when it is equal up to letter case, the ownership
    check passes and the reply is that of the device lock and key stage. *)
Theorem getDecryptionKey_ownership env w lid d a id l sw h :
  reaches_ledger env w lid d a id l sw ->
  chain_ownerOf env (License.tokenId l) = Holder h ->
  (~ eq_ignore_case h a ->
   getDecryptionKey env w lid d a = (w, not_owner_reply)
   /\ success not_owner_reply = false
   /\ key not_owner_reply = None /\ fileUrl not_owner_reply = None)
  /\
  (eq_ignore_case h a ->
   getDecryptionKey env w lid d a = (w, device_lock_and_key sw l d)
   /\ device_lock_and_key sw l d <> not_owner_reply).
Proof.
  intros Hr Hh.
  rewrite (getDecryptionKey_at_ledger _ _ _ _ _ _ _ _ Hr), Hh.
  split; intros Heq.
  - destruct (String.eqb _ _) eqn:E.
    + apply String.eqb_eq, toLowerCase_eq_ignore_case in E. contradiction.
    + repeat split; reflexivity.
  - apply toLowerCase_eq_ignore_case in Heq. rewrite Heq, String.eqb_refl.
    split; [reflexivity | apply device_lock_and_key_not_owner].
Qed.

Lemma sample_reaches_ledger st dev d a :
  st = active -> d <> "" -> a <> "" ->
  reaches_ledger Sample.env (Sample.world st dev) Sample.licenseId d a
    Sample.license_oid (Sample.license st dev) Sample.editor.
Proof.
  intros -> Hd Ha. constructor; try assumption; try reflexivity; discriminate.
Qed.

Lemma getDecryptionKey_ownership_witness :
  (getDecryptionKey Sample.env (Sample.world active "dev1") Sample.licenseId "dev1" Sample.stranger
   = (Sample.world active "dev1", not_owner_reply)
   /\ success not_owner_reply = false
   /\ key not_owner_reply = None /\ fileUrl not_owner_reply = None)
  /\
  (getDecryptionKey Sample.env (Sample.world active "dev1") Sample.licenseId "dev1" Sample.buyer
   = (Sample.world active "dev1",
      device_lock_and_key Sample.editor (Sample.license active "dev1") "dev1")
   /\ device_lock_and_key Sample.editor (Sample.license active "dev1") "dev1" <> not_owner_reply).
Proof.
  split.
  - apply (getDecryptionKey_ownership Sample.env (Sample.world active "dev1")
             Sample.licenseId "dev1" Sample.stranger Sample.license_oid
             (Sample.license active "dev1") Sample.editor Sample.buyer_checksummed).
    + apply sample_reaches_ledger; [reflexivity | discriminate | discriminate].
    + reflexivity.
    + intros H. apply toLowerCase_eq_ignore_case in H. discriminate H.
  - apply (getDecryptionKey_ownership Sample.env (Sample.world active "dev1")
             Sample.licenseId "dev1" Sample.buyer Sample.license_oid
             (Sample.license active "dev1") Sample.editor Sample.buyer_checksummed).
    + apply sample_reaches_ledger; [reflexivity | discriminate | discriminate].
    + reflexivity.
    + apply toLowerCase_eq_ignore_case. reflexivity.
Defined.

(** What [getDecryptionKey] does when the ownership read throws an error
    whose reason contains "invalid token ID": it denies, returns no key,
    and marks the license [revoked], with the reason and the date. *)
Lemma getDecryptionKey_invalid_token_id env w lid d a id l sw e :
  reaches_ledger env w lid d a id l sw ->
  chain_ownerOf env (License.tokenId l) = OwnerThrew e ->
  is_invalid_token_error e = true ->
  db_write_fault env = None ->
  let '(w', r) := getDecryptionKey env w lid d a in
  success r = false /\ key r = None /\
  status_at w id = Some active /\
  status_at w' id = Some revoked /\
  licenses w' !! id = Some (mark_burned env l).
Proof.
  intros Hr He Hinv Hw.
  rewrite (getDecryptionKey_at_ledger _ _ _ _ _ _ _ _ Hr), He, Hinv, Hw.
  destruct Hr as [_ _ _ _ _ _ Hlic Hact _].
  unfold status_at. simpl. rewrite lookup_alter_eq, Hlic. simpl.
  rewrite Hact. repeat split; reflexivity.
Qed.

Example revoked_on_invalid_token_id :
  status_at
    (getDecryptionKey (Sample.env_with (OwnerThrew Sample.invalid_token_id) TxConfirmed)
       (Sample.world active "dev1") Sample.licenseId "dev1" Sample.buyer).1
    Sample.license_oid = Some revoked.
Proof. vm_compute. reflexivity. Qed.

(** The error of the contract of the repository is not the one the code
    looks for, whether ethers gives it no reason (the ABI does not declare
    the error) or its signature as the reason (the ABI declares it). *)
Example custom_error_not_recognised :
  is_invalid_token_error Sample.nonexistent = false /\
  is_invalid_token_error
    (Js.mkError (Some "ERC721NonexistentToken(uint256)")
       "execution reverted: ERC721NonexistentToken(uint256)") = false /\
  is_invalid_token_error Sample.invalid_token_id = true.
Proof. vm_compute. repeat split; reflexivity. Qed.

(** The read of the holder of a token that has none, through the node. *)
Lemma Node_ownerOf_burned st tokenId :
  Ledger._ownerOf st tokenId = 0%N ->
  Node.ownerOf st tokenId = OwnerThrew Sample.nonexistent.
Proof.
  intros H. unfold Node.ownerOf, Ledger.ownerOf. rewrite H. reflexivity.
Qed.

(** C4: when the registry says [active] and the token has no holder on the
    contract of the repository (it was burned), the ownership read throws
    the contract's [ERC721NonexistentToken], which is not the error
    [getDecryptionKey] looks for: the request is denied as a failed
    verification, nothing is written, and the registry record is still
    [active] afterwards. *)
Theorem getDecryptionKey_burned_token_stays_active env w lid d a id l sw st :
  reaches_ledger env w lid d a id l sw ->
  Ledger._ownerOf st (License.tokenId l) = 0%N ->
  chain_ownerOf env (License.tokenId l) = Node.ownerOf st (License.tokenId l) ->
  getDecryptionKey env w lid d a
  = (w, reply false "Could not verify license ownership on the blockchain.") /\
  status_at (getDecryptionKey env w lid d a).1 id = Some active.
Proof.
  intros Hr Hz Hread.
  rewrite (getDecryptionKey_at_ledger _ _ _ _ _ _ _ _ Hr), Hread.
  rewrite (Node_ownerOf_burned _ _ Hz). simpl.
  split; [reflexivity|].
  destruct Hr as [_ _ _ _ _ _ Hlic Hact _].
  unfold status_at. rewrite Hlic. simpl. rewrite Hact. reflexivity.
Qed.

(** The contract of the examples: the buyer holds token 0 and gets the
    key; then the owner of the contract burns the token, and the gate in
    front of the burned token leaves the license [active]. *)
Lemma getDecryptionKey_burned_token_stays_active_witness :
  getDecryptionKey (Node.env Node.burned) (Sample.world active "dev1")
    Sample.licenseId "dev1" Sample.buyer
  = (Sample.world active "dev1",
     reply false "Could not verify license ownership on the blockchain.") /\
  status_at
    (getDecryptionKey (Node.env Node.burned) (Sample.world active "dev1")
       Sample.licenseId "dev1" Sample.buyer).1
    Sample.license_oid = Some active.
Proof.
  apply (getDecryptionKey_burned_token_stays_active (Node.env Node.burned)
           (Sample.world active "dev1") Sample.licenseId "dev1" Sample.buyer
           Sample.license_oid (Sample.license active "dev1") Sample.editor
           Node.burned).
  - constructor; try reflexivity; discriminate.
  - vm_compute. reflexivity.
  - reflexivity.
Defined.

Example contract_of_the_examples :
  Ledger.deploy 1%N = Ledger.Ok Node.deployed /\
  Node.ownerOf Node.minted 0%N = Holder Sample.buyer_checksummed /\
  Ledger.revokeLicense Ledger._update 1%N Node.minted 0%N = Ledger.Ok Node.burned /\
  Ledger._ownerOf Node.burned 0%N = 0%N /\
  Node.ownerOf Node.burned 0%N = OwnerThrew Sample.nonexistent.
Proof. vm_compute. repeat split; reflexivity. Qed.

Example release_before_burn :
  getDecryptionKey (Node.env Node.minted) (Sample.world active "dev1")
    Sample.licenseId "dev1" Sample.buyer
  = (Sample.world active "dev1",
     mkResult true "Key retrieved successfully." (Some "k3y") (Some "https://ipfs.io/ipfs/Qm")).
Proof. vm_compute. reflexivity. Qed.

(** ** The device binding guard *)

(** C3: on a license of device-locked software, [bindDeviceToLicense]
    stores the supplied device id when none is stored, changing nothing
    else, and succeeds; succeeds without a change when the stored id is the
    supplied one; and when another id is stored it fails with the
    already-bound reply and leaves the stored id (and all the store) as it
    was. *)
Theorem bindDeviceToLicense_first_use env w lid d id l sw :
  lid <> "" -> d <> "" ->
  db_read_fault env = None ->
  ObjectId env lid = Some id ->
  licenses w !! id = Some l ->
  software w !! License.softwareId l = Some sw ->
  fingerprintLock (Software.licensingRules sw) = true ->
  (License.deviceId l = "" -> db_write_fault env = None ->
   success (bindDeviceToLicense env w lid d).2 = true /\
   (exists l',
      licenses (bindDeviceToLicense env w lid d).1 !! id = Some l' /\
      License.deviceId l' = d /\
      l' = License.mk (License.softwareId l) (License.softwareTitle l)
             (License.buyerAddress l) (License.tokenId l) (License.transactionHash l)
             (License.mintDate l) (License.buyerIp l) d
             (License.status l) (License.reason l) (License.lastViolationDate l)) /\
   (forall j, j <> id ->
      licenses (bindDeviceToLicense env w lid d).1 !! j = licenses w !! j) /\
   software (bindDeviceToLicense env w lid d).1 = software w /\
   users (bindDeviceToLicense env w lid d).1 = users w /\
   outbox (bindDeviceToLicense env w lid d).1 = outbox w)
  /\
  (License.deviceId l = d ->
   success (bindDeviceToLicense env w lid d).2 = true /\
   (bindDeviceToLicense env w lid d).1 = w)
  /\
  (License.deviceId l <> "" -> License.deviceId l <> d ->
   (bindDeviceToLicense env w lid d).2
   = reply false "This license is already bound to another device." /\
   (bindDeviceToLicense env w lid d).1 = w /\
   License.deviceId <$> licenses (bindDeviceToLicense env w lid d).1 !! id
   = Some (License.deviceId l)).
Proof.
  intros Hl Hd Hdb Hid Hlic Hsw Hf.
  pose proof Hd as Hd'.
  apply truthy_true in Hl, Hd.
  unfold bindDeviceToLicense. rewrite Hl, Hd. simpl.
  unfold connect, findOne. rewrite Hdb, Hid. simpl.
  rewrite Hlic, Hsw. simpl. rewrite Hf. simpl.
  destruct (Js.truthy (License.deviceId l)) eqn:Ht.
  - apply truthy_true in Ht. simpl.
    destruct (String.eqb (License.deviceId l) d) eqn:E; simpl.
    + apply String.eqb_eq in E.
      split; [intros; contradiction|]. split; [auto|]. intros _ Hne. contradiction.
    + apply String.eqb_neq in E.
      split; [intros; contradiction|]. split; [intros; contradiction|].
      intros _ _. rewrite Hlic. auto.
  - apply truthy_false in Ht. simpl.
    unfold updateOne. rewrite Hlic.
    destruct (db_write_fault env) as [f|]; simpl.
    + split; [intros _ Hw; discriminate|]. split; [congruence|].
      intros Hne. contradiction.
    + destruct (decide (License.set_deviceId d l = l)) as [Heq|Hne]; simpl.
      * apply (f_equal License.deviceId) in Heq. simpl in Heq. congruence.
      * split; [|split; [congruence|intros Hne'; contradiction]].
        intros _ _. split; [reflexivity|]. split.
        { eexists. rewrite lookup_insert_eq. split; [reflexivity|].
          split; reflexivity. }
        split; [|auto].
        intros j Hj. rewrite lookup_insert_ne by congruence. reflexivity.
Qed.

Lemma bindDeviceToLicense_first_use_witness :
  (success (bindDeviceToLicense Sample.env (Sample.world active "")
              Sample.licenseId "dev1").2 = true /\
   licenses (bindDeviceToLicense Sample.env (Sample.world active "")
               Sample.licenseId "dev1").1 !! Sample.license_oid
   = Some (Sample.license active "dev1"))
  /\
  (success (bindDeviceToLicense Sample.env (Sample.world active "dev1")
              Sample.licenseId "dev1").2 = true /\
   (bindDeviceToLicense Sample.env (Sample.world active "dev1")
      Sample.licenseId "dev1").1 = Sample.world active "dev1")
  /\
  ((bindDeviceToLicense Sample.env (Sample.world active "dev1")
      Sample.licenseId "dev2").2
   = reply false "This license is already bound to another device." /\
   (bindDeviceToLicense Sample.env (Sample.world active "dev1")
      Sample.licenseId "dev2").1 = Sample.world active "dev1").
Proof.
  split; [|split].
  - destruct (bindDeviceToLicense_first_use Sample.env (Sample.world active "")
                Sample.licenseId "dev1" Sample.license_oid
                (Sample.license active "") Sample.editor)
      as [H _]; try first [ discriminate | reflexivity ].
    destruct H as (Hs & (l' & Hl' & _ & ->) & _); [reflexivity | reflexivity |].
    split; [exact Hs | exact Hl'].
  - destruct (bindDeviceToLicense_first_use Sample.env (Sample.world active "dev1")
                Sample.licenseId "dev1" Sample.license_oid
                (Sample.license active "dev1") Sample.editor)
      as (_ & H & _); try first [ discriminate | reflexivity ].
    apply H. reflexivity.
  - destruct (bindDeviceToLicense_first_use Sample.env (Sample.world active "dev1")
                Sample.licenseId "dev2" Sample.license_oid
                (Sample.license active "dev1") Sample.editor)
      as (_ & _ & H); try first [ discriminate | reflexivity ].
    destruct H as (Hr & Hw & _); [discriminate | discriminate |].
    split; [exact Hr | exact Hw].
Defined.

Example bind_first : (bindDeviceToLicense Sample.env (Sample.world active "") Sample.licenseId "dev1")
  = (Sample.world active "dev1", reply true "Device successfully bound to license.").
Proof. vm_compute. reflexivity. Qed.

Example bind_again : (bindDeviceToLicense Sample.env (Sample.world active "dev1") Sample.licenseId "dev1")
  = (Sample.world active "dev1", reply true "Device is already correctly bound.").
Proof. vm_compute. reflexivity. Qed.

Example bind_other : (bindDeviceToLicense Sample.env (Sample.world active "dev1") Sample.licenseId "dev2")
  = (Sample.world active "dev1", reply false "This license is already bound to another device.").
Proof. vm_compute. reflexivity. Qed.

(** ** Revocation and reactivation *)

Lemma valid_id env lid id :
  (if Js.truthy lid then ObjectId env lid else None) = Some id ->
  lid <> "" /\ ObjectId env lid = Some id.
Proof.
  destruct (Js.truthy lid) eqn:Ht; [|discriminate].
  apply truthy_true in Ht. auto.
Qed.

(** C6: [revokeLicense] changes the store only after the ledger has
    confirmed the revocation, and then only by marking that license
    [revoked]; whenever the ledger call or the wait for its confirmation
    throws, and also when the write to the store fails after a confirmed
    revocation, the reply is a failure and the store is as it was. *)
Theorem revokeLicense_after_ledger env w lid :
  let '(w', r) := revokeLicense env w lid in
  (success r = true \/ w' <> w ->
   exists id l,
     ObjectId env lid = Some id /\ licenses w !! id = Some l /\
     chain_revokeLicense env (License.tokenId l) = TxConfirmed /\
     success r = true /\
     w' = with_licenses
            (alter (fun l => License.set_reason (Some "Seller revoked")
                               (License.set_status revoked l)) id (licenses w)) w)
  /\
  (forall id l,
     ObjectId env lid = Some id -> licenses w !! id = Some l ->
     chain_revokeLicense env (License.tokenId l) <> TxConfirmed ->
     success r = false /\ w' = w)
  /\
  (db_write_fault env <> None -> success r = false /\ w' = w).
Proof.
  unfold revokeLicense.
  destruct (negb (SELLER_PRIVATE_KEY env) || negb (AMOY_RPC_URL env)).
  { split; [intros [?|?]; [discriminate|contradiction]|]. split; auto. }
  destruct (if Js.truthy lid then ObjectId env lid else None) as [id|] eqn:Hid.
  2:{ split; [intros [?|?]; [discriminate|contradiction]|]. split; auto. }
  apply valid_id in Hid as [_ Hid]. rewrite Hid.
  unfold connect, findOne.
  destruct (db_read_fault env) as [f|]; simpl.
  { split; [intros [?|?]; [discriminate|contradiction]|]. split; auto. }
  destruct (licenses w !! id) as [l|] eqn:Hlic; simpl.
  2:{ split; [intros [?|?]; [discriminate|contradiction]|]. split; auto. }
  destruct (chain_revokeLicense env (License.tokenId l)) as [|e|e] eqn:Htx; simpl.
  - destruct (db_write_fault env) as [f|] eqn:Hw.
    + rewrite (updateOne_fault _ _ _ _ f Hw). simpl.
      split; [intros [?|?]; [discriminate|contradiction]|].
      split; [|auto].
      intros id' l' [= <-] Hl'. rewrite Hlic in Hl'. injection Hl' as <-. contradiction.
    + destruct (updateOne_available env (licenses w) id
                  (fun l => License.set_reason (Some "Seller revoked")
                              (License.set_status revoked l)) Hw) as [n ->].
      simpl. split; [|split].
      * intros _. exists id, l. auto.
      * intros id' l' [= <-] Hl'. rewrite Hlic in Hl'. injection Hl' as <-. contradiction.
      * intros H. contradiction.
  - split; [intros [?|?]; [discriminate|contradiction]|]. split; auto.
  - split; [intros [?|?]; [discriminate|contradiction]|]. split; auto.
Qed.

Example revoke_confirmed :
  let '(w', r) := revokeLicense Sample.env (Sample.world blocked "dev1") Sample.licenseId in
  r = reply true "License 0 has been permanently revoked." /\
  status_at w' Sample.license_oid = Some revoked.
Proof. vm_compute. split; reflexivity. Qed.

Example revoke_reverted :
  revokeLicense (Sample.env_with (Holder Sample.buyer) (TxWaitThrew Sample.unreachable))
    (Sample.world blocked "dev1") Sample.licenseId
  = (Sample.world blocked "dev1",
     reply false "Failed to revoke license: could not detect network").
Proof. vm_compute. reflexivity. Qed.

Lemma reactivated_status l : License.status (reactivated l) = active.
Proof. reflexivity. Qed.



Example reactivate_blocked :
  reactivateLicense Sample.env (Sample.world blocked "dev1") Sample.licenseId
  = (Sample.world active "dev1", reply true "License has been reactivated.").
Proof. vm_compute. reflexivity. Qed.

Example reactivate_revoked :
  reactivateLicense Sample.env (Sample.world revoked "dev1") Sample.licenseId
  = (Sample.world revoked "dev1", reply false "Cannot reactivate a revoked (burned) license.").
Proof. vm_compute. reflexivity. Qed.

(** ** What each operation does to the store *)

Lemma getDecryptionKey_effect env w lid d a :
  let '(w', r) := getDecryptionKey env w lid d a in
  (w' = w /\
   (success r = true ->
    exists id l, ObjectId env lid = Some id /\ licenses w !! id = Some l /\
                 License.status l = active))
  \/
  (success r = false /\
   exists id l, ObjectId env lid = Some id /\ licenses w !! id = Some l /\
                License.status l = active /\
                w' = with_licenses (alter (mark_burned env) id (licenses w)) w).
Proof.
  unfold getDecryptionKey.
  destruct (negb (Js.truthy lid) || negb (Js.truthy d) || negb (Js.truthy a));
    [left; split; [reflexivity|discriminate]|].
  destruct (negb (AMOY_RPC_URL env)); [left; split; [reflexivity|discriminate]|].
  unfold connect, findOne.
  destruct (db_read_fault env); simpl; [left; split; [reflexivity|discriminate]|].
  destruct (ObjectId env lid) as [id|]; simpl; [|left; split; [reflexivity|discriminate]].
  destruct (licenses w !! id) as [l|] eqn:Hlic; simpl;
    [|left; split; [reflexivity|discriminate]].
  destruct (bool_decide (License.status l = active)) eqn:Hact; simpl;
    [|left; split; [reflexivity|discriminate]].
  apply bool_decide_eq_true in Hact.
  destruct (software w !! License.softwareId l) as [sw|]; simpl;
    [|left; split; [reflexivity|discriminate]].
  destruct (chain_ownerOf env (License.tokenId l)) as [h|e].
  - destruct (negb (String.eqb _ _)); simpl;
      (left; split; [reflexivity|]); [discriminate|eauto].
  - destruct (is_invalid_token_error e); simpl;
      [|left; split; [reflexivity|discriminate]].
    destruct (db_write_fault env) as [f|] eqn:Hw.
    + rewrite (updateOne_fault _ _ _ _ f Hw). simpl.
      left; split; [reflexivity|discriminate].
    + destruct (updateOne_available env (licenses w) id (mark_burned env) Hw) as [n ->].
      simpl. right. split; [reflexivity|]. exists id, l. auto.
Qed.

Lemma bindDeviceToLicense_effect env w lid d :
  let '(w', r) := bindDeviceToLicense env w lid d in
  w' = w \/
  exists id, ObjectId env lid = Some id /\
             w' = with_licenses (alter (License.set_deviceId d) id (licenses w)) w.
Proof.
  unfold bindDeviceToLicense.
  destruct (negb (Js.truthy lid) || negb (Js.truthy d)); [left; reflexivity|].
  unfold connect, findOne.
  destruct (db_read_fault env); simpl; [left; reflexivity|].
  destruct (ObjectId env lid) as [id|]; simpl; [|left; reflexivity].
  destruct (licenses w !! id) as [l|] eqn:Hlic; simpl; [|left; reflexivity].
  destruct (negb _); simpl; [left; reflexivity|].
  destruct (Js.truthy (License.deviceId l) && _); simpl; [left; reflexivity|].
  destruct (negb (Js.truthy (License.deviceId l))); simpl; [|left; reflexivity].
  destruct (db_write_fault env) as [f|] eqn:Hw.
  - rewrite (updateOne_fault _ _ _ _ f Hw). simpl. left; reflexivity.
  - destruct (updateOne_available env (licenses w) id (License.set_deviceId d) Hw) as [n ->].
    simpl. destruct (0 <? n)%nat; right; exists id; auto.
Qed.

Lemma revokeLicense_effect env w lid :
  let '(w', r) := revokeLicense env w lid in
  w' = w \/
  exists id, w' = with_licenses
                    (alter (fun l => License.set_reason (Some "Seller revoked")
                                       (License.set_status revoked l)) id (licenses w)) w.
Proof.
  unfold revokeLicense.
  destruct (negb (SELLER_PRIVATE_KEY env) || negb (AMOY_RPC_URL env)); [left; reflexivity|].
  destruct (if Js.truthy lid then ObjectId env lid else None) as [id|]; [|left; reflexivity].
  unfold connect, findOne.
  destruct (db_read_fault env); simpl; [left; reflexivity|].
  destruct (licenses w !! id) as [l|]; simpl; [|left; reflexivity].
  destruct (chain_revokeLicense env (License.tokenId l)); simpl; try (left; reflexivity).
  destruct (db_write_fault env) as [f|] eqn:Hw.
  - rewrite (updateOne_fault _ _ _ _ f Hw). simpl. left; reflexivity.
  - destruct (updateOne_available env (licenses w) id
                (fun l => License.set_reason (Some "Seller revoked")
                            (License.set_status revoked l)) Hw) as [n ->].
    simpl. right. exists id. reflexivity.
Qed.

Lemma reactivateLicense_effect env w lid :
  let '(w', r) := reactivateLicense env w lid in
  (w' = w /\ success r = false)
  \/
  exists id l, ObjectId env lid = Some id /\ licenses w !! id = Some l /\
               License.status l <> revoked /\
               w' = with_licenses (alter reactivated id (licenses w)) w.
Proof.
  unfold reactivateLicense.
  destruct (if Js.truthy lid then ObjectId env lid else None) as [id|] eqn:Hid;
    [|left; split; reflexivity].
  apply valid_id in Hid as [_ Hid].
  unfold connect, findOne.
  destruct (db_read_fault env); simpl; [left; split; reflexivity|].
  destruct (licenses w !! id) as [l|] eqn:Hlic; simpl; [|left; split; reflexivity].
  destruct (bool_decide (License.status l = revoked)) eqn:Hrev; simpl;
    [left; split; reflexivity|].
  apply bool_decide_eq_false in Hrev.
  destruct (db_write_fault env) as [f|] eqn:Hw.
  - rewrite (updateOne_fault _ _ _ _ f Hw). simpl. left; split; reflexivity.
  - destruct (updateOne_available env (licenses w) id reactivated Hw) as [n ->].
    simpl. right. exists id, l. auto.
Qed.

Lemma POST_delete_by_buyer_effect env w lid a :
  let '(w', _) := POST_delete_by_buyer env w lid a in
  w' = w \/
  exists id, w' = with_licenses
                    (alter (License.set_status deleted_by_user) id (licenses w)) w.
Proof.
  unfold POST_delete_by_buyer.
  destruct (negb (Js.truthy lid) || negb (Js.truthy a)); [left; reflexivity|].
  destruct (ObjectId env lid) as [id|]; [|left; reflexivity].
  destruct (negb (isAddress env a)); [left; reflexivity|].
  unfold connect, findOne.
  destruct (db_read_fault env); simpl; [left; reflexivity|].
  destruct (filter_buyer _ _); simpl; [|left; reflexivity].
  destruct (db_write_fault env) as [f|] eqn:Hw.
  - rewrite (updateOne_fault _ _ _ _ f Hw). simpl. left; reflexivity.
  - destruct (updateOne_available env (licenses w) id
                (License.set_status deleted_by_user) Hw) as [n ->].
    simpl. destruct (0 <? n)%nat; right; exists id; reflexivity.
Qed.

Lemma status_at_alter w f id id' :
  status_at (with_licenses (alter f id' (licenses w)) w) id
  = if decide (id' = id) then License.status <$> (f <$> licenses w !! id')
    else status_at w id.
Proof.
  unfold status_at, with_licenses. simpl.
  destruct (decide (id' = id)) as [->|Hne].
  - rewrite lookup_alter_eq. reflexivity.
  - rewrite lookup_alter_ne by done. reflexivity.
Qed.

Lemma status_at_Some w id st :
  status_at w id = Some st <->
  exists l, licenses w !! id = Some l /\ License.status l = st.
Proof.
  unfold status_at. destruct (licenses w !! id) as [l|]; simpl.
  - split; [intros [= <-]; eauto | intros (l' & [= <-] & <-); reflexivity].
  - split; [discriminate | intros (l' & [=] & _)].
Qed.

(** The store after a call: as it was, or with one license updated. *)
Lemma exec_effect env w c :
  (exec env w c).1 = w \/
  exists id f,
    (exec env w c).1 = with_licenses (alter f id (licenses w)) w /\
    forall l, License.status (f l) = License.status l
              \/ License.status (f l) = revoked
              \/ License.status (f l) = active
              \/ License.status (f l) = deleted_by_user.
Proof.
  destruct c as [lid d a|lid d|lid|lid|lid a]; simpl.
  - pose proof (getDecryptionKey_effect env w lid d a) as H.
    destruct (getDecryptionKey env w lid d a) as [w' r]. simpl.
    destruct H as [[-> _]|[_ (id & l & _ & _ & _ & ->)]]; [auto|].
    right. exists id, (mark_burned env). split; [reflexivity|]. intros; simpl; auto.
  - pose proof (bindDeviceToLicense_effect env w lid d) as H.
    destruct (bindDeviceToLicense env w lid d) as [w' r]. simpl.
    destruct H as [->|(id & _ & ->)]; [auto|].
    right. exists id, (License.set_deviceId d). split; [reflexivity|]. intros; simpl; auto.
  - pose proof (revokeLicense_effect env w lid) as H.
    destruct (revokeLicense env w lid) as [w' r]. simpl.
    destruct H as [->|(id & ->)]; [auto|].
    right. eexists id, _. split; [reflexivity|]. intros; simpl; auto.
  - pose proof (reactivateLicense_effect env w lid) as H.
    destruct (reactivateLicense env w lid) as [w' r]. simpl.
    destruct H as [[-> _]|(id & l & _ & _ & _ & ->)]; [auto|].
    right. exists id, reactivated. split; [reflexivity|]. intros; simpl; auto.
  - pose proof (POST_delete_by_buyer_effect env w lid a) as H.
    destruct (POST_delete_by_buyer env w lid a) as [w' [r code]]. simpl.
    destruct H as [->|(id & ->)]; [auto|].
    right. exists id, (License.set_status deleted_by_user).
    split; [reflexivity|]. intros; simpl; auto.
Qed.

(** No operation hands a mail to the transport. *)
Lemma exec_outbox env w c : outbox (exec env w c).1 = outbox w.
Proof.
  destruct (exec_effect env w c) as [->|(id & f & -> & _)]; reflexivity.
Qed.

(** No operation makes a license [blocked]. *)
Lemma exec_never_blocks env w c id :
  status_at (exec env w c).1 id = Some blocked -> status_at w id = Some blocked.
Proof.
  destruct (exec_effect env w c) as [->|(id' & f & -> & Hf)]; [auto|].
  rewrite status_at_alter.
  destruct (decide (id' = id)) as [->|]; [|auto].
  unfold status_at. destruct (licenses w !! id) as [l|]; simpl; [|discriminate].
  intros [= Hb]. destruct (Hf l) as [H|[H|[H|H]]]; congruence.
Qed.

(** ** [revoked] under the operations *)

Lemma gate_or_manager_step env w c id :
  gate_or_manager c = true ->
  status_at w id = Some revoked ->
  status_at (exec env w c).1 id = Some revoked /\
  (target env c = Some id -> releases_or_reactivates c = true ->
   success (exec env w c).2 = false).
Proof.
  intros Hc Hrev.
  pose proof Hrev as (l0 & Hl0 & Hst0)%status_at_Some.
  destruct c as [lid d a|lid d|lid|lid|lid a]; simpl in *; try discriminate.
  - pose proof (getDecryptionKey_effect env w lid d a) as H.
    destruct (getDecryptionKey env w lid d a) as [w' r]. simpl.
    destruct H as [[-> Hs]|[Hs (id' & l & Hid & Hl & Hact & ->)]].
    + split; [assumption|]. intros Ht _.
      destruct (success r) eqn:E; [|reflexivity].
      destruct (Hs eq_refl) as (id' & l & Hid & Hl & Hact). congruence.
    + split; [|auto]. rewrite status_at_alter.
      destruct (decide (id' = id)) as [->|]; [congruence|assumption].
  - pose proof (bindDeviceToLicense_effect env w lid d) as H.
    destruct (bindDeviceToLicense env w lid d) as [w' r]. simpl.
    split; [|discriminate].
    destruct H as [->|(id' & _ & ->)]; [assumption|].
    rewrite status_at_alter.
    destruct (decide (id' = id)) as [->|]; [|assumption].
    rewrite Hl0. simpl. congruence.
  - pose proof (revokeLicense_effect env w lid) as H.
    destruct (revokeLicense env w lid) as [w' r]. simpl.
    split; [|discriminate].
    destruct H as [->|(id' & ->)]; [assumption|].
    rewrite status_at_alter.
    destruct (decide (id' = id)) as [->|]; [|assumption].
    rewrite Hl0. reflexivity.
  - pose proof (reactivateLicense_effect env w lid) as H.
    destruct (reactivateLicense env w lid) as [w' r]. simpl.
    destruct H as [[-> Hs]|(id' & l & Hid & Hl & Hne & ->)].
    + auto.
    + assert (id' <> id) as Hd by (intros ->; congruence).
      split.
      * rewrite status_at_alter. destruct (decide (id' = id)); [contradiction|assumption].
      * intros Ht. congruence.
Qed.

Lemma POST_delete_by_buyer_step env w lid a id :
  status_at w id = Some revoked ->
  let '(w', _) := POST_delete_by_buyer env w lid a in
  status_at w' id = Some revoked \/ status_at w' id = Some deleted_by_user.
Proof.
  intros Hrev.
  pose proof Hrev as (l0 & Hl0 & Hst0)%status_at_Some.
  pose proof (POST_delete_by_buyer_effect env w lid a) as H.
  destruct (POST_delete_by_buyer env w lid a) as [w' r].
  destruct H as [->|(id' & ->)]; [auto|].
  rewrite status_at_alter.
  destruct (decide (id' = id)) as [->|]; [|auto].
  rewrite Hl0. auto.
Qed.

(** C2, as the code has it: from a license whose status is [revoked], no
    sequence of calls to [getDecryptionKey], [bindDeviceToLicense],
    [revokeLicense] and [reactivateLicense], in whatever environments,
    changes that status, and every [getDecryptionKey] and
    [reactivateLicense] on that license in the sequence is denied; the
    buyer's soft delete leaves the status [revoked] or makes it
    [deleted_by_user]. *)
Theorem revoked_kept_by_gate_and_manager id :
  (forall trace w,
     status_at w id = Some revoked ->
     Forall (fun ec => gate_or_manager ec.2 = true) trace ->
     let '(w', replies) := run w trace in
     status_at w' id = Some revoked /\
     Forall (fun '(env, c, r) =>
               target env c = Some id -> releases_or_reactivates c = true ->
               success r = false) replies)
  /\
  (forall env w lid a,
     status_at w id = Some revoked ->
     let '(w', _) := POST_delete_by_buyer env w lid a in
     status_at w' id = Some revoked \/ status_at w' id = Some deleted_by_user).
Proof.
  split; [|intros; apply POST_delete_by_buyer_step; assumption].
  induction trace as [|[env c] rest IH]; intros w Hrev Hall; simpl.
  - split; [assumption|constructor].
  - inversion Hall as [|? ? Hc Hrest]; subst. simpl in Hc.
    destruct (gate_or_manager_step env w c id Hc Hrev) as [Hkeep Hdeny].
    destruct (exec env w c) as [w1 r]. simpl in *.
    specialize (IH w1 Hkeep Hrest).
    destruct (run w1 rest) as [w2 replies].
    destruct IH as [Hfinal Hreplies].
    split; [assumption|]. constructor; assumption.
Qed.

(** The claim of C2 fails once the buyer's soft delete is among the
    operations: it takes a [revoked] license to [deleted_by_user], and the
    [reactivateLicense] that follows succeeds and makes it [active]. *)
Lemma revoked_left_by_soft_delete :
  let w0 := Sample.world revoked "dev1" in
  let '(w2, replies) :=
    run w0 [ (Sample.env, DeleteByBuyer Sample.licenseId Sample.buyer);
             (Sample.env, ReactivateLicense Sample.licenseId) ] in
  status_at w0 Sample.license_oid = Some revoked /\
  status_at (exec Sample.env w0 (DeleteByBuyer Sample.licenseId Sample.buyer)).1
    Sample.license_oid = Some deleted_by_user /\
  success <$> (snd <$> replies) = [true; true] /\
  status_at w2 Sample.license_oid = Some active.
Proof. vm_compute. repeat split; reflexivity. Qed.

(** ** Locality *)

Arguments relocate : simpl never.

Lemma relocate_license ip lock w id :
  licenses (relocate ip lock w) !! id = License.set_buyerIp (ip id) <$> licenses w !! id.
Proof.
  unfold relocate. simpl. rewrite map_lookup_imap.
  destruct (licenses w !! id); reflexivity.
Qed.

Lemma relocate_software ip lock w id :
  software (relocate ip lock w) !! id = Software.set_ipLock (lock id) <$> software w !! id.
Proof.
  unfold relocate. simpl. rewrite map_lookup_imap.
  destruct (software w !! id); reflexivity.
Qed.

Lemma updateOne_reply env c1 c2 id f1 f2 :
  is_Some (c1 !! id) -> is_Some (c2 !! id) ->
  match updateOne env c1 id f1, updateOne env c2 id f2 with
  | inl e1, inl e2 => e1 = e2
  | inr _, inr _ => True
  | _, _ => False
  end.
Proof.
  intros [l1 H1] [l2 H2]. unfold updateOne. rewrite H1, H2.
  destruct (db_write_fault env); [reflexivity|].
  destruct (decide _), (decide _); exact I.
Qed.

Lemma getDecryptionKey_relocate env w lid d a ip lock :
  (getDecryptionKey env (relocate ip lock w) lid d a).2
  = (getDecryptionKey env w lid d a).2.
Proof.
  unfold getDecryptionKey.
  destruct (negb (Js.truthy lid) || negb (Js.truthy d) || negb (Js.truthy a));
    [reflexivity|].
  destruct (negb (AMOY_RPC_URL env)); [reflexivity|].
  unfold connect, findOne.
  destruct (db_read_fault env); cbn [try_bind throw ret catch snd]; [reflexivity|].
  destruct (ObjectId env lid) as [id|]; [|reflexivity].
  cbn [try_bind throw ret catch snd].
  rewrite relocate_license.
  destruct (licenses w !! id) as [l|] eqn:Hlic; [|reflexivity].
  cbn [fmap option_fmap option_map License.status License.set_buyerIp
       License.softwareId License.tokenId try_bind ret].
  destruct (bool_decide (License.status l = active)); [|reflexivity].
  cbn [negb]. rewrite relocate_software.
  destruct (software w !! License.softwareId l) as [sw|]; [|reflexivity].
  cbn [fmap option_fmap option_map].
  destruct (chain_ownerOf env (License.tokenId l)) as [h|e].
  - destruct (negb (String.eqb _ _)); reflexivity.
  - destruct (is_invalid_token_error e); [|reflexivity].
    pose proof (updateOne_reply env (licenses (relocate ip lock w)) (licenses w) id
                  (mark_burned env) (mark_burned env)) as H.
    rewrite relocate_license, Hlic in H.
    specialize (H (mk_is_Some _ _ eq_refl) (mk_is_Some _ _ eq_refl)).
    destruct (updateOne env (licenses (relocate ip lock w)) id (mark_burned env))
      as [e1|[c1 n1]],
             (updateOne env (licenses w) id (mark_burned env)) as [e2|[c2 n2]];
      try contradiction; reflexivity.
Qed.

Lemma getDecryptionKey_denials env w lid d a :
  success (getDecryptionKey env w lid d a).2 = false ->
  In (message (getDecryptionKey env w lid d a).2) denial_messages.
Proof.
  unfold getDecryptionKey.
  destruct (negb (Js.truthy lid) || negb (Js.truthy d) || negb (Js.truthy a));
    [intros _; simpl; tauto|].
  destruct (negb (AMOY_RPC_URL env)); [intros _; simpl; tauto|].
  unfold connect, findOne.
  destruct (db_read_fault env); simpl; [intros _; tauto|].
  destruct (ObjectId env lid) as [id|]; simpl; [|intros _; tauto].
  destruct (licenses w !! id) as [l|] eqn:Hlic; simpl; [|intros _; tauto].
  destruct (bool_decide (License.status l = active)) eqn:Hact; simpl.
  2:{ apply bool_decide_eq_false in Hact. intros _.
      destruct (License.status l); simpl; tauto. }
  destruct (software w !! License.softwareId l) as [sw|]; simpl; [|intros _; tauto].
  destruct (chain_ownerOf env (License.tokenId l)) as [h|e].
  - destruct (negb (String.eqb _ _)); simpl; [intros _; tauto|].
    unfold device_lock_and_key.
    destruct (_ && _); simpl; [intros _; tauto|].
    destruct (_ || _); simpl; [intros _; tauto|discriminate].
  - destruct (is_invalid_token_error e); simpl; [|intros _; tauto].
    destruct (updateOne _ _ _ _) as [e1|[c1 n1]]; simpl; intros _; tauto.
Qed.

(** C7, as the code has it: [getDecryptionKey] makes no locality check.
    Its reply does not depend on the [ipLock] rule of any software nor on
    the locality stored with any license, and every denial it produces
    carries one of the messages of [denial_messages], none of which is
    about locality. *)
Theorem getDecryptionKey_ignores_locality env w lid d a :
  (forall ip lock,
     (getDecryptionKey env (relocate ip lock w) lid d a).2
     = (getDecryptionKey env w lid d a).2)
  /\
  (success (getDecryptionKey env w lid d a).2 = false ->
   In (message (getDecryptionKey env w lid d a).2) denial_messages).
Proof.
  split.
  - intros ip lock. apply getDecryptionKey_relocate.
  - apply getDecryptionKey_denials.
Qed.

(** The claim of C7 fails: the software has [ipLock] set and the license
    was minted from 203.0.113.7; the request carries no locality at all
    (the function has no such argument), and the key is released. *)
Lemma getDecryptionKey_releases_under_ipLock :
  ipLock (Software.licensingRules Sample.editor) = true /\
  License.buyerIp (Sample.license active "dev1") = "203.0.113.7" /\
  getDecryptionKey Sample.env (Sample.world active "dev1")
    Sample.licenseId "dev1" Sample.buyer
  = (Sample.world active "dev1",
     mkResult true "Key retrieved successfully."
       (Some "k3y") (Some "https://ipfs.io/ipfs/Qm")).
Proof. vm_compute. repeat split; reflexivity. Qed.

(** ** The token contract *)

Module LedgerFacts.
Import Ledger.

Lemma require_Ok b e : require b e = Ok tt <-> b = true.
Proof. destruct b; simpl; split; congruence. Qed.

(** [validateLicense], in both copies of the contract, compares digests. *)
Lemma validateLicense_digests {Digest} `{EqDecision Digest}
    (keccak256 : string -> Digest) st tokenId ip :
  _ownerOf st tokenId <> 0%N ->
  let b := negb (isLicenseBlocked st tokenId)
           && (String.eqb (getLicenseIpLock st tokenId) ""
               || bool_decide (keccak256 (getLicenseIpLock st tokenId) = keccak256 ip)) in
  validateLicense keccak256 st tokenId ip = Ok b /\
  validateLicense_ws keccak256 st tokenId ip
  = Ok (b, LicenseValidated tokenId (_ownerOf st tokenId) ip b).
Proof.
  intros Hex. unfold validateLicense, validateLicense_ws, ownerOf, _exists.
  apply N.eqb_neq in Hex. rewrite Hex. simpl.
  destruct (isLicenseBlocked st tokenId); simpl; [split; reflexivity|].
  destruct (getLicenseIpLock st tokenId) as [|c r]; simpl; [split; reflexivity|].
  destruct (bool_decide _); simpl; split; reflexivity.
Qed.

(** The test of the contract on two strings that [keccak256] does not
    map to one digest unless they are equal. *)
Lemma digest_test {Digest} `{EqDecision Digest} (keccak256 : string -> Digest) a b :
  (keccak256 a = keccak256 b -> a = b) ->
  bool_decide (keccak256 a = keccak256 b) = String.eqb a b.
Proof.
  intros Hk. destruct (String.eqb a b) eqn:E.
  - apply String.eqb_eq in E. apply bool_decide_eq_true_2. congruence.
  - apply String.eqb_neq in E. apply bool_decide_eq_false_2. auto.
Qed.

(** C9: for an existing token, [validateLicense] (in both copies of the
    contract) answers [false] when the blocked flag of the token is set;
    otherwise, when a non-empty locality lock is stored, it answers [true]
    exactly when the supplied locality is that very string; otherwise it
    answers [true]. The contract compares the digests of the two strings,
    so, where a non-empty lock is stored, this is for a lock and a
    locality that [keccak256] does not map to one digest unless they are
    equal. *)
Theorem validateLicense_exact {Digest} `{EqDecision Digest}
    (keccak256 : string -> Digest) st tokenId locality holder :
  _owners st !! tokenId = Some holder -> holder <> 0%N ->
  (forall lock,
     _licenseIpLock st !! tokenId = Some lock -> lock <> "" ->
     keccak256 lock = keccak256 locality -> lock = locality) ->
  validateLicense keccak256 st tokenId locality = Ok (validate_spec st tokenId locality) /\
  validateLicense_ws keccak256 st tokenId locality
  = Ok (validate_spec st tokenId locality,
        LicenseValidated tokenId holder locality (validate_spec st tokenId locality)).
Proof.
  intros Hown Hex Hk.
  unfold validateLicense, validateLicense_ws, ownerOf, _exists, _ownerOf.
  rewrite Hown. simpl. apply N.eqb_neq in Hex. rewrite Hex. simpl.
  unfold isLicenseBlocked, getLicenseIpLock, validate_spec.
  destruct (_licenseIpLock st !! tokenId) as [lock|]; simpl.
  - destruct (decide (lock = "")) as [->|Hne].
    + destruct (_isLicenseBlocked st !! tokenId) as [[|]|]; simpl; split; reflexivity.
    + rewrite (digest_test keccak256 _ _ (Hk lock eq_refl Hne)).
      destruct lock as [|c lock]; [contradiction|].
      destruct (_isLicenseBlocked st !! tokenId) as [[|]|]; simpl;
        try (split; reflexivity);
        destruct (match locality with "" => false | String _ _ => _ end);
        split; reflexivity.
  - destruct (_isLicenseBlocked st !! tokenId) as [[|]|]; simpl; split; reflexivity.
Qed.

(** The four cases on the sample, with the digest of the contract: token 1
    is blocked; token 0 is locked to 203.0.113.7; token 2 of the later
    sample has no lock. *)
Lemma validateLicense_exact_witness :
  (validateLicense Keccak.keccak256 sample 1%N "203.0.113.7" = Ok false /\
   validateLicense_ws Keccak.keccak256 sample 1%N "203.0.113.7"
   = Ok (false, LicenseValidated 1%N 43%N "203.0.113.7" false))
  /\
  (validateLicense Keccak.keccak256 sample 0%N "203.0.113.7" = Ok true /\
   validateLicense_ws Keccak.keccak256 sample 0%N "203.0.113.7"
   = Ok (true, LicenseValidated 0%N 42%N "203.0.113.7" true))
  /\
  (validateLicense Keccak.keccak256 sample 0%N "203.0.113.8" = Ok false /\
   validateLicense_ws Keccak.keccak256 sample 0%N "203.0.113.8"
   = Ok (false, LicenseValidated 0%N 42%N "203.0.113.8" false))
  /\
  (validateLicense Keccak.keccak256 sample_later 2%N "198.51.100.9" = Ok true /\
   validateLicense_ws Keccak.keccak256 sample_later 2%N "198.51.100.9"
   = Ok (true, LicenseValidated 2%N 44%N "198.51.100.9" true)).
Proof.
  split; [|split; [|split]].
  - apply (validateLicense_exact Keccak.keccak256 sample 1%N "203.0.113.7" 43%N).
    + reflexivity.
    + discriminate.
    + intros lock Hl. vm_compute in Hl. discriminate Hl.
  - apply (validateLicense_exact Keccak.keccak256 sample 0%N "203.0.113.7" 42%N).
    + reflexivity.
    + discriminate.
    + intros lock Hl _ _. vm_compute in Hl. injection Hl as <-. reflexivity.
  - apply (validateLicense_exact Keccak.keccak256 sample 0%N "203.0.113.8" 42%N).
    + reflexivity.
    + discriminate.
    + intros lock Hl _ Hk. vm_compute in Hl. injection Hl as <-.
      vm_compute in Hk. discriminate Hk.
  - apply (validateLicense_exact Keccak.keccak256 sample_later 2%N "198.51.100.9" 44%N).
    + vm_compute. reflexivity.
    + discriminate.
    + intros lock Hl. vm_compute in Hl. discriminate Hl.
Defined.

(** [keccak256] on the test vectors: the empty string, ["abc"], and the
    selector of [onERC721Received]. *)
Example keccak256_vectors :
  Keccak.keccak256 ""
  = 0xc5d2460186f7233c927e7db2dcc703c0e500b653ca82273b7bfad8045d85a470%N /\
  Keccak.keccak256 "abc"
  = 0x4e03657aea45a94fc7d47ba826c8d667c0d1e6e33a64a036ec44f58fa12d6c45%N /\
  N.shiftr (Keccak.keccak256 "onERC721Received(address,address,uint256,bytes)") 224
  = onERC721Received_selector.
Proof. vm_compute. repeat split; reflexivity. Qed.

Example validate_locked_elsewhere :
  validateLicense Keccak.keccak256 sample 0%N "203.0.113.8" = Ok false.
Proof. vm_compute. reflexivity. Qed.

Example validate_locked_here :
  validateLicense Keccak.keccak256 sample 0%N "203.0.113.7" = Ok true.
Proof. vm_compute. reflexivity. Qed.

Example validate_blocked :
  validateLicense Keccak.keccak256 sample 1%N "203.0.113.7" = Ok false.
Proof. vm_compute. reflexivity. Qed.

Example validate_missing :
  validateLicense Keccak.keccak256 sample 5%N "203.0.113.7" = Revert "License does not exist.".
Proof. vm_compute. reflexivity. Qed.

(** *** Holders *)

Lemma ERC721_update_owner st to tokenId auth st' prev t :
  ERC721_update st to tokenId auth = Ok (st', prev) ->
  prev = _ownerOf st tokenId /\
  _ownerOf st' t = if decide (tokenId = t) then to else _ownerOf st t.
Proof.
  unfold ERC721_update, bind.
  destruct (if (auth =? 0)%N then Ok tt else _) as [[]|e]; [|discriminate].
  intros [= <- <-]. split; [reflexivity|].
  unfold _ownerOf. simpl.
  destruct (decide (tokenId = t)) as [->|Hne].
  - rewrite lookup_insert_eq. reflexivity.
  - rewrite lookup_insert_ne by done. reflexivity.
Qed.

(** The guard of [contracts/SoftwareLicense.sol]. *)
Lemma _update_minted st to tokenId auth :
  _ownerOf st tokenId <> 0%N -> to <> 0%N ->
  _update st to tokenId auth
  = Revert "Tokens are non-transferable and can only be burned.".
Proof.
  intros Hm Hto. unfold _update, bind.
  apply N.eqb_neq in Hm, Hto. rewrite Hm, Hto. reflexivity.
Qed.

(** The guard of the workspace copy. *)
Lemma _update_ws_minted st to tokenId auth :
  _ownerOf st tokenId <> 0%N -> to <> 0%N ->
  _update_ws st to tokenId auth
  = Revert "SFTL: This license token is non-transferable.".
Proof.
  intros Hm Hto. unfold _update_ws, ownerOf, bind.
  apply N.eqb_neq in Hm, Hto. rewrite Hm. simpl. rewrite Hm, Hto. reflexivity.
Qed.

Lemma _update_guarded : guarded _update.
Proof.
  intros st to tokenId auth st' prev. unfold _update, bind.
  destruct (_ownerOf st tokenId =? 0)%N eqn:Hm; simpl.
  - apply N.eqb_eq in Hm. auto.
  - destruct (to =? 0)%N eqn:Hto; simpl; [|discriminate].
    apply N.eqb_eq in Hto. auto.
Qed.

Lemma _update_ws_guarded : guarded _update_ws.
Proof.
  intros st to tokenId auth st' prev. unfold _update_ws, ownerOf, bind.
  destruct (_ownerOf st tokenId =? 0)%N eqn:Hm; simpl; [discriminate|].
  rewrite Hm. simpl.
  destruct (to =? 0)%N eqn:Hto; simpl; [|discriminate].
  apply N.eqb_eq in Hto. auto.
Qed.

Lemma guarded_holder upd st to tokenId auth st' prev t :
  guarded upd ->
  _ownerOf st t <> 0%N ->
  upd st to tokenId auth = Ok (st', prev) ->
  _ownerOf st' t = _ownerOf st t \/ _ownerOf st' t = 0%N.
Proof.
  intros Hg Hm Hu. apply Hg in Hu as [Hfree Hu].
  apply (ERC721_update_owner _ _ _ _ _ _ t) in Hu as [_ ->].
  destruct (decide (tokenId = t)) as [<-|]; [|auto].
  destruct Hfree as [Hz| ->]; [contradiction|auto].
Qed.

(** No transaction gives a token another holder than it has, except none. *)
Lemma exec_holder upd sender st c st' t :
  guarded upd ->
  _ownerOf st t <> 0%N ->
  exec upd sender st c = Ok st' ->
  _ownerOf st' t = _ownerOf st t \/ _ownerOf st' t = 0%N.
Proof.
  intros Hg Hm.
  destruct c as [buyer uri ip receiver|tokenId|tokenId b|from to tokenId]; simpl.
  - unfold mintLicense, _safeMint, _mint, bind.
    destruct (onlyOwner sender st) as [[]|]; [|discriminate].
    destruct (require (_nextTokenId st <? uint256_max)%N _) as [[]|]; [|discriminate].
    destruct (require (negb (buyer =? 0)%N) _) as [[]|]; [|discriminate].
    destruct (upd _ buyer (_nextTokenId st) 0%N) as [[st1 prev]|] eqn:Hu; [|discriminate].
    destruct (require (prev =? 0)%N _) as [[]|]; [|discriminate].
    destruct (checkOnERC721Received receiver) as [[]|]; [|discriminate].
    intros [= <-].
    apply (guarded_holder _ _ _ _ _ _ _ t Hg) in Hu; [|exact Hm].
    destruct (0 <? String.length ip)%nat; exact Hu.
  - unfold revokeLicense, _burn, bind.
    destruct (onlyOwner sender st) as [[]|]; [|discriminate].
    destruct (require (_exists st tokenId) _) as [[]|]; [|discriminate].
    destruct (upd st 0%N tokenId 0%N) as [[st1 prev]|] eqn:Hu; [|discriminate].
    destruct (require (negb (prev =? 0)%N) _) as [[]|]; [|discriminate].
    intros [= <-]. exact (guarded_holder _ _ _ _ _ _ _ t Hg Hm Hu).
  - unfold blockLicense, bind.
    destruct (onlyOwner sender st) as [[]|]; [|discriminate].
    intros [= <-]. left. reflexivity.
  - unfold transferFrom, bind.
    destruct (require (negb (to =? 0)%N) _) as [[]|]; [|discriminate].
    destruct (upd st to tokenId sender) as [[st1 prev]|] eqn:Hu; [|discriminate].
    destruct (require (prev =? from)%N _) as [[]|]; [|discriminate].
    intros [= <-]. exact (guarded_holder _ _ _ _ _ _ _ t Hg Hm Hu).
Qed.

(** C10: once a token has a holder, [_update] (in both copies of the
    contract) reverts whenever it is asked to give the token to a non-zero
    address, whoever asks; and whatever transaction the contract accepts
    ([mintLicense], [revokeLicense], [blockLicense], [transferFrom]), the
    token afterwards has the holder it had or none. *)
Theorem minted_token_only_burns st tokenId :
  _ownerOf st tokenId <> 0%N ->
  (forall to auth,
     to <> 0%N ->
     _update st to tokenId auth
     = Revert "Tokens are non-transferable and can only be burned." /\
     _update_ws st to tokenId auth
     = Revert "SFTL: This license token is non-transferable.")
  /\
  (forall sender c st',
     exec _update sender st c = Ok st' \/ exec _update_ws sender st c = Ok st' ->
     _ownerOf st' tokenId = _ownerOf st tokenId \/ _ownerOf st' tokenId = 0%N).
Proof.
  intros Hm. split.
  - intros to auth Hto. split.
    + apply _update_minted; assumption.
    + apply _update_ws_minted; assumption.
  - intros sender c st' [H|H].
    + exact (exec_holder _ _ _ _ _ _ _update_guarded Hm H).
    + exact (exec_holder _ _ _ _ _ _ _update_ws_guarded Hm H).
Qed.

Lemma minted_token_only_burns_witness :
  (forall to auth,
     to <> 0%N ->
     _update sample to 0%N auth
     = Revert "Tokens are non-transferable and can only be burned." /\
     _update_ws sample to 0%N auth
     = Revert "SFTL: This license token is non-transferable.")
  /\
  (forall sender c st',
     exec _update sender sample c = Ok st' \/ exec _update_ws sender sample c = Ok st' ->
     _ownerOf st' 0%N = _ownerOf sample 0%N \/ _ownerOf st' 0%N = 0%N).
Proof.
  apply (minted_token_only_burns sample 0%N). vm_compute. discriminate.
Defined.

Example transfer_by_holder_reverts :
  exec _update 42%N sample (CallTransferFrom 42%N 77%N 0%N)
  = Revert "Tokens are non-transferable and can only be burned.".
Proof. vm_compute. reflexivity. Qed.

Example revoke_burns :
  (fun st => _ownerOf st 0%N) <$>
    (match exec _update 1%N sample (CallRevokeLicense 0%N) with
     | Ok st => Some st
     | Revert _ => None
     end) = Some 0%N.
Proof. vm_compute. reflexivity. Qed.

Example mint_next :
  (fun st => (_ownerOf st 2%N, _nextTokenId st)) <$>
    (match exec _update 1%N sample (CallMintLicense 44%N "ipfs://c" "" NoCode) with
     | Ok st => Some st
     | Revert _ => None
     end) = Some (44%N, 3%N).
Proof. vm_compute. reflexivity. Qed.

(** The workspace copy reads the holder with [ownerOf], which reverts on a
    token that has none: its [mintLicense] cannot pass the guard. *)
Example mint_next_ws :
  exec _update_ws 1%N sample (CallMintLicense 44%N "ipfs://c" "" NoCode)
  = Revert "ERC721NonexistentToken".
Proof. vm_compute. reflexivity. Qed.

End LedgerFacts.

(** * Further properties of the registry *)

(** ** What a released key shows *)

(** A key is only ever released for an [active] license of an existing
    software record, to the address the ledger names as holder (up to
    letter case), from the bound device when the software is device-locked
    and a device is bound; the key and the locator are the stored ones, the
    store is not written, and a denial carries neither key nor locator. *)
Theorem getDecryptionKey_release_sound env w lid d a :
  let '(w', r) := getDecryptionKey env w lid d a in
  (success r = true ->
   w' = w /\
   exists id l sw h,
     ObjectId env lid = Some id /\
     licenses w !! id = Some l /\ License.status l = active /\
     software w !! License.softwareId l = Some sw /\
     chain_ownerOf env (License.tokenId l) = Holder h /\ eq_ignore_case h a /\
     (fingerprintLock (Software.licensingRules sw) = true ->
      License.deviceId l = "" \/ License.deviceId l = d) /\
     Software.decryptionKey sw <> "" /\ Software.fileUrl sw <> "" /\
     key r = Some (Software.decryptionKey sw) /\
     fileUrl r = Some (Software.fileUrl sw))
  /\
  (success r = false -> key r = None /\ fileUrl r = None).
Proof.
  unfold getDecryptionKey.
  destruct (negb (Js.truthy lid) || negb (Js.truthy d) || negb (Js.truthy a));
    [split; [discriminate|auto]|].
  destruct (negb (AMOY_RPC_URL env)); [split; [discriminate|auto]|].
  unfold connect, findOne.
  destruct (db_read_fault env); simpl; [split; [discriminate|auto]|].
  destruct (ObjectId env lid) as [id|]; simpl; [|split; [discriminate|auto]].
  destruct (licenses w !! id) as [l|] eqn:Hlic; simpl; [|split; [discriminate|auto]].
  destruct (bool_decide (License.status l = active)) eqn:Hact; simpl;
    [|split; [discriminate|auto]].
  apply bool_decide_eq_true in Hact.
  destruct (software w !! License.softwareId l) as [sw|] eqn:Hsw; simpl;
    [|split; [discriminate|auto]].
  destruct (chain_ownerOf env (License.tokenId l)) as [h|e] eqn:Hh.
  - destruct (String.eqb (Js.toLowerCase h) (Js.toLowerCase a)) eqn:Heq; simpl;
      [|split; [discriminate|auto]].
    apply String.eqb_eq, toLowerCase_eq_ignore_case in Heq.
    unfold device_lock_and_key.
    destruct (fingerprintLock (Software.licensingRules sw)) eqn:Hf; simpl.
    + destruct (Js.truthy (License.deviceId l)) eqn:Ht; simpl.
      * destruct (String.eqb (License.deviceId l) d) eqn:Hd; simpl;
          [|split; [discriminate|auto]].
        apply String.eqb_eq in Hd.
        destruct (Js.truthy (Software.decryptionKey sw)) eqn:Hk; simpl;
          [|split; [discriminate|auto]].
        destruct (Js.truthy (Software.fileUrl sw)) eqn:Hu; simpl;
          [|split; [discriminate|auto]].
        apply truthy_true in Hk, Hu.
        split; [|discriminate]. intros _. split; [reflexivity|].
        exists id, l, sw, h. repeat split; auto.
      * apply truthy_false in Ht.
        destruct (Js.truthy (Software.decryptionKey sw)) eqn:Hk; simpl;
          [|split; [discriminate|auto]].
        destruct (Js.truthy (Software.fileUrl sw)) eqn:Hu; simpl;
          [|split; [discriminate|auto]].
        apply truthy_true in Hk, Hu.
        split; [|discriminate]. intros _. split; [reflexivity|].
        exists id, l, sw, h. repeat split; auto.
    + destruct (Js.truthy (Software.decryptionKey sw)) eqn:Hk; simpl;
        [|split; [discriminate|auto]].
      destruct (Js.truthy (Software.fileUrl sw)) eqn:Hu; simpl;
        [|split; [discriminate|auto]].
      apply truthy_true in Hk, Hu.
      split; [|discriminate]. intros _. split; [reflexivity|].
      exists id, l, sw, h. repeat split; auto. intros Hf'. congruence.
  - destruct (is_invalid_token_error e); simpl; [|split; [discriminate|auto]].
    destruct (updateOne _ _ _ _) as [e1|[c1 n1]]; simpl; split; auto; discriminate.
Qed.

(** ** The device lock *)

(** While no device is bound to a license, the device lock restricts
    nothing: the reply to a request does not depend on the device it comes
    from. *)
Theorem getDecryptionKey_unbound_any_device env w lid d d' a id l sw :
  reaches_ledger env w lid d a id l sw ->
  d' <> "" ->
  License.deviceId l = "" ->
  getDecryptionKey env w lid d' a = getDecryptionKey env w lid d a.
Proof.
  intros Hr Hd' Hdev.
  assert (reaches_ledger env w lid d' a id l sw) as Hr'.
  { destruct Hr. constructor; assumption. }
  rewrite (getDecryptionKey_at_ledger _ _ _ _ _ _ _ _ Hr).
  rewrite (getDecryptionKey_at_ledger _ _ _ _ _ _ _ _ Hr').
  unfold device_lock_and_key. rewrite Hdev. simpl.
  rewrite !andb_false_r. reflexivity.
Qed.

Lemma getDecryptionKey_unbound_any_device_witness :
  getDecryptionKey Sample.env (Sample.world active "") Sample.licenseId "dev2" Sample.buyer
  = getDecryptionKey Sample.env (Sample.world active "") Sample.licenseId "dev1" Sample.buyer.
Proof.
  apply (getDecryptionKey_unbound_any_device Sample.env (Sample.world active "")
           Sample.licenseId "dev1" "dev2" Sample.buyer Sample.license_oid
           (Sample.license active "") Sample.editor).
  - constructor; try reflexivity; discriminate.
  - discriminate.
  - reflexivity.
Defined.

Lemma device_lock_and_key_bound sw l d :
  License.deviceId l = d ->
  Software.decryptionKey sw <> "" -> Software.fileUrl sw <> "" ->
  device_lock_and_key sw l d
  = mkResult true "Key retrieved successfully."
      (Some (Software.decryptionKey sw)) (Some (Software.fileUrl sw)).
Proof.
  intros Hd Hk Hu. unfold device_lock_and_key.
  apply truthy_true in Hk, Hu. apply String.eqb_eq in Hd.
  rewrite Hd, Hk, Hu. simpl. rewrite !andb_false_r. reflexivity.
Qed.

(** The request of a holder for a license found at [id] after an update
    [f] of that license that leaves it [active] with the same software and
    token. *)
Lemma reaches_ledger_alter env w lid d a id l sw f :
  reaches_ledger env w lid d a id l sw ->
  License.status (f l) = active ->
  License.softwareId (f l) = License.softwareId l ->
  reaches_ledger env (with_licenses (alter f id (licenses w)) w) lid d a id (f l) sw.
Proof.
  intros [] Hst Hs. constructor; try assumption.
  - simpl. rewrite lookup_alter_eq. rewrite rl_license0. reflexivity.
  - simpl. rewrite Hs. assumption.
Qed.

Lemma bindDeviceToLicense_binds env w lid d id l sw :
  lid <> "" -> d <> "" ->
  db_read_fault env = None -> db_write_fault env = None ->
  ObjectId env lid = Some id ->
  licenses w !! id = Some l ->
  software w !! License.softwareId l = Some sw ->
  fingerprintLock (Software.licensingRules sw) = true ->
  License.deviceId l = "" ->
  bindDeviceToLicense env w lid d
  = (with_licenses (alter (License.set_deviceId d) id (licenses w)) w,
     reply true "Device successfully bound to license.").
Proof.
  intros Hl Hd Hdb Hw Hid Hlic Hsw Hf Hdev.
  pose proof Hd as Hd'. apply truthy_true in Hl, Hd.
  unfold bindDeviceToLicense. rewrite Hl, Hd. simpl.
  unfold connect, findOne. rewrite Hdb, Hid. simpl.
  rewrite Hlic, Hsw. simpl. rewrite Hf, Hdev. simpl.
  unfold updateOne. rewrite Hw, Hlic.
  destruct (decide (License.set_deviceId d l = l)) as [Heq|Hne]; simpl.
  - apply (f_equal License.deviceId) in Heq. simpl in Heq. congruence.
  - f_equal. unfold with_licenses. f_equal.
    apply map_eq. intros j. destruct (decide (id = j)) as [<-|Hj].
    + rewrite lookup_insert_eq, lookup_alter_eq, Hlic. reflexivity.
    + rewrite lookup_insert_ne, lookup_alter_ne by done. reflexivity.
Qed.

(** Trust on first use, end to end: after the first [bindDeviceToLicense]
    of a device-locked license, the holder gets the key on the bound
    device, and is denied with the device-mismatch reply on any other. *)
Theorem bind_then_release env w lid d d' a id l sw h :
  reaches_ledger env w lid d a id l sw ->
  db_write_fault env = None ->
  fingerprintLock (Software.licensingRules sw) = true ->
  Software.decryptionKey sw <> "" -> Software.fileUrl sw <> "" ->
  License.deviceId l = "" ->
  chain_ownerOf env (License.tokenId l) = Holder h ->
  eq_ignore_case h a ->
  d' <> "" -> d' <> d ->
  let '(w1, r1) := bindDeviceToLicense env w lid d in
  success r1 = true /\
  getDecryptionKey env w1 lid d a
  = (w1, mkResult true "Key retrieved successfully."
           (Some (Software.decryptionKey sw)) (Some (Software.fileUrl sw))) /\
  getDecryptionKey env w1 lid d' a
  = (w1, reply false "Device mismatch. This license is not bound to this device.").
Proof.
  intros Hr Hw Hf Hk Hu Hdev Hh Heq Hd' Hne.
  pose proof Hr as [Hl Hd Ha Hrpc Hdb Hid Hlic Hact Hsw].
  rewrite (bindDeviceToLicense_binds env w lid d id l sw Hl Hd Hdb Hw Hid Hlic Hsw Hf Hdev).
  split; [reflexivity|].
  assert (reaches_ledger env (with_licenses (alter (License.set_deviceId d) id (licenses w)) w)
            lid d a id (License.set_deviceId d l) sw) as Hr1
      by (apply reaches_ledger_alter; auto).
  assert (reaches_ledger env (with_licenses (alter (License.set_deviceId d) id (licenses w)) w)
            lid d' a id (License.set_deviceId d l) sw) as Hr2.
  { destruct Hr1. constructor; assumption. }
  split.
  - rewrite (getDecryptionKey_at_ledger _ _ _ _ _ _ _ _ Hr1). simpl. rewrite Hh.
    apply toLowerCase_eq_ignore_case in Heq. rewrite Heq, String.eqb_refl.
    rewrite device_lock_and_key_bound by auto. reflexivity.
  - apply (getDecryptionKey_device_mismatch _ _ _ _ _ _ _ _ h Hr2); simpl; auto.
Qed.

Lemma bind_then_release_witness :
  let '(w1, r1) :=
    bindDeviceToLicense Sample.env (Sample.world active "") Sample.licenseId "dev1" in
  success r1 = true /\
  getDecryptionKey Sample.env w1 Sample.licenseId "dev1" Sample.buyer
  = (w1, mkResult true "Key retrieved successfully."
           (Some (Software.decryptionKey Sample.editor))
           (Some (Software.fileUrl Sample.editor))) /\
  getDecryptionKey Sample.env w1 Sample.licenseId "dev2" Sample.buyer
  = (w1, reply false "Device mismatch. This license is not bound to this device.").
Proof.
  apply (bind_then_release Sample.env (Sample.world active "") Sample.licenseId
           "dev1" "dev2" Sample.buyer Sample.license_oid (Sample.license active "")
           Sample.editor Sample.buyer_checksummed);
    try reflexivity; try discriminate.
  - constructor; try reflexivity; discriminate.
  - apply toLowerCase_eq_ignore_case. reflexivity.
Defined.

Lemma reactivateLicense_reactivates env w lid id l :
  lid <> "" -> ObjectId env lid = Some id ->
  db_read_fault env = None -> db_write_fault env = None ->
  licenses w !! id = Some l -> License.status l <> revoked ->
  reactivateLicense env w lid
  = (with_licenses (alter reactivated id (licenses w)) w,
     reply true "License has been reactivated.").
Proof.
  intros Hl Hid Hdb Hw Hlic Hst.
  apply truthy_true in Hl. unfold reactivateLicense. rewrite Hl, Hid.
  unfold connect, findOne. rewrite Hdb. simpl. rewrite Hlic. simpl.
  rewrite bool_decide_eq_false_2 by assumption.
  destruct (updateOne_available env (licenses w) id reactivated Hw) as [n ->].
  reflexivity.
Qed.

(** Reactivation does not release the device: after [reactivateLicense] of
    a blocked license bound to a device, the holder gets the key on that
    device and is still denied, with the device-mismatch reply, on any
    other. *)
Theorem reactivate_keeps_binding env w lid d d' a id l sw h :
  lid <> "" -> d <> "" -> d' <> "" -> a <> "" ->
  AMOY_RPC_URL env = true ->
  db_read_fault env = None -> db_write_fault env = None ->
  ObjectId env lid = Some id ->
  licenses w !! id = Some l ->
  License.status l = blocked ->
  software w !! License.softwareId l = Some sw ->
  fingerprintLock (Software.licensingRules sw) = true ->
  Software.decryptionKey sw <> "" -> Software.fileUrl sw <> "" ->
  License.deviceId l = d -> d' <> d ->
  chain_ownerOf env (License.tokenId l) = Holder h ->
  eq_ignore_case h a ->
  let '(w1, r1) := reactivateLicense env w lid in
  success r1 = true /\
  getDecryptionKey env w1 lid d a
  = (w1, mkResult true "Key retrieved successfully."
           (Some (Software.decryptionKey sw)) (Some (Software.fileUrl sw))) /\
  getDecryptionKey env w1 lid d' a
  = (w1, reply false "Device mismatch. This license is not bound to this device.").
Proof.
  intros Hl Hd Hd' Ha Hrpc Hdb Hw Hid Hlic Hst Hsw Hf Hk Hu Hdev Hne Hh Heq.
  rewrite (reactivateLicense_reactivates env w lid id l) by (auto; congruence).
  split; [reflexivity|].
  assert (forall x, x <> "" ->
            reaches_ledger env (with_licenses (alter reactivated id (licenses w)) w)
              lid x a id (reactivated l) sw) as Hr.
  { intros x Hx. constructor; auto; simpl.
    rewrite lookup_alter_eq, Hlic. reflexivity. }
  split.
  - rewrite (getDecryptionKey_at_ledger _ _ _ _ _ _ _ _ (Hr d Hd)). simpl. rewrite Hh.
    apply toLowerCase_eq_ignore_case in Heq. rewrite Heq, String.eqb_refl.
    rewrite device_lock_and_key_bound by auto. reflexivity.
  - apply (getDecryptionKey_device_mismatch _ _ _ _ _ _ _ _ h (Hr d' Hd')); simpl; auto.
    + congruence.
    + congruence.
Qed.

Lemma reactivate_keeps_binding_witness :
  let '(w1, r1) :=
    reactivateLicense Sample.env (Sample.world blocked "dev1") Sample.licenseId in
  success r1 = true /\
  getDecryptionKey Sample.env w1 Sample.licenseId "dev1" Sample.buyer
  = (w1, mkResult true "Key retrieved successfully."
           (Some (Software.decryptionKey Sample.editor))
           (Some (Software.fileUrl Sample.editor))) /\
  getDecryptionKey Sample.env w1 Sample.licenseId "dev2" Sample.buyer
  = (w1, reply false "Device mismatch. This license is not bound to this device.").
Proof.
  apply (reactivate_keeps_binding Sample.env (Sample.world blocked "dev1") Sample.licenseId
           "dev1" "dev2" Sample.buyer Sample.license_oid (Sample.license blocked "dev1")
           Sample.editor Sample.buyer_checksummed);
    try reflexivity; try discriminate.
  apply toLowerCase_eq_ignore_case. reflexivity.
Defined.

(** ** What the operations keep *)

Lemma bindDeviceToLicense_effect_unbound env w lid d :
  let '(w', r) := bindDeviceToLicense env w lid d in
  w' = w \/
  exists id l, licenses w !! id = Some l /\ License.deviceId l = "" /\
               w' = with_licenses (alter (License.set_deviceId d) id (licenses w)) w.
Proof.
  unfold bindDeviceToLicense.
  destruct (negb (Js.truthy lid) || negb (Js.truthy d)); [left; reflexivity|].
  unfold connect, findOne.
  destruct (db_read_fault env); simpl; [left; reflexivity|].
  destruct (ObjectId env lid) as [id|]; simpl; [|left; reflexivity].
  destruct (licenses w !! id) as [l|] eqn:Hlic; simpl; [|left; reflexivity].
  destruct (negb _); simpl; [left; reflexivity|].
  destruct (Js.truthy (License.deviceId l)) eqn:Ht; simpl.
  { destruct (negb _); left; reflexivity. }
  apply truthy_false in Ht.
  destruct (db_write_fault env) as [f|] eqn:Hw.
  - rewrite (updateOne_fault _ _ _ _ f Hw). simpl. left; reflexivity.
  - destruct (updateOne_available env (licenses w) id (License.set_deviceId d) Hw) as [n ->].
    simpl. destruct (0 <? n)%nat; right; exists id, l; auto.
Qed.

Lemma same_identity_refl l : same_identity l l.
Proof. repeat split. Qed.

Lemma alter_same_identity w f id0 id :
  (forall l, licenses w !! id0 = Some l -> same_identity l (f l)) ->
  match licenses w !! id, licenses (with_licenses (alter f id0 (licenses w)) w) !! id with
  | Some l, Some l' => same_identity l l'
  | None, None => True
  | _, _ => False
  end.
Proof.
  intros Hf. simpl. destruct (decide (id0 = id)) as [->|Hne].
  - rewrite lookup_alter_eq. destruct (licenses w !! id) as [l|]; simpl; auto.
  - rewrite lookup_alter_ne by done.
    destruct (licenses w !! id) as [l|]; auto using same_identity_refl.
Qed.

(** The five operations on the registry (key release, device binding,
    revocation, reactivation, the buyer's soft delete) neither add nor
    remove a license, leave the software and user records alone, and in
    every license keep the software, the buyer, the token, the purchase
    record and, once a device is bound, the device. *)
Theorem exec_keeps_identity env w c :
  software (exec env w c).1 = software w /\
  users (exec env w c).1 = users w /\
  forall id,
    match licenses w !! id, licenses (exec env w c).1 !! id with
    | Some l, Some l' => same_identity l l'
    | None, None => True
    | _, _ => False
    end.
Proof.
  assert (forall id,
            match licenses w !! id, licenses w !! id with
            | Some l, Some l' => same_identity l l'
            | None, None => True
            | _, _ => False
            end) as Hsame.
  { intros id. destruct (licenses w !! id); auto using same_identity_refl. }
  destruct c as [lid d a|lid d|lid|lid|lid a]; simpl.
  - pose proof (getDecryptionKey_effect env w lid d a) as H.
    destruct (getDecryptionKey env w lid d a) as [w' r]. simpl.
    destruct H as [[-> _]|[_ (id & l & _ & _ & _ & ->)]]; [auto|].
    repeat split. intros j. apply alter_same_identity.
    intros l0 _. repeat split. 
  - pose proof (bindDeviceToLicense_effect_unbound env w lid d) as H.
    destruct (bindDeviceToLicense env w lid d) as [w' r]. simpl.
    destruct H as [->|(id & l & Hl & Hdev & ->)]; [auto|].
    repeat split. intros j. apply alter_same_identity.
    intros l0 Hl0. rewrite Hl in Hl0. injection Hl0 as <-.
    repeat split. intros Hne. contradiction.
  - pose proof (revokeLicense_effect env w lid) as H.
    destruct (revokeLicense env w lid) as [w' r]. simpl.
    destruct H as [->|(id & ->)]; [auto|].
    repeat split. intros j. apply alter_same_identity.
    intros l0 _. repeat split.
  - pose proof (reactivateLicense_effect env w lid) as H.
    destruct (reactivateLicense env w lid) as [w' r]. simpl.
    destruct H as [[-> _]|(id & l & _ & _ & _ & ->)]; [auto|].
    repeat split. intros j. apply alter_same_identity.
    intros l0 _. repeat split.
  - pose proof (POST_delete_by_buyer_effect env w lid a) as H.
    destruct (POST_delete_by_buyer env w lid a) as [w' [r code]]. simpl.
    destruct H as [->|(id & ->)]; [auto|].
    repeat split. intros j. apply alter_same_identity.
    intros l0 _. repeat split.
Qed.

Lemma exec_never_blocks_witness :
  status_at (Sample.world blocked "dev1") Sample.license_oid = Some blocked.
Proof.
  apply (exec_never_blocks Sample.env (Sample.world blocked "dev1")
           (BindDeviceToLicense Sample.licenseId "dev1") Sample.license_oid).
  vm_compute. reflexivity.
Defined.

(** ** After a revocation *)

Lemma revokeLicense_success env w lid :
  success (revokeLicense env w lid).2 = true ->
  exists id l,
    ObjectId env lid = Some id /\ licenses w !! id = Some l /\
    (revokeLicense env w lid).1
    = with_licenses
        (alter (fun l => License.set_reason (Some "Seller revoked")
                           (License.set_status revoked l)) id (licenses w)) w.
Proof.
  unfold revokeLicense.
  destruct (negb (SELLER_PRIVATE_KEY env) || negb (AMOY_RPC_URL env)); [discriminate|].
  destruct (if Js.truthy lid then ObjectId env lid else None) as [id|] eqn:Hid;
    [|discriminate].
  apply valid_id in Hid as [_ Hid].
  unfold connect, findOne.
  destruct (db_read_fault env); simpl; [discriminate|].
  destruct (licenses w !! id) as [l|] eqn:Hlic; simpl; [|discriminate].
  destruct (chain_revokeLicense env (License.tokenId l)); simpl; try discriminate.
  destruct (db_write_fault env) as [f|] eqn:Hw.
  - rewrite (updateOne_fault _ _ _ _ f Hw). simpl. discriminate.
  - destruct (updateOne_available env (licenses w) id
                (fun l => License.set_reason (Some "Seller revoked")
                            (License.set_status revoked l)) Hw) as [n ->].
    simpl. intros _. exists id, l. auto.
Qed.

Lemma run_keeps_revoked id trace : forall w,
  status_at w id = Some revoked ->
  Forall (fun ec => gate_or_manager ec.2 = true) trace ->
  status_at (run w trace).1 id = Some revoked /\
  Forall (fun '(env, c, r) =>
            target env c = Some id -> releases_or_reactivates c = true ->
            success r = false) (run w trace).2.
Proof.
  induction trace as [|[env c] rest IH]; intros w Hrev Hall; simpl.
  - split; [assumption|constructor].
  - inversion Hall as [|? ? Hc Hrest]; subst. simpl in Hc.
    destruct (gate_or_manager_step env w c id Hc Hrev) as [Hkeep Hdeny].
    destruct (exec env w c) as [w1 r]. simpl in *.
    specialize (IH w1 Hkeep Hrest).
    destruct (run w1 rest) as [w2 replies]. simpl in *.
    destruct IH as [Hfinal Hreplies].
    split; [assumption|]. constructor; assumption.
Qed.

(** A revocation that succeeds is final for the gate and the manager:
    whatever calls to [getDecryptionKey], [bindDeviceToLicense],
    [revokeLicense] and [reactivateLicense] follow, the license stays
    [revoked] and every key request and reactivation of it is denied. *)
Theorem revoke_then_denied env w lid id trace :
  ObjectId env lid = Some id ->
  success (revokeLicense env w lid).2 = true ->
  Forall (fun ec => gate_or_manager ec.2 = true) trace ->
  status_at (revokeLicense env w lid).1 id = Some revoked /\
  status_at (run (revokeLicense env w lid).1 trace).1 id = Some revoked /\
  Forall (fun '(env, c, r) =>
            target env c = Some id -> releases_or_reactivates c = true ->
            success r = false) (run (revokeLicense env w lid).1 trace).2.
Proof.
  intros Hid Hs Hall.
  destruct (revokeLicense_success env w lid Hs) as (id' & l & Hid' & Hl & Hw).
  assert (id' = id) as -> by congruence.
  assert (status_at (revokeLicense env w lid).1 id = Some revoked) as Hrev.
  { rewrite Hw, status_at_alter. rewrite decide_True by reflexivity.
    rewrite Hl. reflexivity. }
  split; [assumption|]. apply run_keeps_revoked; assumption.
Qed.

Lemma revoke_then_denied_witness :
  status_at (revokeLicense Sample.env (Sample.world active "dev1") Sample.licenseId).1
    Sample.license_oid = Some revoked /\
  status_at (run (revokeLicense Sample.env (Sample.world active "dev1") Sample.licenseId).1
               [(Sample.env, ReactivateLicense Sample.licenseId);
                (Sample.env, GetDecryptionKey Sample.licenseId "dev1" Sample.buyer)]).1
    Sample.license_oid = Some revoked /\
  Forall (fun '(env, c, r) =>
            target env c = Some Sample.license_oid -> releases_or_reactivates c = true ->
            success r = false)
    (run (revokeLicense Sample.env (Sample.world active "dev1") Sample.licenseId).1
       [(Sample.env, ReactivateLicense Sample.licenseId);
        (Sample.env, GetDecryptionKey Sample.licenseId "dev1" Sample.buyer)]).2.
Proof.
  apply (revoke_then_denied Sample.env (Sample.world active "dev1") Sample.licenseId
           Sample.license_oid
           [(Sample.env, ReactivateLicense Sample.licenseId);
            (Sample.env, GetDecryptionKey Sample.licenseId "dev1" Sample.buyer)]).
  - reflexivity.
  - vm_compute. reflexivity.
  - repeat constructor.
Defined.

(** ** Purchases and listings *)

Lemma newest_first_total : Total newest_first.
Proof. intros a b. unfold newest_first. lia. Qed.

Lemma newest_first_transitive : Transitive newest_first.
Proof. intros a b c. unfold newest_first. lia. Qed.

Lemma find_licenses_spec env w (matches : License.t -> Prop)
    `{forall l, Decision (matches l)} :
  match find_licenses env w matches with
  | inl e => db_read_fault env = Some e
  | inr found =>
      db_read_fault env = None /\
      StronglySorted newest_first found /\ NoDup found /\
      forall id l, (id, l) ∈ found <-> licenses w !! id = Some l /\ matches l
  end.
Proof.
  unfold find_licenses. destruct (db_read_fault env); [reflexivity|].
  simpl. split; [reflexivity|]. split; [|split].
  - apply (@StronglySorted_merge_sort _ newest_first _
             newest_first_transitive newest_first_total).
  - rewrite merge_sort_Permutation. apply NoDup_filter, NoDup_map_to_list.
  - intros id l. rewrite merge_sort_Permutation, list_elem_of_filter.
    rewrite elem_of_map_to_list. simpl. tauto.
Qed.

Ltac empty_listing :=
  split; [constructor|]; split; [constructor|];
  intros ? ?; split; [intros Hin; inversion Hin|].

Lemma getLicensesForBuyer_member env w a id l :
  a <> "" -> db_read_fault env = None ->
  licenses w !! id = Some l -> License.buyerAddress l = Js.toLowerCase a ->
  (id, l) ∈ getLicensesForBuyer env w a.
Proof.
  intros Ha Hdb Hl Hb. apply truthy_true in Ha.
  unfold getLicensesForBuyer, connect, find_licenses. rewrite Ha, Hdb. simpl.
  rewrite merge_sort_Permutation, list_elem_of_filter, elem_of_map_to_list. auto.
Qed.

(** For an address of ASCII characters, [getLicensesForBuyer] lists
    exactly the licenses whose stored buyer address is the argument with
    its capital letters made small, each once, newest first; for an empty
    address or an unreachable store it lists nothing. *)
Theorem getLicensesForBuyer_lists env w a :
  Js.is_ascii a = true ->
  StronglySorted newest_first (getLicensesForBuyer env w a) /\
  NoDup (getLicensesForBuyer env w a) /\
  forall id l,
    (id, l) ∈ getLicensesForBuyer env w a <->
    a <> "" /\ db_read_fault env = None /\
    licenses w !! id = Some l /\ License.buyerAddress l = Js.toLowerCase a.
Proof.
  intros _. unfold getLicensesForBuyer.
  destruct (Js.truthy a) eqn:Ha; simpl.
  2:{ apply truthy_false in Ha. empty_listing. intros [Hne _]. contradiction. }
  apply truthy_true in Ha.
  pose proof (find_licenses_spec env w
                (fun l => License.buyerAddress l = Js.toLowerCase a)) as H.
  unfold connect. destruct (db_read_fault env) as [e|] eqn:Hdb; simpl.
  { empty_listing. intros (_ & Hf & _). discriminate. }
  destruct (find_licenses env w _) as [e|found]; simpl.
  { discriminate H. }
  destruct H as (_ & Hs & Hn & Hm).
  split; [assumption|]. split; [assumption|].
  intros id l. rewrite Hm. tauto.
Qed.

(** The license of the sample, asked for under the address in capitals. *)
Lemma getLicensesForBuyer_lists_witness :
  StronglySorted newest_first
    (getLicensesForBuyer Sample.env (Sample.world active "dev1") Sample.buyer_checksummed) /\
  NoDup (getLicensesForBuyer Sample.env (Sample.world active "dev1")
           Sample.buyer_checksummed) /\
  forall id l,
    (id, l) ∈ getLicensesForBuyer Sample.env (Sample.world active "dev1")
                Sample.buyer_checksummed <->
    Sample.buyer_checksummed <> "" /\ db_read_fault Sample.env = None /\
    licenses (Sample.world active "dev1") !! id = Some l /\
    License.buyerAddress l = Js.toLowerCase Sample.buyer_checksummed.
Proof.
  apply (getLicensesForBuyer_lists Sample.env (Sample.world active "dev1")
           Sample.buyer_checksummed).
  reflexivity.
Defined.

Example getLicensesForBuyer_sample :
  getLicensesForBuyer Sample.env (Sample.world active "dev1") Sample.buyer_checksummed
  = [(Sample.license_oid, Sample.license active "dev1")].
Proof. vm_compute. reflexivity. Qed.

(** [getLicensesForSoftware] lists exactly the licenses of the software
    with the given identifier, each once, newest first; for an invalid
    identifier or an unreachable store it lists nothing. *)
Theorem getLicensesForSoftware_lists env w s :
  StronglySorted newest_first (getLicensesForSoftware env w s) /\
  NoDup (getLicensesForSoftware env w s) /\
  forall id l,
    (id, l) ∈ getLicensesForSoftware env w s <->
    s <> "" /\ db_read_fault env = None /\
    licenses w !! id = Some l /\ ObjectId env s = Some (License.softwareId l).
Proof.
  unfold getLicensesForSoftware.
  destruct (Js.truthy s) eqn:Hs.
  2:{ apply truthy_false in Hs. empty_listing. intros [Hne _]. contradiction. }
  apply truthy_true in Hs.
  destruct (ObjectId env s) as [sid|] eqn:Hid.
  2:{ empty_listing. intros (_ & _ & _ & Hf). discriminate. }
  pose proof (find_licenses_spec env w (fun l => License.softwareId l = sid)) as H.
  unfold connect. destruct (db_read_fault env) as [e|] eqn:Hdb; simpl.
  { empty_listing. intros (_ & Hf & _). discriminate. }
  destruct (find_licenses env w _) as [e|found]; simpl.
  { discriminate H. }
  destruct H as (_ & Hso & Hn & Hm).
  split; [assumption|]. split; [assumption|].
  intros id l. rewrite Hm. split.
  - intros [Hl <-]. auto.
  - intros (_ & _ & Hl & [= ->]). auto.
Qed.

Lemma recordLicensePurchase_fresh env w _id ld :
  success (recordLicensePurchase env w _id ld).2 = true ->
  exists sid sw tid,
    LicenseData.buyerAddress ld <> "" /\
    db_read_fault env = None /\
    LicenseData.tokenId ld = Some tid /\
    (recordLicensePurchase env w _id ld).1
    = with_licenses
        (<[_id := License.mk sid (Software.title sw)
                    (Js.toLowerCase (LicenseData.buyerAddress ld)) tid
                    (LicenseData.transactionHash ld) (now env)
                    (LicenseData.buyerIp ld) "" active None None]>
           (licenses w)) w.
Proof.
  unfold recordLicensePurchase.
  destruct (Js.truthy (LicenseData.softwareId ld)); simpl; [|discriminate].
  destruct (Js.truthy (LicenseData.buyerAddress ld)) eqn:Hb; simpl; [|discriminate].
  apply truthy_true in Hb.
  destruct (LicenseData.tokenId ld) as [tid|]; simpl; [|discriminate].
  destruct (Js.truthy (LicenseData.transactionHash ld)); simpl; [|discriminate].
  unfold connect, new_ObjectId, findOne, insertOne.
  destruct (db_read_fault env); simpl; [discriminate|].
  destruct (ObjectId env (LicenseData.softwareId ld)) as [sid|]; simpl; [|discriminate].
  destruct (software w !! sid) as [sw|]; simpl; [|discriminate].
  destruct (db_write_fault env); simpl; [discriminate|].
  destruct (licenses w !! _id); simpl; [discriminate|].
  intros _. exists sid, sw, tid. auto.
Qed.



Example recordLicensePurchase_sample :
  (success (recordLicensePurchase Sample.env (Sample.world active "dev1")
              Purchase.oid Purchase.data).2,
   License.buyerAddress <$>
     licenses (recordLicensePurchase Sample.env (Sample.world active "dev1")
                 Purchase.oid Purchase.data).1 !! Purchase.oid)
  = (true, Some Sample.buyer).
Proof. vm_compute. reflexivity. Qed.

(** A recorded purchase is listed for the buyer under every spelling of
    the address that differs from the one given at purchase in letter case
    only: as an [active] license, bound to no device. *)
Theorem purchase_listed_for_buyer env w _id ld a :
  success (recordLicensePurchase env w _id ld).2 = true ->
  eq_ignore_case (LicenseData.buyerAddress ld) a ->
  exists l,
    (_id, l) ∈ getLicensesForBuyer env (recordLicensePurchase env w _id ld).1 a /\
    License.status l = active /\ License.deviceId l = "" /\
    Some (License.tokenId l) = LicenseData.tokenId ld.
Proof.
  intros Hs Heq.
  pose proof (recordLicensePurchase_fresh env w _id ld Hs)
    as (sid & sw & tid & Hb & Hdb & Htid & Hw).
  eexists. split.
  - apply getLicensesForBuyer_member.
    + intros ->. inversion Heq; subst. congruence.
    + exact Hdb.
    + rewrite Hw. simpl. apply lookup_insert_eq.
    + simpl. apply toLowerCase_eq_ignore_case. exact Heq.
  - simpl. auto.
Qed.

Lemma purchase_listed_for_buyer_witness :
  exists l,
    (Purchase.oid, l) ∈
      getLicensesForBuyer Sample.env
        (recordLicensePurchase Sample.env (Sample.world active "dev1")
           Purchase.oid Purchase.data).1 Sample.buyer /\
    License.status l = active /\ License.deviceId l = "" /\
    Some (License.tokenId l) = LicenseData.tokenId Purchase.data.
Proof.
  apply (purchase_listed_for_buyer Sample.env (Sample.world active "dev1")
           Purchase.oid Purchase.data Sample.buyer).
  - vm_compute. reflexivity.
  - apply toLowerCase_eq_ignore_case. reflexivity.
Defined.

(** ** The locator without the gate *)

(** [getSoftwareFileUrl] never returns a key and looks at no license: it
    succeeds exactly when the identifier is valid, the store is reachable
    and the software record has a locator, which it returns, whatever the
    licenses in the store. *)
Theorem getSoftwareFileUrl_unguarded env w s :
  key (getSoftwareFileUrl env w s) = None /\
  (success (getSoftwareFileUrl env w s) = true <->
   s <> "" /\ db_read_fault env = None /\
   exists sid sw,
     ObjectId env s = Some sid /\ software w !! sid = Some sw /\
     Software.fileUrl sw <> "" /\
     fileUrl (getSoftwareFileUrl env w s) = Some (Software.fileUrl sw)) /\
  (forall ls, getSoftwareFileUrl env (with_licenses ls w) s = getSoftwareFileUrl env w s).
Proof.
  split; [|split; [|reflexivity]]; unfold getSoftwareFileUrl.
  - destruct (if Js.truthy s then ObjectId env s else None); [|reflexivity].
    unfold connect, findOne. destruct (db_read_fault env); simpl; [reflexivity|].
    destruct (software w !! n) as [sw|]; simpl; [|reflexivity].
    destruct (negb _); reflexivity.
  - destruct (Js.truthy s) eqn:Hs.
    2:{ apply truthy_false in Hs. split; [discriminate|]. intros [Hne _]. contradiction. }
    apply truthy_true in Hs.
    destruct (ObjectId env s) as [sid|] eqn:Hid.
    2:{ split; [discriminate|]. intros (_ & _ & sid & sw & Hf & _). discriminate. }
    unfold connect, findOne. destruct (db_read_fault env); simpl.
    { split; [discriminate|]. intros (_ & Hf & _). discriminate. }
    destruct (software w !! sid) as [sw|] eqn:Hsw; simpl.
    2:{ split; [discriminate|]. intros (_ & _ & sid' & sw & [= <-] & Hf & _). congruence. }
    destruct (Js.truthy (Software.fileUrl sw)) eqn:Hu; simpl.
    + apply truthy_true in Hu. split; [|reflexivity].
      intros _. repeat split; auto. exists sid, sw. auto.
    + apply truthy_false in Hu. split; [discriminate|].
      intros (_ & _ & sid' & sw' & [= <-] & Hsw' & Hne & _). congruence.
Qed.

(** ** Deleting software and accounts *)

(** [deleteSoftware] succeeds only on a valid identifier of an existing
    software record, and then has removed that record and every license of
    it, and nothing else. *)
Theorem deleteSoftware_removes env w s :
  success (deleteSoftware env w s).2 = true ->
  exists sid,
    ObjectId env s = Some sid /\ is_Some (software w !! sid) /\
    software (deleteSoftware env w s).1 = delete sid (software w) /\
    (forall id l, licenses (deleteSoftware env w s).1 !! id = Some l <->
                  licenses w !! id = Some l /\ License.softwareId l <> sid) /\
    users (deleteSoftware env w s).1 = users w /\
    outbox (deleteSoftware env w s).1 = outbox w.
Proof.
  unfold deleteSoftware.
  destruct (if Js.truthy s then ObjectId env s else None) as [sid|] eqn:Hid;
    [|discriminate].
  apply valid_id in Hid as [_ Hid].
  unfold connect, findOne, deleteMany, deleteOne.
  destruct (db_read_fault env); simpl; [discriminate|].
  destruct (software w !! sid) as [sw|] eqn:Hsw; simpl; [|discriminate].
  destruct (db_write_fault env); simpl; [discriminate|].
  intros _. exists sid.
  split; [assumption|]. split; [eauto|]. split; [reflexivity|].
  split; [|split; reflexivity].
  intros id l. rewrite map_lookup_filter_Some. simpl. tauto.
Qed.

Lemma deleteSoftware_removes_witness :
  exists sid,
    ObjectId Sample.env "000000000000000000000007" = Some sid /\
    is_Some (software (Sample.world active "dev1") !! sid) /\
    software (deleteSoftware Sample.env (Sample.world active "dev1")
                "000000000000000000000007").1
    = delete sid (software (Sample.world active "dev1")) /\
    (forall id l,
       licenses (deleteSoftware Sample.env (Sample.world active "dev1")
                   "000000000000000000000007").1 !! id = Some l <->
       licenses (Sample.world active "dev1") !! id = Some l /\
       License.softwareId l <> sid) /\
    users (deleteSoftware Sample.env (Sample.world active "dev1")
             "000000000000000000000007").1 = users (Sample.world active "dev1") /\
    outbox (deleteSoftware Sample.env (Sample.world active "dev1")
              "000000000000000000000007").1 = outbox (Sample.world active "dev1").
Proof.
  apply (deleteSoftware_removes Sample.env (Sample.world active "dev1")
           "000000000000000000000007").
  vm_compute. reflexivity.
Defined.

(** After [deleteSoftware] the licenses of the deleted software are gone
    from the registry: a key request for one of them is answered with
    "License not found in the database.". *)
Theorem deleteSoftware_then_key env w s env' lid d a id l :
  success (deleteSoftware env w s).2 = true ->
  licenses w !! id = Some l ->
  ObjectId env s = Some (License.softwareId l) ->
  lid <> "" -> d <> "" -> a <> "" ->
  AMOY_RPC_URL env' = true -> db_read_fault env' = None ->
  ObjectId env' lid = Some id ->
  getDecryptionKey env' (deleteSoftware env w s).1 lid d a
  = ((deleteSoftware env w s).1, reply false "License not found in the database.").
Proof.
  intros Hs Hl Hsid Hlid Hd Ha Hrpc Hdb Hid.
  assert (licenses (deleteSoftware env w s).1 !! id = None) as Hgone.
  { revert Hs. unfold deleteSoftware.
    destruct (Js.truthy s); [|discriminate]. rewrite Hsid.
    unfold connect, findOne, deleteMany, deleteOne.
    destruct (db_read_fault env); simpl; [discriminate|].
    destruct (software w !! License.softwareId l) as [sw|] eqn:Hsw; simpl; [|discriminate].
    destruct (db_write_fault env); simpl; [discriminate|].
    intros _.
    apply map_lookup_filter_None. right. intros l' Hl'. simpl.
    rewrite Hl in Hl'. injection Hl' as <-. auto. }
  apply truthy_true in Hlid, Hd, Ha.
  unfold getDecryptionKey. rewrite Hlid, Hd, Ha, Hrpc. simpl.
  unfold connect, findOne. rewrite Hdb, Hid. simpl. rewrite Hgone. reflexivity.
Qed.

Lemma deleteSoftware_then_key_witness :
  getDecryptionKey Sample.env
    (deleteSoftware Sample.env (Sample.world active "dev1") "000000000000000000000007").1
    Sample.licenseId "dev1" Sample.buyer
  = ((deleteSoftware Sample.env (Sample.world active "dev1") "000000000000000000000007").1,
     reply false "License not found in the database.").
Proof.
  apply (deleteSoftware_then_key Sample.env (Sample.world active "dev1")
           "000000000000000000000007" Sample.env Sample.licenseId "dev1" Sample.buyer
           Sample.license_oid (Sample.license active "dev1"));
    first [ discriminate | reflexivity ].
Defined.

Lemma findOne_username_found env c u uid usr :
  findOne_username env c u = inr (Some (uid, usr)) ->
  c !! uid = Some usr /\ User.username usr = u.
Proof.
  unfold findOne_username. destruct (db_read_fault env); [discriminate|].
  intros [= H]. apply head_Some_elem_of in H.
  apply list_elem_of_filter in H as [Hu Hin].
  apply elem_of_map_to_list in Hin. auto.
Qed.

Lemma deleteUserAccount_success env w u :
  success (deleteUserAccount env w u).2 = true ->
  exists uid usr,
    users w !! uid = Some usr /\ User.username usr = u /\
    (deleteUserAccount env w u).1
    = mkWorld (licenses w)
        (filter (fun p => Software.sellerId p.2 <> uid) (software w))
        (delete uid (users w)) (outbox w).
Proof.
  unfold deleteUserAccount.
  destruct (Js.truthy u); simpl; [|discriminate].
  unfold connect. destruct (db_read_fault env) eqn:Hdb; simpl; [discriminate|].
  destruct (findOne_username env (users w) u) as [e|[[uid usr]|]] eqn:Hf; simpl;
    try discriminate.
  apply findOne_username_found in Hf as [Hu Hn].
  unfold deleteMany, deleteOne.
  destruct (db_write_fault env); simpl; [discriminate|].
  rewrite Hu. simpl. intros _. exists uid, usr. auto.
Qed.

(** [deleteUserAccount] never touches the licenses; when it succeeds it
    has removed a user with the given name and the software that user
    sells, and nothing else, so the licenses of the removed software stay
    in the registry. *)
Theorem deleteUserAccount_keeps_licenses env w u :
  licenses (deleteUserAccount env w u).1 = licenses w /\
  outbox (deleteUserAccount env w u).1 = outbox w /\
  (success (deleteUserAccount env w u).2 = true ->
   exists uid usr,
     users w !! uid = Some usr /\ User.username usr = u /\
     users (deleteUserAccount env w u).1 = delete uid (users w) /\
     forall sid sw,
       software (deleteUserAccount env w u).1 !! sid = Some sw <->
       software w !! sid = Some sw /\ Software.sellerId sw <> uid).
Proof.
  split; [|split].
  - unfold deleteUserAccount.
    destruct (Js.truthy u); simpl; [|reflexivity].
    unfold connect. destruct (db_read_fault env); simpl; [reflexivity|].
    destruct (findOne_username env (users w) u) as [e|[[uid usr]|]]; simpl;
      try reflexivity.
    destruct (deleteMany _ _ _) as [e|ss]; simpl; [reflexivity|].
    destruct (deleteOne _ _ _) as [e|[us n]]; simpl; [reflexivity|].
    destruct (0 <? n)%nat; reflexivity.
  - unfold deleteUserAccount.
    destruct (Js.truthy u); simpl; [|reflexivity].
    unfold connect. destruct (db_read_fault env); simpl; [reflexivity|].
    destruct (findOne_username env (users w) u) as [e|[[uid usr]|]]; simpl;
      try reflexivity.
    destruct (deleteMany _ _ _) as [e|ss]; simpl; [reflexivity|].
    destruct (deleteOne _ _ _) as [e|[us n]]; simpl; [reflexivity|].
    destruct (0 <? n)%nat; reflexivity.
  - intros Hs.
    destruct (deleteUserAccount_success env w u Hs) as (uid & usr & Hu & Hn & ->).
    simpl. exists uid, usr.
    split; [assumption|]. split; [assumption|]. split; [reflexivity|].
    intros sid sw. rewrite map_lookup_filter_Some. simpl. tauto.
Qed.

(** After the seller's account is deleted, the licenses of the seller's
    software are orphans: a key request for one that was releasable is
    answered with "Could not find the associated software.". *)
Theorem deleteUserAccount_orphans env w u env' lid d a id l sw :
  success (deleteUserAccount env w u).2 = true ->
  reaches_ledger env' w lid d a id l sw ->
  (forall uid usr, users w !! uid = Some usr -> User.username usr = u ->
                   uid = Software.sellerId sw) ->
  getDecryptionKey env' (deleteUserAccount env w u).1 lid d a
  = ((deleteUserAccount env w u).1, reply false "Could not find the associated software.").
Proof.
  intros Hs [Hl Hd Ha Hrpc Hdb Hid Hlic Hact Hsw] Hseller.
  destruct (deleteUserAccount_success env w u Hs) as (uid & usr & Hu & Hn & ->).
  assert (uid = Software.sellerId sw) as -> by eauto.
  apply truthy_true in Hl, Hd, Ha.
  unfold getDecryptionKey. rewrite Hl, Hd, Ha, Hrpc. simpl.
  unfold connect, findOne. rewrite Hdb, Hid. simpl. rewrite Hlic, Hact. simpl.
  rewrite (proj2 (map_lookup_filter_None _ _ _)); [reflexivity|].
  right. intros sw' Hsw'. simpl. rewrite Hsw in Hsw'. injection Hsw' as <-. auto.
Qed.

Lemma deleteUserAccount_orphans_witness :
  getDecryptionKey Sample.env
    (deleteUserAccount Sample.env (Sample.world active "dev1") "seller").1
    Sample.licenseId "dev1" Sample.buyer
  = ((deleteUserAccount Sample.env (Sample.world active "dev1") "seller").1,
     reply false "Could not find the associated software.").
Proof.
  apply (deleteUserAccount_orphans Sample.env (Sample.world active "dev1") "seller"
           Sample.env Sample.licenseId "dev1" Sample.buyer Sample.license_oid
           (Sample.license active "dev1") Sample.editor).
  - vm_compute. reflexivity.
  - constructor; try reflexivity; discriminate.
  - intros uid usr Hu _. simpl in Hu.
    apply lookup_singleton_Some in Hu as [<- _]. reflexivity.
Defined.

(** ** The routes *)

Lemma In_existsb (m : string) (L : list string) :
  In m L <-> existsb (String.eqb m) L = true.
Proof.
  rewrite existsb_exists. split.
  - intros H. exists m. split; [assumption|apply String.eqb_refl].
  - intros (x & Hx & Heq). apply String.eqb_eq in Heq. congruence.
Qed.

Lemma getDecryptionKey_success_message env w lid d a :
  success (getDecryptionKey env w lid d a).2 = true ->
  message (getDecryptionKey env w lid d a).2 = "Key retrieved successfully.".
Proof.
  unfold getDecryptionKey.
  destruct (negb (Js.truthy lid) || negb (Js.truthy d) || negb (Js.truthy a));
    [discriminate|].
  destruct (negb (AMOY_RPC_URL env)); [discriminate|].
  unfold connect, findOne.
  destruct (db_read_fault env); simpl; [discriminate|].
  destruct (ObjectId env lid) as [id|]; simpl; [|discriminate].
  destruct (licenses w !! id) as [l|]; simpl; [|discriminate].
  destruct (bool_decide (License.status l = active)); simpl; [|discriminate].
  destruct (software w !! License.softwareId l) as [sw|]; simpl; [|discriminate].
  destruct (chain_ownerOf env (License.tokenId l)) as [h|e].
  - destruct (negb (String.eqb _ _)); simpl; [discriminate|].
    unfold device_lock_and_key.
    destruct (_ && _); simpl; [discriminate|].
    destruct (_ || _); simpl; [discriminate|reflexivity].
  - destruct (is_invalid_token_error e); simpl; [|discriminate].
    destruct (updateOne _ _ _ _) as [e1|[c1 n1]]; simpl; discriminate.
Qed.

(** The test of the get-key route on the messages of the denials. *)
Lemma forbidden_table msg :
  In msg denial_messages ->
  (Js.includes msg "blocked" || Js.includes msg "revoked"
   || Js.includes msg "owner" || Js.includes msg "Wallet address" = true
   <-> In msg forbidden_messages).
Proof.
  intros H. rewrite In_existsb. unfold denial_messages in H.
  repeat (destruct H as [<-|H]; [vm_compute; split; intros E; first [reflexivity|discriminate E]|]).
  destruct H.
Qed.

(** The get-key route answers 400 exactly when an argument is missing,
    200 exactly for a released key, and 403 exactly for the denials "not
    active" of a revoked or blocked license, "not the owner", "revoked on
    the blockchain" and "could not verify ownership" (the word "ownership"
    contains "owner"); every other denial is a 500, the device mismatch and
    the "not active" of a license the buyer has removed among them. *)
Theorem POST_get_key_status env w lid d a :
  let '(w', (r, code)) := POST_get_key env w lid d a in
  (code = 400%nat <-> lid = "" \/ d = "" \/ a = "") /\
  (code = 200%nat <-> success r = true) /\
  (code = 403%nat <-> In (message r) forbidden_messages) /\
  (code = 500%nat <->
   code <> 400%nat /\ success r = false /\ ~ In (message r) forbidden_messages) /\
  (message r = "Device mismatch. This license is not bound to this device." ->
   code = 500%nat) /\
  (message r
   = "License is not active. Current status: deleted_by_user. Contact the seller for assistance." ->
   code = 500%nat).
Proof.
  unfold POST_get_key.
  destruct (Js.truthy lid) eqn:Hl; cbn [negb orb].
  2:{ apply truthy_false in Hl. subst. rewrite In_existsb. cbn [success message].
      repeat split; auto; try discriminate; try (intros [? _]; congruence). }
  destruct (Js.truthy d) eqn:Hd; cbn [negb orb].
  2:{ apply truthy_false in Hd. subst. rewrite In_existsb. cbn [success message].
      repeat split; auto; try discriminate; try (intros [? _]; congruence). }
  destruct (Js.truthy a) eqn:Ha; cbn [negb orb].
  2:{ apply truthy_false in Ha. subst. rewrite In_existsb. cbn [success message].
      repeat split; auto; try discriminate; try (intros [? _]; congruence). }
  apply truthy_true in Hl, Hd, Ha.
  pose proof (getDecryptionKey_success_message env w lid d a) as Hok.
  pose proof (getDecryptionKey_denials env w lid d a) as Hno.
  destruct (getDecryptionKey env w lid d a) as [w' [ok msg k u]].
  cbn [success message fst snd] in *.
  assert (~ (lid = "" \/ d = "" \/ a = "")) as Hargs by (intros [?|[?|?]]; contradiction).
  destruct ok.
  - rewrite (Hok eq_refl). rewrite In_existsb. cbn [success message].
    repeat split; auto; try discriminate; try contradiction;
      try (intros [_ [? _]]; discriminate).
  - specialize (Hno eq_refl).
    pose proof (forbidden_table msg Hno) as Htab.
    destruct (_ || _) eqn:E; cbn [success message].
    + assert (In msg forbidden_messages) as Hin by (apply Htab; reflexivity).
      repeat split; auto; try discriminate; try contradiction.
      * intros (_ & _ & Hn). contradiction.
      * intros ->. vm_compute in E. discriminate E.
      * intros ->. vm_compute in E. discriminate E.
    + assert (~ In msg forbidden_messages) as Hin
          by (intros Hin; apply Htab in Hin; discriminate Hin).
      repeat split; auto; try discriminate; try contradiction.
Qed.

Ltac bind_leaf :=
  vm_compute;
  repeat split; intros; auto; try discriminate; try contradiction;
  try solve [exfalso; intuition (try discriminate; try congruence)].

(** The bind-device route answers 409 exactly for the already-bound
    denial, that is, when the software is device-locked and the license is
    bound to a device other than the one supplied; the store is then
    unchanged. It answers 400 exactly when an argument is missing and 200
    exactly when the binding call succeeds. *)
Theorem POST_bind_device_status env w lid d :
  let '(w', (r, code)) := POST_bind_device env w lid d in
  (code = 400%nat <-> lid = "" \/ d = "") /\
  (code = 200%nat <-> success r = true) /\
  (code = 409%nat <-> message r = "This license is already bound to another device.") /\
  (code = 409%nat ->
   w' = w /\
   exists id l sw,
     ObjectId env lid = Some id /\ licenses w !! id = Some l /\
     software w !! License.softwareId l = Some sw /\
     fingerprintLock (Software.licensingRules sw) = true /\
     License.deviceId l <> "" /\ License.deviceId l <> d).
Proof.
  unfold POST_bind_device, bindDeviceToLicense.
  destruct (Js.truthy lid) eqn:Hl; cbn [negb orb].
  2:{ apply truthy_false in Hl. subst. bind_leaf. }
  destruct (Js.truthy d) eqn:Hd; cbn [negb orb].
  2:{ apply truthy_false in Hd. subst. bind_leaf. }
  apply truthy_true in Hl, Hd.
  assert (~ (lid = "" \/ d = "")) as Hargs by (intros [?|?]; contradiction).
  unfold connect, findOne.
  destruct (db_read_fault env); cbn [try_bind throw ret catch].
  { bind_leaf. }
  destruct (ObjectId env lid) as [id|] eqn:Hid; cbn [try_bind throw ret catch].
  2:{ bind_leaf. }
  destruct (licenses w !! id) as [l|] eqn:Hlic; cbn [try_bind throw ret catch].
  2:{ bind_leaf. }
  destruct (software w !! License.softwareId l) as [sw|] eqn:Hsw; cbn [from_option negb].
  2:{ bind_leaf. }
  destruct (fingerprintLock (Software.licensingRules sw)) eqn:Hf; cbn [negb].
  2:{ bind_leaf. }
  destruct (Js.truthy (License.deviceId l)) eqn:Ht; cbn [negb andb].
  - apply truthy_true in Ht.
    destruct (String.eqb (License.deviceId l) d) eqn:He; cbn [negb ret catch].
    + bind_leaf.
    + apply String.eqb_neq in He.
      cbn [success message reply]. 
      replace (Js.includes "This license is already bound to another device." "already bound")
        with true by (vm_compute; reflexivity).
      repeat split; intros; auto; try discriminate; try contradiction.
      exists id, l, sw. repeat split; auto.
  - destruct (updateOne env (licenses w) id (License.set_deviceId d)) as [e|[ls n]];
      cbn [try_bind throw ret catch].
    + bind_leaf.
    + destruct (0 <? n)%nat; bind_leaf.
Qed.

Lemma filter_buyer_Some found a l :
  filter_buyer found a = Some l <->
  found = Some l /\ License.buyerAddress l = Js.toLowerCase a.
Proof.
  unfold filter_buyer. destruct found as [l0|]; [|split; [discriminate|intros [? _]; discriminate]].
  destruct (String.eqb (License.buyerAddress l0) (Js.toLowerCase a)) eqn:E.
  - apply String.eqb_eq in E. split.
    + intros [= <-]. auto.
    + intros [[= <-] _]. reflexivity.
  - apply String.eqb_neq in E. split; [discriminate|].
    intros [[= <-] H]. contradiction.
Qed.

(** The buyer's soft delete succeeds (200) only for the address stored
    with the license (the stored, lower-case address against the
    lower-cased argument) and only on a license not yet removed; it then
    sets the status to [deleted_by_user] and nothing else, and the same
    request repeated is answered with 500 "Failed to update the license
    status.". A request for a license stored under another address
    changes nothing. *)
Theorem POST_delete_by_buyer_once env w lid a :
  let '(w', (r, code)) := POST_delete_by_buyer env w lid a in
  (code = 200%nat <-> success r = true) /\
  (code = 200%nat ->
   exists id l,
     ObjectId env lid = Some id /\ licenses w !! id = Some l /\
     License.buyerAddress l = Js.toLowerCase a /\
     License.status l <> deleted_by_user /\
     w' = with_licenses (<[id := License.set_status deleted_by_user l]> (licenses w)) w /\
     POST_delete_by_buyer env w' lid a
     = (w', (reply false "Failed to update the license status.", 500%nat)))
  /\
  (code <> 200%nat -> w' = w)
  /\
  (forall id l,
     ObjectId env lid = Some id -> licenses w !! id = Some l ->
     License.buyerAddress l <> Js.toLowerCase a ->
     success r = false /\ w' = w).
Proof.
  unfold POST_delete_by_buyer at 1.
  destruct (negb (Js.truthy lid) || negb (Js.truthy a)) eqn:Hargs.
  { repeat split; auto; discriminate. }
  destruct (ObjectId env lid) as [id|] eqn:Hid.
  2:{ repeat split; auto; discriminate. }
  destruct (negb (isAddress env a)) eqn:Haddr.
  { repeat split; auto; discriminate. }
  unfold connect, findOne.
  destruct (db_read_fault env) eqn:Hdb; cbn [try_bind throw ret catch].
  { repeat split; auto; discriminate. }
  destruct (filter_buyer (licenses w !! id) a) as [l|] eqn:Hfb; cbn [try_bind throw ret catch].
  2:{ repeat split; auto; discriminate. }
  apply filter_buyer_Some in Hfb as [Hlic Hb].
  unfold updateOne. rewrite Hlic.
  destruct (db_write_fault env) eqn:Hw; cbn [try_bind throw ret catch].
  { repeat split; auto; discriminate. }
  destruct (decide (License.set_status deleted_by_user l = l)) as [Hsame|Hdiff];
    cbn [try_bind throw ret catch Nat.ltb Nat.leb].
  { repeat split; auto; try discriminate; destruct w; reflexivity. }
  split; [split; [reflexivity|reflexivity]|].
  split; [|split; [intros Hc; contradiction|]].
  2:{ intros id' l' [= <-] Hl' Hne. rewrite Hlic in Hl'. injection Hl' as <-. contradiction. }
  intros _. exists id, l.
  split; [reflexivity|]. split; [exact Hlic|]. split; [assumption|].
  split; [intros Hst; apply Hdiff; destruct l; unfold License.set_status;
          simpl in *; subst; reflexivity|].
  split; [reflexivity|].
  unfold POST_delete_by_buyer. rewrite Hargs, Hid, Haddr.
  unfold connect, findOne. rewrite Hdb. cbn [try_bind throw ret catch].
  cbn [licenses with_licenses]. rewrite lookup_insert_eq.
  unfold filter_buyer. cbn [License.buyerAddress License.set_status].
  rewrite Hb, String.eqb_refl. cbn [try_bind throw ret catch].
  unfold updateOne. rewrite Hw, lookup_insert_eq.
  rewrite decide_True by reflexivity. reflexivity.
Qed.

(** [sendViolationEmail] leaves the three collections alone and hands the
    transport at most one mail; when mail is configured, the store and the
    transport answer, and the software of the license and its seller (with
    an address) are on record, it hands over exactly one, addressed to the
    seller and naming the token and the buyer. *)
Theorem sendViolationEmail_mails_seller env w license :
  licenses (sendViolationEmail env w license) = licenses w /\
  software (sendViolationEmail env w license) = software w /\
  users (sendViolationEmail env w license) = users w /\
  (outbox (sendViolationEmail env w license) = outbox w \/
   exists m, outbox (sendViolationEmail env w license) = (outbox w ++ [m])%list) /\
  (forall sw seller,
     EMAIL_SERVER env = true -> db_read_fault env = None -> smtp_fault env = None ->
     software w !! License.softwareId license = Some sw ->
     users w !! Software.sellerId sw = Some seller ->
     User.email seller <> "" ->
     exists m,
       outbox (sendViolationEmail env w license) = (outbox w ++ [m])%list /\
       mail_to m = User.email seller /\
       mail_software m = Software.title sw /\
       mail_tokenId m = License.tokenId license /\
       mail_buyer m = License.buyerAddress license).
Proof.
  unfold sendViolationEmail.
  destruct (EMAIL_SERVER env); cbn [negb].
  2:{ repeat split; auto. intros; discriminate. }
  unfold connect, findOne.
  destruct (db_read_fault env); cbn [try_bind throw ret catch].
  { repeat split; auto. intros; discriminate. }
  destruct (software w !! License.softwareId license) as [sw|]; cbn [try_bind throw ret catch].
  2:{ repeat split; auto. intros; discriminate. }
  destruct (users w !! Software.sellerId sw) as [seller|] eqn:Hu; cbn [try_bind throw ret catch].
  2:{ repeat split; auto. intros ? ? _ _ _ [= <-] Hu' _. congruence. }
  destruct (Js.truthy (User.email seller)) eqn:He; cbn [negb try_bind throw ret catch].
  2:{ apply truthy_false in He. repeat split; auto.
      intros ? ? _ _ _ [= <-] Hu' Hne. rewrite Hu in Hu'. injection Hu' as <-. contradiction. }
  destruct (smtp_fault env); cbn [try_bind throw ret catch].
  { repeat split; auto. intros; discriminate. }
  split; [reflexivity|]. split; [reflexivity|]. split; [reflexivity|].
  split; [right; eexists; reflexivity|].
  intros ? ? _ _ _ [= <-] Hu' _. rewrite Hu in Hu'. injection Hu' as <-.
  eexists. split; [reflexivity|]. repeat split.
Qed.

(** * Further properties of the token contract *)

Module LedgerMore.
Import Ledger.

#[local] Arguments ERC721_update : simpl never.

Lemma ERC721_update_Ok st to t auth st' prev :
  ERC721_update st to t auth = Ok (st', prev) ->
  prev = _ownerOf st t /\
  _owners st' = <[t := to]> (_owners st) /\
  _tokenApprovals st'
  = (if (_ownerOf st t =? 0)%N then _tokenApprovals st else delete t (_tokenApprovals st)) /\
  _operatorApprovals st' = _operatorApprovals st /\
  _owner st' = _owner st /\
  _nextTokenId st' = _nextTokenId st /\
  _licenseIpLock st' = _licenseIpLock st /\
  _isLicenseBlocked st' = _isLicenseBlocked st.
Proof.
  unfold ERC721_update, bind.
  destruct (if (auth =? 0)%N then Ok tt else _) as [[]|e]; [|discriminate].
  intros [= <- <-]. simpl. repeat split; reflexivity.
Qed.

Lemma ERC721_update_unchecked st to t :
  exists st', ERC721_update st to t 0%N = Ok (st', _ownerOf st t).
Proof. unfold ERC721_update, bind. simpl. eexists. reflexivity. Qed.

Lemma _ownerOf_insert st st' t to t' :
  _owners st' = <[t := to]> (_owners st) ->
  _ownerOf st' t' = if decide (t = t') then to else _ownerOf st t'.
Proof.
  intros H. unfold _ownerOf. rewrite H.
  destruct (decide (t = t')) as [->|Hne].
  - rewrite lookup_insert_eq. reflexivity.
  - rewrite lookup_insert_ne by done. reflexivity.
Qed.

(** In the workspace copy [mintLicense] cannot succeed: the guard of
    [_update] reads the holder of the new token with [ownerOf], which
    reverts because the token has none (and if it had one, the guard would
    refuse the buyer). *)
Theorem mintLicense_ws_reverts receiver sender st buyer uri ip :
  exists e, mintLicense _update_ws receiver sender st buyer uri ip = Revert e.
Proof.
  unfold mintLicense, _safeMint, _mint, bind.
  destruct (onlyOwner sender st) as [[]|e]; [|eauto].
  destruct (require (_nextTokenId st <? uint256_max)%N _) as [[]|e]; [|eauto].
  destruct (require (negb (buyer =? 0)%N) _) as [[]|e] eqn:Hb; [|eauto].
  apply LedgerFacts.require_Ok, negb_true_iff in Hb.
  unfold _update_ws, ownerOf, bind.
  destruct (_ownerOf _ _ =? 0)%N eqn:Ho; [eauto|].
  simpl. rewrite Ho, Hb. simpl. eauto.
Qed.

Lemma _checkAuthorized_unminted st sender t :
  consistent st -> sender <> 0%N -> _ownerOf st t = 0%N ->
  _checkAuthorized st 0%N sender t = Revert "ERC721NonexistentToken".
Proof.
  intros (_ & Happ & Hop) Hs Ho.
  unfold _checkAuthorized, _isAuthorized.
  rewrite Hop, (Happ t Ho).
  assert ((0 =? sender)%N = false) as -> by (apply N.eqb_neq; congruence).
  rewrite andb_false_r. reflexivity.
Qed.

Lemma transferFrom_consistent_reverts sender st from to t :
  sender <> 0%N -> consistent st ->
  exists e, transferFrom _update sender st from to t = Revert e.
Proof.
  intros Hs Hc. unfold transferFrom, bind.
  destruct (to =? 0)%N eqn:Hto; simpl; [eauto|].
  unfold _update, bind.
  destruct (_ownerOf st t =? 0)%N eqn:Ho; simpl.
  - apply N.eqb_eq in Ho. unfold ERC721_update, bind.
    assert ((sender =? 0)%N = false) as -> by (apply N.eqb_neq; assumption).
    rewrite Ho, (_checkAuthorized_unminted st sender t Hc Hs Ho). eauto.
  - rewrite Hto. simpl. eauto.
Qed.

(** [transferFrom] always reverts: in the workspace copy in every state,
    in [contracts/SoftwareLicense.sol] in every consistent state, whoever
    calls it and whatever the token and the addresses. *)
Theorem transferFrom_reverts sender st from to t :
  sender <> 0%N ->
  (exists e, transferFrom _update_ws sender st from to t = Revert e) /\
  (consistent st -> exists e, transferFrom _update sender st from to t = Revert e).
Proof.
  intros Hs. unfold transferFrom, bind.
  destruct (to =? 0)%N eqn:Hto; simpl; [split; eauto|].
  split.
  - unfold _update_ws, ownerOf, bind.
    destruct (_ownerOf st t =? 0)%N eqn:Ho; [eauto|].
    simpl. rewrite Ho, Hto. simpl. eauto.
  - intros Hc.
    destruct (transferFrom_consistent_reverts sender st from to t Hs Hc) as [e He].
    revert He. unfold transferFrom, bind. rewrite Hto. simpl. eauto.
Qed.

Lemma transferFrom_reverts_witness :
  (exists e, transferFrom _update_ws 42%N sample 42%N 77%N 0%N = Revert e) /\
  (consistent sample -> exists e, transferFrom _update 42%N sample 42%N 77%N 0%N = Revert e).
Proof.
  apply (transferFrom_reverts 42%N sample 42%N 77%N 0%N). discriminate.
Defined.

(** The receivers that pass the check of [_safeMint]: the accounts
    without code, and the contracts whose hook returns its selector. *)
Lemma checkOnERC721Received_Ok receiver :
  checkOnERC721Received receiver = Ok tt <->
  receiver = NoCode \/ receiver = Returned onERC721Received_selector.
Proof.
  destruct receiver as [|retval|reason]; simpl.
  - split; auto.
  - unfold require. destruct (retval =? onERC721Received_selector)%N eqn:E.
    + apply N.eqb_eq in E. subst. split; auto.
    + apply N.eqb_neq in E. split; [discriminate|].
      intros [H|H]; [discriminate H|]. injection H as H. contradiction.
  - destruct (String.length reason =? 0)%nat;
      (split; [discriminate | intros [H|H]; discriminate H]).
Qed.

(** What an accepted [mintLicense] of [contracts/SoftwareLicense.sol] has
    checked. *)
Lemma mintLicense_inv receiver sender st buyer uri ip st' id :
  mintLicense _update receiver sender st buyer uri ip = Ok (st', id) ->
  sender = _owner st /\ buyer <> 0%N /\ (_nextTokenId st < uint256_max)%N /\
  checkOnERC721Received receiver = Ok tt.
Proof.
  unfold mintLicense, _safeMint, _mint, onlyOwner, require, bind.
  destruct (sender =? _owner st)%N eqn:E1; [|intros Hrev; discriminate Hrev].
  destruct (_nextTokenId st <? uint256_max)%N eqn:E2; [|intros Hrev; discriminate Hrev].
  destruct (buyer =? 0)%N eqn:E3; cbn [negb]; [intros Hrev; discriminate Hrev|].
  destruct (_update _ _ _ _) as [[st1 prev]|]; [|intros Hrev; discriminate Hrev].
  destruct (prev =? 0)%N; [|intros Hrev; discriminate Hrev].
  destruct (checkOnERC721Received receiver) as [[]|]; [|intros Hrev; discriminate Hrev].
  intros _. apply N.eqb_eq in E1. apply N.ltb_lt in E2. apply N.eqb_neq in E3. auto.
Qed.

(** What [mintLicense] of [contracts/SoftwareLicense.sol] stores when the
    next identifier has no holder and the receiver passes the check. *)
Lemma mintLicense_Ok receiver sender st buyer uri ip :
  sender = _owner st -> buyer <> 0%N ->
  (_nextTokenId st < uint256_max)%N ->
  _ownerOf st (_nextTokenId st) = 0%N ->
  checkOnERC721Received receiver = Ok tt ->
  exists st',
    mintLicense _update receiver sender st buyer uri ip = Ok (st', _nextTokenId st) /\
    _owners st' = <[_nextTokenId st := buyer]> (_owners st) /\
    _nextTokenId st' = (_nextTokenId st + 1)%N /\
    _licenseIpLock st'
    = (if (0 <? String.length ip)%nat
       then <[_nextTokenId st := ip]> (_licenseIpLock st) else _licenseIpLock st) /\
    _isLicenseBlocked st' = _isLicenseBlocked st /\
    _tokenApprovals st' = _tokenApprovals st /\
    _operatorApprovals st' = _operatorApprovals st /\
    _owner st' = _owner st.
Proof.
  intros -> Hb Hmax Ho Hrecv.
  unfold mintLicense, _safeMint, _mint, onlyOwner, bind.
  rewrite N.eqb_refl. simpl.
  apply N.ltb_lt in Hmax. rewrite Hmax. simpl.
  apply N.eqb_neq in Hb. rewrite Hb. simpl.
  unfold _update, bind.
  replace (_ownerOf (set_nextTokenId (_nextTokenId st + 1) st) (_nextTokenId st))
    with 0%N by (symmetry; exact Ho).
  simpl. unfold ERC721_update, bind. simpl.
  replace (_ownerOf (set_nextTokenId (_nextTokenId st + 1) st) (_nextTokenId st))
    with 0%N by (symmetry; exact Ho).
  simpl. rewrite Hrecv.
  destruct (0 <? String.length ip)%nat; eexists; repeat split; reflexivity.
Qed.

(** A receiver that does not pass the check reverts the mint. *)
Lemma mintLicense_refused upd receiver sender st buyer uri ip :
  checkOnERC721Received receiver <> Ok tt ->
  exists e, mintLicense upd receiver sender st buyer uri ip = Revert e.
Proof.
  intros Hrecv. unfold mintLicense, _safeMint, bind.
  destruct (onlyOwner sender st) as [[]|e]; [|eauto].
  destruct (require _ _) as [[]|e]; [|eauto].
  destruct (_mint _ _ _ _) as [st1|e]; [|eauto].
  destruct (checkOnERC721Received receiver) as [[]|e]; [contradiction|eauto].
Qed.

Lemma getLicenseIpLock_insert st st' t ip t' :
  _licenseIpLock st' = <[t := ip]> (_licenseIpLock st) ->
  getLicenseIpLock st' t' = if decide (t = t') then ip else getLicenseIpLock st t'.
Proof.
  intros H. unfold getLicenseIpLock. rewrite H.
  destruct (decide (t = t')) as [->|Hne].
  - rewrite lookup_insert_eq. reflexivity.
  - rewrite lookup_insert_ne by done. reflexivity.
Qed.

(** One accepted transaction from a non-zero sender keeps the storage
    consistent, does not lower the counter, and gives no holder to an
    identifier that was given out and has none. *)
Lemma exec_step sender st c st' :
  consistent st -> sender <> 0%N ->
  exec _update sender st c = Ok st' ->
  consistent st' /\
  (_nextTokenId st <= _nextTokenId st')%N /\
  (forall t, (t < _nextTokenId st)%N -> _ownerOf st t = 0%N -> _ownerOf st' t = 0%N) /\
  (forall t, (t < _nextTokenId st)%N -> getLicenseIpLock st' t = getLicenseIpLock st t).
Proof.
  intros Hc Hs. pose proof Hc as (Hnext & Happ & Hop).
  destruct c as [buyer uri ip receiver|t|t b|from to t]; simpl.
  - destruct (mintLicense _update receiver sender st buyer uri ip) as [[st1 id]|e] eqn:Hm;
      simpl; [|simpl; intros Hrev; discriminate Hrev].
    intros [= <-].
    destruct (mintLicense_inv _ _ _ _ _ _ _ _ Hm) as (Hown & Hb & Hmax & Hrecv).
    destruct (Hnext (_nextTokenId st) (N.le_refl _)) as [Ho Hl].
    destruct (mintLicense_Ok receiver sender st buyer uri ip Hown Hb Hmax Ho Hrecv)
      as (st2 & Hm2 & Hown2 & Hn2 & Hl2 & Hb2 & Ha2 & Hop2 & Hc2).
    rewrite Hm in Hm2. injection Hm2 as <-.
    assert (forall t', getLicenseIpLock st1 t'
                       = if decide (_nextTokenId st = t') then ip else getLicenseIpLock st t')
      as Hlock.
    { intros t'. destruct (0 <? String.length ip)%nat eqn:Hip.
      - apply getLicenseIpLock_insert. assumption.
      - unfold getLicenseIpLock at 1. rewrite Hl2.
        destruct (decide (_nextTokenId st = t')) as [<-|]; [|reflexivity].
        fold (getLicenseIpLock st (_nextTokenId st)). rewrite Hl.
        destruct ip; [reflexivity|discriminate Hip]. }
    split; [split; [|split] | split; [|split]].
    + intros t Ht. rewrite Hn2 in Ht. split.
      * rewrite (_ownerOf_insert st st1 _ _ t Hown2).
        rewrite decide_False by lia. apply Hnext. lia.
      * rewrite Hlock. rewrite decide_False by lia. apply Hnext. lia.
    + intros t. rewrite (_ownerOf_insert st st1 _ _ t Hown2), Ha2.
      destruct (decide (_nextTokenId st = t)); [congruence|]. apply Happ.
    + intros x. rewrite Hop2. apply Hop.
    + rewrite Hn2. lia.
    + intros t Ht Hz. rewrite (_ownerOf_insert st st1 _ _ t Hown2).
      rewrite decide_False by lia. assumption.
    + intros t Ht. rewrite Hlock. rewrite decide_False by lia. reflexivity.
  - unfold revokeLicense, _burn, onlyOwner, require, bind.
    destruct (sender =? _owner st)%N; simpl; [|simpl; intros Hrev; discriminate Hrev].
    destruct (_exists st t) eqn:Hex; simpl; [|simpl; intros Hrev; discriminate Hrev].
    unfold _exists in Hex. apply negb_true_iff in Hex.
    unfold _update, require, bind. rewrite Hex.
    destruct (ERC721_update_unchecked st 0%N t) as [st1 Hu].
    cbn [negb N.eqb]. rewrite Hu, Hex. cbn [negb].
    apply ERC721_update_Ok in Hu
      as (Hp & Hown1 & Ha1 & Hop1 & Hc1 & Hn1 & Hl1 & Hb1).
    rewrite Hex in Ha1.
    intros [= <-].
    assert (forall t', getLicenseIpLock st1 t' = getLicenseIpLock st t') as Hlock
      by (intros; unfold getLicenseIpLock; rewrite Hl1; reflexivity).
    split; [split; [|split] | split; [|split]].
    + intros t' Ht. rewrite Hn1 in Ht. split.
      * rewrite (_ownerOf_insert st st1 _ _ t' Hown1).
        destruct (decide (t = t')); [reflexivity|]. apply Hnext. assumption.
      * rewrite Hlock. apply Hnext. assumption.
    + intros t'. rewrite (_ownerOf_insert st st1 _ _ t' Hown1), Ha1.
      destruct (decide (t = t')) as [<-|Hne].
      * intros _. rewrite lookup_delete_eq. reflexivity.
      * intros Hz. rewrite lookup_delete_ne by done. apply Happ. assumption.
    + intros x. rewrite Hop1. apply Hop.
    + rewrite Hn1. lia.
    + intros t' Ht Hz. rewrite (_ownerOf_insert st st1 _ _ t' Hown1).
      destruct (decide (t = t')); [reflexivity|assumption].
    + intros t' Ht. apply Hlock.
  - unfold blockLicense, onlyOwner, require, bind.
    destruct (sender =? _owner st)%N; simpl; [|simpl; intros Hrev; discriminate Hrev].
    intros [= <-]. split; [split; [|split] | split; [|split]]; auto.
  - destruct (transferFrom_consistent_reverts sender st from to t Hs Hc) as [e ->].
    discriminate.
Qed.

Lemma deploy_consistent initialOwner st : deploy initialOwner = Ok st -> consistent st.
Proof.
  unfold deploy, require, bind.
  destruct (negb (initialOwner =? 0)%N); simpl; [|intros H; discriminate H].
  intros [= <-]. repeat split; intros; reflexivity.
Qed.

Lemma apply_tx_step st tx :
  consistent st -> tx.1 <> 0%N ->
  consistent (apply_tx _update st tx) /\
  (_nextTokenId st <= _nextTokenId (apply_tx _update st tx))%N /\
  (forall t, (t < _nextTokenId st)%N -> _ownerOf st t = 0%N ->
             _ownerOf (apply_tx _update st tx) t = 0%N) /\
  (forall t, (t < _nextTokenId st)%N ->
             getLicenseIpLock (apply_tx _update st tx) t = getLicenseIpLock st t).
Proof.
  intros Hc Hs. unfold apply_tx.
  destruct (exec _update tx.1 st tx.2) as [st'|e] eqn:He.
  - exact (exec_step _ _ _ _ Hc Hs He).
  - split; [assumption|]. split; [apply N.le_refl|]. split; auto.
Qed.

Lemma apply_txs_steps txs : forall st,
  consistent st -> Forall (fun tx => tx.1 <> 0%N) txs ->
  consistent (apply_txs _update st txs) /\
  (_nextTokenId st <= _nextTokenId (apply_txs _update st txs))%N /\
  (forall t, (t < _nextTokenId st)%N -> _ownerOf st t = 0%N ->
             _ownerOf (apply_txs _update st txs) t = 0%N) /\
  (forall t, (t < _nextTokenId st)%N ->
             getLicenseIpLock (apply_txs _update st txs) t = getLicenseIpLock st t).
Proof.
  induction txs as [|tx txs IH]; intros st Hc Hall; simpl.
  - split; [assumption|]. split; [apply N.le_refl|]. split; auto.
  - inversion Hall as [|? ? Hs Hrest]; subst.
    destruct (apply_tx_step st tx Hc Hs) as (Hc1 & Hn1 & Ho1 & Hl1).
    destruct (IH _ Hc1 Hrest) as (Hc2 & Hn2 & Ho2 & Hl2).
    fold (apply_txs _update (apply_tx _update st tx) txs).
    split; [assumption|]. split; [lia|]. split.
    + intros t Ht Hz. apply Ho2; [lia|]. apply Ho1; assumption.
    + intros t Ht. rewrite Hl2 by lia. apply Hl1. assumption.
Qed.

(** Every state [contracts/SoftwareLicense.sol] reaches from its
    deployment is consistent, and so [transferFrom] reverts in every one of
    them: no sequence of transactions moves a token from one holder to
    another. *)
Theorem reachable_never_transfers initialOwner st0 txs sender from to t :
  deploy initialOwner = Ok st0 ->
  Forall (fun tx => tx.1 <> 0%N) txs ->
  sender <> 0%N ->
  consistent (apply_txs _update st0 txs) /\
  exists e, transferFrom _update sender (apply_txs _update st0 txs) from to t = Revert e.
Proof.
  intros Hd Hall Hs.
  destruct (apply_txs_steps txs st0 (deploy_consistent _ _ Hd) Hall) as (Hc & _).
  split; [assumption|]. apply transferFrom_consistent_reverts; assumption.
Qed.

(** A burn is permanent: an identifier that was given out and has no
    holder never gets one again, and the locality lock stored for an
    identifier given out never changes, whatever transactions follow. *)
Theorem burned_stays_burned st txs t :
  consistent st ->
  Forall (fun tx => tx.1 <> 0%N) txs ->
  (t < _nextTokenId st)%N ->
  (_ownerOf st t = 0%N -> _ownerOf (apply_txs _update st txs) t = 0%N) /\
  getLicenseIpLock (apply_txs _update st txs) t = getLicenseIpLock st t.
Proof.
  intros Hc Hall Ht.
  destruct (apply_txs_steps txs st Hc Hall) as (_ & _ & Ho & Hl).
  split; [intros Hz; apply Ho; assumption | apply Hl; assumption].
Qed.

(** Only the owner of the contract changes its state: in a consistent
    state every transaction from another account reverts. *)
Theorem stranger_changes_nothing sender st c :
  consistent st -> sender <> 0%N -> sender <> _owner st ->
  exists e, exec _update sender st c = Revert e.
Proof.
  intros Hc Hs Hne. apply N.eqb_neq in Hne.
  destruct c as [buyer uri ip receiver|t|t b|from to t]; simpl.
  - unfold mintLicense, onlyOwner, require, bind. rewrite Hne. simpl. eauto.
  - unfold revokeLicense, onlyOwner, require, bind. rewrite Hne. simpl. eauto.
  - unfold blockLicense, onlyOwner, require, bind. rewrite Hne. simpl. eauto.
  - apply transferFrom_consistent_reverts; assumption.
Qed.

(** [mintLicense] of [contracts/SoftwareLicense.sol], called by the owner
    of the contract in a consistent state for a non-zero buyer: when the
    buyer's account has no code, or is a contract whose
    [onERC721Received] returns its selector, the call succeeds; it returns
    the counter, advances it by one, makes the buyer the holder of the new
    token, stores the locality as its lock (none for the empty string), and
    changes neither the holder nor the lock of another token, nor any
    blocked flag. When the buyer is a contract whose hook returns
    something else or reverts, the call reverts. *)
Theorem mintLicense_mints receiver sender st buyer uri ip :
  consistent st ->
  sender = _owner st -> buyer <> 0%N ->
  (_nextTokenId st < uint256_max)%N ->
  (receiver = NoCode \/ receiver = Returned onERC721Received_selector ->
   exists st',
     mintLicense _update receiver sender st buyer uri ip = Ok (st', _nextTokenId st) /\
     _nextTokenId st' = (_nextTokenId st + 1)%N /\
     _ownerOf st' (_nextTokenId st) = buyer /\
     getLicenseIpLock st' (_nextTokenId st) = ip /\
     (forall t, t <> _nextTokenId st ->
                _ownerOf st' t = _ownerOf st t /\
                getLicenseIpLock st' t = getLicenseIpLock st t) /\
     (forall t, isLicenseBlocked st' t = isLicenseBlocked st t))
  /\
  (receiver <> NoCode -> receiver <> Returned onERC721Received_selector ->
   exists e, mintLicense _update receiver sender st buyer uri ip = Revert e).
Proof.
  intros Hc Hown Hb Hmax. split.
  - intros Hrecv. apply checkOnERC721Received_Ok in Hrecv.
    destruct (proj1 Hc (_nextTokenId st) (N.le_refl _)) as [Ho Hl].
    destruct (mintLicense_Ok receiver sender st buyer uri ip Hown Hb Hmax Ho Hrecv)
      as (st' & Hm & Hown' & Hn' & Hl' & Hb' & _).
    exists st'. split; [assumption|]. split; [assumption|].
    assert (forall t', getLicenseIpLock st' t'
                       = if decide (_nextTokenId st = t') then ip else getLicenseIpLock st t')
      as Hlock.
    { intros t'. destruct (0 <? String.length ip)%nat eqn:Hip.
      - apply getLicenseIpLock_insert. assumption.
      - unfold getLicenseIpLock at 1. rewrite Hl'.
        destruct (decide (_nextTokenId st = t')) as [<-|]; [|reflexivity].
        fold (getLicenseIpLock st (_nextTokenId st)). rewrite Hl.
        destruct ip; [reflexivity|discriminate Hip]. }
    split; [|split; [|split]].
    + rewrite (_ownerOf_insert st st' _ _ _ Hown'). rewrite decide_True by reflexivity.
      reflexivity.
    + rewrite Hlock. rewrite decide_True by reflexivity. reflexivity.
    + intros t Hne. rewrite (_ownerOf_insert st st' _ _ _ Hown'), Hlock.
      rewrite !decide_False by congruence. auto.
    + intros t. unfold isLicenseBlocked. rewrite Hb'. reflexivity.
  - intros H1 H2. apply mintLicense_refused.
    rewrite checkOnERC721Received_Ok. tauto.
Qed.

Lemma sample_consistent : consistent sample.
Proof.
  split; [|split].
  - intros t Ht. change (_nextTokenId sample) with 2%N in Ht.
    unfold _ownerOf, getLicenseIpLock. simpl.
    rewrite !lookup_insert_ne by lia. rewrite lookup_singleton_ne by lia.
    rewrite lookup_singleton_ne by lia. auto.
  - intros t _. reflexivity.
  - intros x. reflexivity.
Qed.

(** Account 44 has no code; account 45 is a contract without the hook,
    whose call reverts with no reason. *)
Lemma mintLicense_mints_witness :
  (exists st',
     mintLicense _update NoCode 1%N sample 44%N "ipfs://c" "198.51.100.4"
     = Ok (st', _nextTokenId sample) /\
     _nextTokenId st' = (_nextTokenId sample + 1)%N /\
     _ownerOf st' (_nextTokenId sample) = 44%N /\
     getLicenseIpLock st' (_nextTokenId sample) = "198.51.100.4" /\
     (forall t, t <> _nextTokenId sample ->
                _ownerOf st' t = _ownerOf sample t /\
                getLicenseIpLock st' t = getLicenseIpLock sample t) /\
     (forall t, isLicenseBlocked st' t = isLicenseBlocked sample t))
  /\
  (exists e,
     mintLicense _update (Reverted "") 1%N sample 45%N "ipfs://c" "198.51.100.4"
     = Revert e).
Proof.
  split.
  - apply (mintLicense_mints NoCode 1%N sample 44%N "ipfs://c" "198.51.100.4").
    + exact sample_consistent.
    + reflexivity.
    + discriminate.
    + vm_compute. reflexivity.
    + left. reflexivity.
  - apply (mintLicense_mints (Reverted "") 1%N sample 45%N "ipfs://c" "198.51.100.4").
    + exact sample_consistent.
    + reflexivity.
    + discriminate.
    + vm_compute. reflexivity.
    + discriminate.
    + discriminate.
Defined.

Lemma reachable_never_transfers_witness :
  consistent (apply_txs _update
                (mkState ∅ ∅ ∅ ∅ ∅ 1%N 0%N ∅ ∅ [])
                [(1%N, CallMintLicense 42%N "ipfs://a" "203.0.113.7" NoCode)]) /\
  exists e,
    transferFrom _update 42%N
      (apply_txs _update (mkState ∅ ∅ ∅ ∅ ∅ 1%N 0%N ∅ ∅ [])
         [(1%N, CallMintLicense 42%N "ipfs://a" "203.0.113.7" NoCode)])
      42%N 77%N 0%N = Revert e.
Proof.
  apply (reachable_never_transfers 1%N (mkState ∅ ∅ ∅ ∅ ∅ 1%N 0%N ∅ ∅ [])
           [(1%N, CallMintLicense 42%N "ipfs://a" "203.0.113.7" NoCode)] 42%N 42%N 77%N 0%N).
  - reflexivity.
  - repeat constructor. discriminate.
  - discriminate.
Defined.

(** Token 0 of the later sample is burned; the owner of the contract then
    mints again, the former holder tries to take the token back, and the
    owner unblocks it. *)
Lemma burned_stays_burned_witness :
  _ownerOf sample 0%N = 42%N /\
  _ownerOf sample_later 0%N = 0%N /\
  _ownerOf (apply_txs _update sample_later
              [ (1%N, CallMintLicense 42%N "ipfs://a" "198.51.100.1" NoCode);
                (42%N, CallTransferFrom 0%N 42%N 0%N);
                (1%N, CallBlockLicense 0%N false) ]) 0%N = 0%N /\
  getLicenseIpLock (apply_txs _update sample_later
                      [ (1%N, CallMintLicense 42%N "ipfs://a" "198.51.100.1" NoCode);
                        (42%N, CallTransferFrom 0%N 42%N 0%N);
                        (1%N, CallBlockLicense 0%N false) ]) 0%N
  = getLicenseIpLock sample_later 0%N.
Proof.
  assert (_ownerOf sample_later 0%N = 0%N) as Hz by (vm_compute; reflexivity).
  split; [vm_compute; reflexivity|]. split; [exact Hz|].
  destruct (burned_stays_burned sample_later
              [ (1%N, CallMintLicense 42%N "ipfs://a" "198.51.100.1" NoCode);
                (42%N, CallTransferFrom 0%N 42%N 0%N);
                (1%N, CallBlockLicense 0%N false) ] 0%N) as [H1 H2].
  - apply (apply_txs_steps _ sample sample_consistent).
    repeat constructor; discriminate.
  - repeat constructor; discriminate.
  - vm_compute. reflexivity.
  - split; [apply H1; exact Hz | exact H2].
Defined.

Lemma stranger_changes_nothing_witness :
  exists e, exec _update 42%N sample (CallBlockLicense 0%N false) = Revert e.
Proof.
  apply (stranger_changes_nothing 42%N sample (CallBlockLicense 0%N false)).
  - exact sample_consistent.
  - discriminate.
  - discriminate.
Defined.

Lemma validateLicense_same {Digest} `{EqDecision Digest} (keccak256 : string -> Digest)
    st st' t ip :
  _ownerOf st' t = _ownerOf st t ->
  isLicenseBlocked st' t = isLicenseBlocked st t ->
  getLicenseIpLock st' t = getLicenseIpLock st t ->
  validateLicense keccak256 st' t ip = validateLicense keccak256 st t ip.
Proof.
  intros Ho Hb Hl. unfold validateLicense, _exists. rewrite Ho, Hb, Hl. reflexivity.
Qed.

Lemma blockLicense_Ok sender st t b :
  sender = _owner st ->
  blockLicense sender st t b = Ok (set_isLicenseBlocked t b st).
Proof.
  intros ->. unfold blockLicense, onlyOwner, require, bind.
  rewrite N.eqb_refl. reflexivity.
Qed.

Lemma isLicenseBlocked_set st t b t' :
  isLicenseBlocked (set_isLicenseBlocked t b st) t'
  = if decide (t = t') then b else isLicenseBlocked st t'.
Proof.
  unfold isLicenseBlocked. simpl. destruct (decide (t = t')) as [->|Hne].
  - rewrite lookup_insert_eq. reflexivity.
  - rewrite lookup_insert_ne by done. reflexivity.
Qed.

(** [blockLicense] does not ask whether the token exists: the owner of the
    contract can block the identifier that is next to be given out, and the
    token then minted with it (to a buyer that passes the receiver check)
    is blocked from the start, so that [validateLicense] answers [false]
    for it whatever the locality. *)
Theorem blocked_before_mint receiver sender st buyer uri ip :
  consistent st ->
  sender = _owner st -> buyer <> 0%N ->
  (_nextTokenId st < uint256_max)%N ->
  receiver = NoCode \/ receiver = Returned onERC721Received_selector ->
  exists st1 st2,
    blockLicense sender st (_nextTokenId st) true = Ok st1 /\
    mintLicense _update receiver sender st1 buyer uri ip = Ok (st2, _nextTokenId st) /\
    _ownerOf st2 (_nextTokenId st) = buyer /\
    forall (Digest : Type) (Heq : EqDecision Digest) (keccak256 : string -> Digest) ip',
      validateLicense keccak256 st2 (_nextTokenId st) ip' = Ok false.
Proof.
  intros Hc Hown Hb Hmax Hrecv. apply checkOnERC721Received_Ok in Hrecv.
  destruct (proj1 Hc (_nextTokenId st) (N.le_refl _)) as [Ho _].
  exists (set_isLicenseBlocked (_nextTokenId st) true st).
  destruct (mintLicense_Ok receiver sender (set_isLicenseBlocked (_nextTokenId st) true st)
              buyer uri ip Hown Hb Hmax Ho Hrecv)
    as (st2 & Hm & Hown2 & _ & _ & Hb2 & _).
  exists st2. split; [apply blockLicense_Ok; assumption|].
  split; [exact Hm|].
  assert (_ownerOf st2 (_nextTokenId st) = buyer) as Hholder.
  { rewrite (_ownerOf_insert _ st2 _ _ _ Hown2). simpl.
    rewrite decide_True by reflexivity. reflexivity. }
  split; [assumption|].
  intros Digest Heq keccak256 ip'.
  unfold validateLicense, _exists, require, bind. rewrite Hholder.
  apply N.eqb_neq in Hb. rewrite Hb. simpl.
  unfold isLicenseBlocked. rewrite Hb2. simpl. rewrite lookup_insert_eq. reflexivity.
Qed.

Lemma blocked_before_mint_witness :
  exists st1 st2,
    blockLicense 1%N sample (_nextTokenId sample) true = Ok st1 /\
    mintLicense _update (Returned onERC721Received_selector) 1%N st1 44%N "ipfs://c" ""
    = Ok (st2, _nextTokenId sample) /\
    _ownerOf st2 (_nextTokenId sample) = 44%N /\
    forall (Digest : Type) (Heq : EqDecision Digest) (keccak256 : string -> Digest) ip',
      validateLicense keccak256 st2 (_nextTokenId sample) ip' = Ok false.
Proof.
  apply (blocked_before_mint (Returned onERC721Received_selector)
           1%N sample 44%N "ipfs://c" "").
  - exact sample_consistent.
  - reflexivity.
  - discriminate.
  - vm_compute. reflexivity.
  - right. reflexivity.
Defined.

(** [revokeLicense] of the contract, called by its owner: on a token
    without holder both copies revert with "ERC721: token nonexistent"; on
    a token with a holder both burn it and reach the same state, in which
    the token has no holder, the other tokens have theirs, the lock and the
    blocked flag of the burned token are still stored, and
    [validateLicense] reverts for it. *)
Theorem revokeLicense_burns sender st t :
  sender = _owner st ->
  (_ownerOf st t = 0%N ->
   revokeLicense _update sender st t = Revert "ERC721: token nonexistent" /\
   revokeLicense _update_ws sender st t = Revert "ERC721: token nonexistent")
  /\
  (_ownerOf st t <> 0%N ->
   exists st',
     revokeLicense _update sender st t = Ok st' /\
     revokeLicense _update_ws sender st t = Ok st' /\
     _ownerOf st' t = 0%N /\
     (forall t', t' <> t -> _ownerOf st' t' = _ownerOf st t') /\
     (forall t', getLicenseIpLock st' t' = getLicenseIpLock st t') /\
     (forall t', isLicenseBlocked st' t' = isLicenseBlocked st t') /\
     forall (Digest : Type) (Heq : EqDecision Digest) (keccak256 : string -> Digest) ip,
       validateLicense keccak256 st' t ip = Revert "License does not exist.").
Proof.
  intros ->. unfold revokeLicense, _burn, onlyOwner, require, bind.
  rewrite N.eqb_refl. cbn [negb]. unfold _exists. split.
  - intros Hz. rewrite Hz. split; reflexivity.
  - intros Hm. apply N.eqb_neq in Hm. rewrite Hm. cbn [negb].
    destruct (ERC721_update_unchecked st 0%N t) as [st' Hu].
    exists st'.
    unfold _update, _update_ws, ownerOf, require, bind. rewrite Hm.
    cbn [negb N.eqb]. rewrite !Hu. rewrite ?Hm. cbn [negb]. rewrite ?Hu, ?Hm. cbn [negb].
    apply ERC721_update_Ok in Hu as (_ & Hown & _ & _ & _ & _ & Hl & Hb).
    split; [reflexivity|]. split; [reflexivity|].
    assert (_ownerOf st' t = 0%N) as Hz.
    { rewrite (_ownerOf_insert st st' _ _ _ Hown). rewrite decide_True by reflexivity.
      reflexivity. }
    split; [assumption|]. split; [|split; [|split]].
    + intros t' Hne. rewrite (_ownerOf_insert st st' _ _ _ Hown).
      rewrite decide_False by congruence. reflexivity.
    + intros t'. unfold getLicenseIpLock. rewrite Hl. reflexivity.
    + intros t'. unfold isLicenseBlocked. rewrite Hb. reflexivity.
    + intros Digest Heq keccak256 ip. unfold validateLicense, _exists, require, bind.
      rewrite Hz. reflexivity.
Qed.

(** Blocking and unblocking: after the owner of the contract blocks a
    token, [validateLicense] answers [false] for it whatever the locality
    and answers for every other token as before; after the owner unblocks
    it again, [validateLicense] answers for every token as it did before
    the block. *)
Theorem block_then_unblock sender st t :
  sender = _owner st ->
  isLicenseBlocked st t = false ->
  exists st1 st2,
    blockLicense sender st t true = Ok st1 /\
    blockLicense sender st1 t false = Ok st2 /\
    forall (Digest : Type) (Heq : EqDecision Digest) (keccak256 : string -> Digest) t' ip,
      (_ownerOf st t <> 0%N -> validateLicense keccak256 st1 t ip = Ok false) /\
      (t' <> t ->
       validateLicense keccak256 st1 t' ip = validateLicense keccak256 st t' ip) /\
      validateLicense keccak256 st2 t' ip = validateLicense keccak256 st t' ip.
Proof.
  intros Hown Hfree.
  exists (set_isLicenseBlocked t true st),
         (set_isLicenseBlocked t false (set_isLicenseBlocked t true st)).
  split; [apply blockLicense_Ok; assumption|].
  split; [apply blockLicense_Ok; assumption|].
  intros Digest Heq keccak256 t' ip. split; [|split].
  - intros Hm. unfold validateLicense, _exists, require, bind.
    change (_ownerOf (set_isLicenseBlocked t true st) t) with (_ownerOf st t).
    apply N.eqb_neq in Hm. rewrite Hm. cbn [negb].
    rewrite isLicenseBlocked_set, decide_True by reflexivity. reflexivity.
  - intros Hne. apply validateLicense_same; try reflexivity.
    rewrite isLicenseBlocked_set, decide_False by congruence. reflexivity.
  - apply validateLicense_same; try reflexivity.
    rewrite !isLicenseBlocked_set.
    destruct (decide (t = t')) as [<-|]; [symmetry; assumption|reflexivity].
Qed.

Lemma block_then_unblock_witness :
  exists st1 st2,
    blockLicense 1%N sample 0%N true = Ok st1 /\
    blockLicense 1%N st1 0%N false = Ok st2 /\
    forall (Digest : Type) (Heq : EqDecision Digest) (keccak256 : string -> Digest) t' ip,
      (_ownerOf sample 0%N <> 0%N -> validateLicense keccak256 st1 0%N ip = Ok false) /\
      (t' <> 0%N ->
       validateLicense keccak256 st1 t' ip = validateLicense keccak256 sample t' ip) /\
      validateLicense keccak256 st2 t' ip = validateLicense keccak256 sample t' ip.
Proof.
  apply (block_then_unblock 1%N sample 0%N); reflexivity.
Defined.

Lemma revokeLicense_burns_witness :
  (_ownerOf sample 0%N = 0%N ->
   revokeLicense _update 1%N sample 0%N = Revert "ERC721: token nonexistent" /\
   revokeLicense _update_ws 1%N sample 0%N = Revert "ERC721: token nonexistent")
  /\
  (_ownerOf sample 0%N <> 0%N ->
   exists st',
     revokeLicense _update 1%N sample 0%N = Ok st' /\
     revokeLicense _update_ws 1%N sample 0%N = Ok st' /\
     _ownerOf st' 0%N = 0%N /\
     (forall t', t' <> 0%N -> _ownerOf st' t' = _ownerOf sample t') /\
     (forall t', getLicenseIpLock st' t' = getLicenseIpLock sample t') /\
     (forall t', isLicenseBlocked st' t' = isLicenseBlocked sample t') /\
     forall (Digest : Type) (Heq : EqDecision Digest) (keccak256 : string -> Digest) ip,
       validateLicense keccak256 st' 0%N ip = Revert "License does not exist.").
Proof.
  apply (revokeLicense_burns 1%N sample 0%N). reflexivity.
Defined.

End LedgerMore.
